(** * Lagos accessibility model: the computation core

    A shallow embedding of the accessibility engine of the dashboard
    ([data_processing.py], [map_utils.py], and the two call sites in
    [app.py] that zero-fill the merged columns).

    Conventions of the embedding.
    - A pandas frame is a list of rows, or a record of columns where the
      code addresses it by column name.
    - A float cell is an exact rational ([Q]); a cell that may be NaN is
      an [option Q].  The rounding of binary floating point is outside the
      model, so numeric results are compared with [==] on [Q].
    - Python integers are [Z].
    - A Python exception is a constructor of [exn]; code that can raise
      returns a [result]. *)

From Stdlib Require Import Ascii String HexadecimalString DecimalString DecimalZ ZArith QArith Qround Qabs List Bool Lia Lqa.
From Stdlib Require Import Permutation Sorted.
Import ListNotations.

Local Open Scope Z_scope.
Local Open Scope Q_scope.

(** ** Exceptions

    The exceptions the modelled code raises, by their Python names;
    [DataLoadError] is the loaders' own. *)

Inductive exn : Type :=
| KeyError (key : string)
| IndexError
| ValueError
| OverflowError
| ZeroDivisionError
| DataLoadError.

Inductive result (A : Type) : Type :=
| Ok (a : A)
| Err (e : exn).

Arguments Ok {A} a.
Arguments Err {A} e.

Definition bind {A B : Type} (m : result A) (k : A -> result B) : result B :=
  match m with
  | Ok a => k a
  | Err e => Err e
  end.

Notation "x <- m ;; k" := (bind m (fun x => k))
  (at level 61, m at next level, right associativity).

Fixpoint mapM {A B : Type} (f : A -> result B) (l : list A) : result (list B) :=
  match l with
  | [] => Ok []
  | a :: tl => b <- f a ;; bs <- mapM f tl ;; Ok (b :: bs)
  end.

(** ** Numbers *)

Definition Qsum (l : list Q) : Q := fold_right Qplus 0 l.

(** [Series.sum()] skips NaN. *)
Definition nan_to_zero (c : option Q) : Q :=
  match c with
  | Some q => q
  | None => 0
  end.

Definition sum_skipna (l : list (option Q)) : Q := Qsum (map nan_to_zero l).

(** [Series.mean()] of a column without NaN. *)
Definition mean (l : list Q) : Q := Qsum l / inject_Z (Z.of_nat (length l)).

Fixpoint dropna {A : Type} (l : list (option A)) : list A :=
  match l with
  | [] => []
  | Some a :: tl => a :: dropna tl
  | None :: tl => dropna tl
  end.

(** [pd.isna] on a cell. *)
Definition is_null {A : Type} (c : option A) : bool :=
  match c with
  | Some _ => false
  | None => true
  end.

(** Python's [round(x)] on a float: to the nearest integer, ties to even. *)
Definition py_round (x : Q) : Z :=
  let f := Qfloor x in
  let r := x - inject_Z f in
  match Qcompare r (1 # 2) with
  | Lt => f
  | Gt => (f + 1)%Z
  | Eq => if Z.even f then f else (f + 1)%Z
  end.

(** Python's [int(x)] on a float: truncation toward zero. *)
Definition py_int (x : Q) : Z :=
  if Qle_bool 0 x then Qfloor x else Qceiling x.

(** [f"{z}"] for an integer: its decimal digits, with a sign when
    negative. *)
Definition py_str (z : Z) : string := NilEmpty.string_of_int (Z.to_int z).

(** ['_' in s] *)
Fixpoint has_underscore (s : string) : bool :=
  match s with
  | EmptyString => false
  | String c tl => Ascii.eqb c "_"%char || has_underscore tl
  end.

(** ** Sorting and grouping *)

Section Sort.
Context {A : Type} (leb : A -> A -> bool).

Fixpoint insert_sorted (a : A) (l : list A) : list A :=
  match l with
  | [] => [a]
  | b :: tl => if leb a b then a :: l else b :: insert_sorted a tl
  end.

Fixpoint sort_values (l : list A) : list A :=
  match l with
  | [] => []
  | a :: tl => insert_sorted a (sort_values tl)
  end.
End Sort.

Definition pair_eqb (a b : Z * Z) : bool :=
  (fst a =? fst b)%Z && (snd a =? snd b)%Z.

Definition pair_leb (a b : Z * Z) : bool :=
  (fst a <? fst b)%Z || ((fst a =? fst b)%Z && (snd a <=? snd b)%Z).

Definition Zpair_eq_dec (a b : Z * Z) : {a = b} + {a <> b}.
Proof. decide equality; apply Z.eq_dec. Defined.

(** The group keys of [groupby(key)]: each key once, in ascending order. *)
Definition group_keys (keys : list Z) : list Z :=
  sort_values Z.leb (nodup Z.eq_dec keys).

Definition group_keys2 (keys : list (Z * Z)) : list (Z * Z) :=
  sort_values pair_leb (nodup Zpair_eq_dec keys).

(** Reading a two-column result frame at a key. *)
Fixpoint lookup {V : Type} (k : Z) (t : list (Z * V)) : option V :=
  match t with
  | [] => None
  | (k', v) :: tl => if (k' =? k)%Z then Some v else lookup k tl
  end.

(** ** The zone table

    The [GeoDataFrame] of zones, column by column: [ZONE_ID], the numeric
    columns by name, and the two text columns the classifiers attach.  The
    geometry column is carried through untouched by all the code below and
    is left out. *)
Record GeoDataFrame : Type := mkFrame {
  ZONE_ID : list Z;
  numeric_columns : list (string * list (option Q));
  color : option (list string);
  label : option (list string)
}.

Fixpoint get_column (name : string) (cols : list (string * list (option Q)))
  : option (list (option Q)) :=
  match cols with
  | [] => None
  | (n, c) :: tl => if String.eqb n name then Some c else get_column name tl
  end.

(** [df[name]]; a missing column is a [KeyError]. *)
Definition column (df : GeoDataFrame) (name : string) : result (list (option Q)) :=
  match get_column name (numeric_columns df) with
  | Some c => Ok c
  | None => Err (KeyError name)
  end.

(** A truth value as a count. *)
Definition b2n (b : bool) : nat := if b then 1%nat else 0%nat.

(** [range(n)] *)
Definition range (n : Z) : list Z := map Z.of_nat (seq 0 (Z.to_nat n)).

Definition Qlt_bool (a b : Q) : bool := negb (Qle_bool b a).

Module DataProcessing.

(** ** Skims *)

(** A row of a raw skim: [origin_node], [destination_node], [travel_time]. *)
Record node_row : Type := mkNodeRow {
  origin_node : Z;
  destination_node : Z;
  node_travel_time : Q
}.

(** A row of a zone-level skim. *)
Record skim_row : Type := mkSkimRow {
  origin_zone : Z;
  destination_zone : Z;
  travel_time : Q
}.

Definition zone_pair (r : skim_row) : Z * Z := (origin_zone r, destination_zone r).

(** The two columns [ZONE_ID] and [attribute] of the zone table, row by row. *)
Definition destinations_frame : Type := list (Z * option Q).

(** [_zone_df[["ZONE_ID", attribute]]]; a missing column is a [KeyError]. *)
Definition select_destinations (zone_df : GeoDataFrame) (attribute : string)
  : result destinations_frame :=
  c <- column zone_df attribute ;;
  Ok (combine (ZONE_ID zone_df) c).

(** ** calculate_accessibility (data_processing.py:316-331) *)

(** [_skim_df[_skim_df["travel_time"] <= time_limit]] *)
Definition filter_skim (skim_df : list skim_row) (time_limit : Z) : list skim_row :=
  filter (fun r => Qle_bool (travel_time r) (inject_Z time_limit)) skim_df.

(** [filtered_skim.merge(destinations, on="destination_zone", how="inner")],
    keeping the two columns the aggregation reads. *)
Definition merge_destinations (filtered_skim : list skim_row)
    (destinations : destinations_frame) : list (Z * option Q) :=
  flat_map
    (fun r =>
       map (fun d => (origin_zone r, snd d))
           (filter (fun d => (fst d =? destination_zone r)%Z) destinations))
    filtered_skim.

(** [joined.groupby("origin_zone", as_index=False)["attribute_value"].sum()] *)
Definition groupby_sum (joined : list (Z * option Q)) : list (Z * Q) :=
  map (fun o => (o, sum_skipna (map snd (filter (fun j => (fst j =? o)%Z) joined))))
      (group_keys (map fst joined)).

Definition accessibility_of (skim_df : list skim_row)
    (destinations : destinations_frame) (time_limit : Z) : list (Z * Q) :=
  groupby_sum (merge_destinations (filter_skim skim_df time_limit) destinations).

(** The function under the decorator, [calculate_accessibility.__wrapped__]:
    what a call computes when it is not answered from the cache. *)
Definition calculate_accessibility_wrapped (skim_df : list skim_row)
    (zone_df : GeoDataFrame) (time_limit : Z) (attribute : string)
  : result (list (Z * Q)) :=
  destinations <- select_destinations zone_df attribute ;;
  Ok (accessibility_of skim_df destinations time_limit).

(** The cache of [@st.cache_data(ttl=3600, show_spinner=False)].  The two
    tables are the parameters [_skim_df] and [_zone_df], and Streamlit
    leaves a parameter whose name starts with an underscore out of the
    cache key: an entry is stored under [(time_limit, attribute)] alone.
    Entries expire after an hour and [st.cache_data.clear()] drops them
    all, so the cache a call meets is an input of the model. *)
Definition accessibility_cache : Type := list ((Z * string) * list (Z * Q)).

Fixpoint cache_get (time_limit : Z) (attribute : string) (cache : accessibility_cache)
  : option (list (Z * Q)) :=
  match cache with
  | [] => None
  | ((t, a), access) :: tl =>
      if ((t =? time_limit)%Z && String.eqb a attribute)%bool then Some access
      else cache_get time_limit attribute tl
  end.

(** [calculate_accessibility] as the program calls it: a call whose
    [(time_limit, attribute)] has an entry returns that entry, whatever
    tables it is given; otherwise the body runs and its table is stored.
    An exception stores nothing. *)
Definition calculate_accessibility (cache : accessibility_cache)
    (skim_df : list skim_row) (zone_df : GeoDataFrame) (time_limit : Z)
    (attribute : string) : result (list (Z * Q)) * accessibility_cache :=
  match cache_get time_limit attribute cache with
  | Some access => (Ok access, cache)
  | None =>
      match calculate_accessibility_wrapped skim_df zone_df time_limit attribute with
      | Ok access => (Ok access, ((time_limit, attribute), access) :: cache)
      | Err e => (Err e, cache)
      end
  end.

(** What the inner merge brings to one skim row: the attribute of the
    zone rows whose [ZONE_ID] is the row's destination. *)
Definition attribute_at (destinations : destinations_frame) (dest : Z) : Q :=
  sum_skipna (map snd (filter (fun d => (fst d =? dest)%Z) destinations)).

(** The merge back onto the zone set, [zones.merge(access, on="ZONE_ID",
    how="left")] followed by [fillna(0)] (app.py:138-139): the value a
    zone ends up with. *)
Definition accessible_value (access : list (Z * Q)) (zone : Z) : Q :=
  match lookup zone access with
  | Some v => v
  | None => 0
  end.

(** The spec's reading of the result: the attribute summed over the
    destination zones that some skim row reaches from [origin] within the
    limit. *)
Definition reaches (skim_df : list skim_row) (origin : Z) (time_limit : Z)
    (dest : Z) : bool :=
  existsb (fun r => (origin_zone r =? origin)%Z && (destination_zone r =? dest)%Z
                    && Qle_bool (travel_time r) (inject_Z time_limit)) skim_df.

Definition reachable_attribute_sum (skim_df : list skim_row)
    (destinations : destinations_frame) (origin : Z) (time_limit : Z) : Q :=
  Qsum (map (fun d => if reaches skim_df origin time_limit (fst d)
                      then nan_to_zero (snd d) else 0) destinations).


(** ** The skim aggregator (data_processing.py:180-207 and 286-310) *)

(** The node mapping: [node_id] and [zone_id], row by row.  A missing
    [zone_id] (the loader only warns about those) is [None]. *)
Definition node_mapping : Type := list (Z * option Z).

(** [astype("int32")] on an integer column. *)
Definition astype_int32 (z : Z) : Z :=
  ((z + 2 ^ 31) mod 2 ^ 32 - 2 ^ 31)%Z.

(** [df.merge(node_to_zone_df[["node_id", "zone_id"]],
    left_on="origin_node", right_on="node_id")], renamed to [origin_zone]. *)
Definition merge_origin (df : list node_row) (node_to_zone_df : node_mapping)
  : list (node_row * option Z) :=
  flat_map
    (fun r =>
       map (fun e => (r, snd e))
           (filter (fun e => (fst e =? origin_node r)%Z) node_to_zone_df))
    df.

(** The same merge on [destination_node], renamed to [destination_zone]. *)
Definition merge_destination (df : list (node_row * option Z))
    (node_to_zone_df : node_mapping) : list (node_row * option Z * option Z) :=
  flat_map
    (fun r =>
       map (fun e => (r, snd e))
           (filter (fun e => (fst e =? destination_node (fst r))%Z) node_to_zone_df))
    df.

(** [dropna(subset=["origin_zone", "destination_zone"])] and the two
    [astype("int32")] casts. *)
Definition clean_zones (df : list (node_row * option Z * option Z)) : list skim_row :=
  flat_map
    (fun r =>
       match snd (fst r), snd r with
       | Some o, Some d =>
           [mkSkimRow (astype_int32 o) (astype_int32 d) (node_travel_time (fst (fst r)))]
       | _, _ => []
       end)
    df.

(** [df.groupby(["origin_zone", "destination_zone"])["travel_time"].mean()
    .reset_index()] *)
Definition groupby_mean (df : list skim_row) : list skim_row :=
  map (fun k =>
         mkSkimRow (fst k) (snd k)
           (mean (map travel_time (filter (fun r => pair_eqb (zone_pair r) k) df))))
      (group_keys2 (map zone_pair df)).

(** Lines 186-205 of [load_base_skim], which are lines 286-305 of
    [load_uploaded_skim]. *)
Definition aggregate_skim (df : list node_row) (node_to_zone_df : node_mapping)
  : list skim_row :=
  groupby_mean
    (clean_zones (merge_destination (merge_origin df node_to_zone_df) node_to_zone_df)).

(** [load_base_skim], from the point where the file has been read and
    cleaned.  The cast of the mapping's [zone_id] column to [int32] raises
    on a missing value, and the handler turns every exception into a
    [DataLoadError]. *)
Definition load_base_skim (df : list node_row) (node_to_zone_df : node_mapping)
  : result (list skim_row) :=
  if existsb (fun e => is_null (snd e)) node_to_zone_df
  then Err DataLoadError
  else
    let node_to_zone_df :=
      map (fun e => (fst e, option_map astype_int32 (snd e))) node_to_zone_df in
    Ok (aggregate_skim df node_to_zone_df).

(** [load_uploaded_skim], from the point where the uploaded file has been
    validated, read and cleaned; nothing after that point raises. *)
Definition load_uploaded_skim (df : list node_row) (node_to_zone_df : node_mapping)
  : option (list skim_row) :=
  Some (aggregate_skim df node_to_zone_df).

(** The spec's reading of the mapper: the zone a node translates to. *)
Definition node_zone (node_to_zone_df : node_mapping) (node : Z) : option Z :=
  match find (fun e => (fst e =? node)%Z) node_to_zone_df with
  | Some (_, Some z) => Some (astype_int32 z)
  | _ => None
  end.

(** The raw travel times whose two endpoints translate to the zone pair. *)
Definition raw_times_of_pair (df : list node_row) (node_to_zone_df : node_mapping)
    (pair : Z * Z) : list Q :=
  map node_travel_time
      (filter (fun r =>
                 match node_zone node_to_zone_df (origin_node r),
                       node_zone node_to_zone_df (destination_node r) with
                 | Some o, Some d => pair_eqb (o, d) pair
                 | _, _ => false
                 end) df).

(** The raw rows as the spec translates them: each row whose two
    endpoints translate, under its pair of zones. *)
Definition zone_rows (df : list node_row) (node_to_zone_df : node_mapping)
  : list skim_row :=
  flat_map
    (fun r =>
       match node_zone node_to_zone_df (origin_node r),
             node_zone node_to_zone_df (destination_node r) with
       | Some o, Some d => [mkSkimRow o d (node_travel_time r)]
       | _, _ => []
       end) df.

(** What the spec asks of the aggregated skim: one row per pair of zones,
    one for each pair some raw row translates to, carrying the mean of the
    raw travel times of that pair. *)
Definition zone_level_mean (df : list node_row) (node_to_zone_df : node_mapping)
    (skim : list skim_row) : Prop :=
  NoDup (map zone_pair skim)
  /\ (forall row, In row skim ->
        raw_times_of_pair df node_to_zone_df (zone_pair row) <> []
        /\ travel_time row == mean (raw_times_of_pair df node_to_zone_df (zone_pair row)))
  /\ (forall pair, raw_times_of_pair df node_to_zone_df pair <> [] ->
        In pair (map zone_pair skim)).

(** A node is absent from the mapping when no row of it names the node. *)
Definition unmapped (node_to_zone_df : node_mapping) (node : Z) : Prop :=
  ~ In node (map fst node_to_zone_df).

(** ** calculate_time_band_accessibility (data_processing.py:333-353) *)

(** The key [f"zones_{lower_limit}_{upper_limit}"]. *)
Definition band_name (lower_limit upper_limit : Z) : string :=
  ("zones_" ++ py_str lower_limit ++ "_" ++ py_str upper_limit)%string.

(** The dictionary [time_bands], in the order of insertion. *)
Definition band_dict : Type := list (string * list (Z * Z)).

(** [d[key] = v] *)
Fixpoint dict_set {V : Type} (key : string) (v : V) (d : list (string * V))
  : list (string * V) :=
  match d with
  | [] => [(key, v)]
  | (k, v') :: tl =>
      if String.eqb k key then (k, v) :: tl else (k, v') :: dict_set key v tl
  end.

Definition in_band (lower_limit upper_limit : Z) (r : skim_row) : bool :=
  Qlt_bool (inject_Z lower_limit) (travel_time r)
  && Qle_bool (travel_time r) (inject_Z upper_limit).

(** [band_skim.groupby("origin_zone", as_index=False).size()] *)
Definition groupby_size (band_skim : list skim_row) : list (Z * Z) :=
  map (fun o =>
         (o, Z.of_nat (List.length (filter (fun r => (origin_zone r =? o)%Z) band_skim))))
      (group_keys (map origin_zone band_skim)).

Definition band_limits (time_band : Z) (i : Z) : Z * Z :=
  let upper_limit := (i * time_band)%Z in
  let lower_limit := if (1 <? i)%Z then ((i - 1) * time_band)%Z else 0%Z in
  (lower_limit, upper_limit).

Definition calculate_time_band_accessibility (skim_df : list skim_row) (time_band : Z)
  : band_dict :=
  let skim_sorted :=
    sort_values (fun a b => Qle_bool (travel_time a) (travel_time b)) skim_df in
  fold_left
    (fun time_bands i =>
       let '(lower_limit, upper_limit) := band_limits time_band i in
       let band_skim := filter (in_band lower_limit upper_limit) skim_sorted in
       let band_access := groupby_size band_skim in
       dict_set (band_name lower_limit upper_limit) band_access time_bands)
    [1; 2; 3; 4; 5]%Z [].

(** The merge of a band column onto the zone set with [fillna(0)]
    (app.py:114-116): the count a zone ends up with. *)
Definition band_count (band_access : list (Z * Z)) (zone : Z) : Z :=
  match lookup zone band_access with
  | Some c => c
  | None => 0%Z
  end.

(** The table the loop builds for one pair of limits. *)
Definition band_table (skim_df : list skim_row) (lower_limit upper_limit : Z)
  : list (Z * Z) :=
  groupby_size
    (filter (in_band lower_limit upper_limit)
            (sort_values (fun a b => Qle_bool (travel_time a) (travel_time b)) skim_df)).

(** The five band columns of a zone added up. *)
Definition band_total (time_bands : band_dict) (zone : Z) : Z :=
  fold_right Z.add 0%Z (map (fun e => band_count (snd e) zone) time_bands).

(** The spec's reading of a band: the distinct destination zones reached
    from [origin] with a travel time in the half-open interval. *)
Definition band_destinations (skim_df : list skim_row) (origin : Z)
    (lower_limit upper_limit : Z) : list Z :=
  nodup Z.eq_dec
    (map destination_zone
         (filter (fun r => (origin_zone r =? origin)%Z && in_band lower_limit upper_limit r)
                 skim_df)).

(** The spec's reading of a threshold: the distinct destination zones
    reached from [origin] in at most [time_limit] minutes. *)
Definition destinations_within (skim_df : list skim_row) (origin : Z)
    (time_limit : Z) : list Z :=
  nodup Z.eq_dec
    (map destination_zone
         (filter (fun r => (origin_zone r =? origin)%Z
                           && Qle_bool (travel_time r) (inject_Z time_limit))
                 skim_df)).

End DataProcessing.

Module MapUtils.

Local Open Scope string_scope.

(** ** Colour schemes (map_utils.py:17-41) *)

Definition scheme_dict : Type := list (string * string).

Fixpoint scheme_get (key : string) (d : scheme_dict) : option string :=
  match d with
  | [] => None
  | (k, v) :: tl => if String.eqb k key then Some v else scheme_get key tl
  end.

Fixpoint scheme_set (key value : string) (d : scheme_dict) : scheme_dict :=
  match d with
  | [] => [(key, value)]
  | (k, v) :: tl =>
      if String.eqb k key then (k, value) :: tl else (k, v) :: scheme_set key value tl
  end.

(** [key in d] *)
Definition has_key (key : string) (d : scheme_dict) : Prop :=
  exists v, scheme_get key d = Some v.

(** [scheme[key]] *)
Definition scheme_item (d : scheme_dict) (key : string) : result string :=
  match scheme_get key d with
  | Some v => Ok v
  | None => Err (KeyError key)
  end.

Definition DEFAULT_TIME_MAPPING_SCHEME : scheme_dict :=
  [("0_15", "#e3f2fd"); ("15_30", "#90caf9"); ("30_45", "#42a5f5");
   ("45_60", "#1976d2"); ("60_plus", "#0d47a1")].

Definition required_keys : list string :=
  ["0_15"; "15_30"; "30_45"; "45_60"; "60_plus"].

Definition default_color (key : string) : string :=
  match scheme_get key DEFAULT_TIME_MAPPING_SCHEME with
  | Some v => v
  | None => ""
  end.

(** [ensure_time_mapping_keys] on a dictionary of strings. *)
Definition ensure_time_mapping_keys (color_scheme : scheme_dict) : scheme_dict :=
  let merged :=
    fold_left (fun m kv => scheme_set (fst kv) (snd kv) m)
              color_scheme DEFAULT_TIME_MAPPING_SCHEME in
  fold_left
    (fun m req =>
       match scheme_get req m with
       | Some v => if String.eqb v "" then scheme_set req (default_color req) m else m
       | None => scheme_set req (default_color req) m
       end)
    required_keys merged.

(** ** nice_number (map_utils.py:43-48) *)

Fixpoint ilog10_fuel (fuel : nat) (n : Z) : Z :=
  match fuel with
  | O => 0%Z
  | S f => if (n <? 10)%Z then 0%Z else (1 + ilog10_fuel f (n / 10))%Z
  end.

(** The largest [d] with [10 ^ d <= n], for [1 <= n]. *)
Definition ilog10 (n : Z) : Z := ilog10_fuel (S (Z.to_nat (Z.log2 n))) n.

(** [int(math.log10(a))] for [0 < a]: the logarithm truncated toward
    zero. *)
Definition int_log10 (a : Q) : Z :=
  if Qle_bool 1 a then ilog10 (Qfloor a) else (- ilog10 (Qfloor (/ a)))%Z.

Definition magnitude (x : Q) (round_to : Z) : Z :=
  (10 ^ Z.max 0 (int_log10 (Qabs x) - (round_to - 1)))%Z.

Definition nice_number (x : Q) (round_to : Z) : Z :=
  if Qeq_bool x 0 then 0%Z
  else
    let magnitude := magnitude x round_to in
    (py_round (x / inject_Z magnitude) * magnitude)%Z.

(** ** get_color_scale (map_utils.py:50-68) *)

Definition palettes (k : Z) : list string :=
  match k with
  | 9%Z => ["#ffffcc";"#ffeda0";"#fed976";"#feb24c";"#fd8d3c";"#fc4e2a";"#e31a1c";"#bd0026";"#800026"]
  | 8%Z => ["#ffffcc";"#ffeda0";"#fed976";"#feb24c";"#fd8d3c";"#fc4e2a";"#e31a1c";"#bd0026"]
  | 7%Z => ["#ffffcc";"#ffeda0";"#fed976";"#feb24c";"#fd8d3c";"#fc4e2a";"#e31a1c"]
  | 6%Z => ["#ffffcc";"#ffeda0";"#fed976";"#feb24c";"#fd8d3c";"#fc4e2a"]
  | 5%Z => ["#ffffcc";"#ffeda0";"#fed976";"#feb24c";"#fd8d3c"]
  | 4%Z => ["#ffffcc";"#ffeda0";"#feb24c";"#fd8d3c"]
  | 3%Z => ["#ffffcc";"#feb24c";"#fd8d3c"]
  | 2%Z => ["#ffffcc";"#fd8d3c"]
  | 1%Z => ["#fd8d3c"]
  | _ => []
  end.

Definition get_color_scale (n : Z) : list string :=
  match find (fun k => (k <=? n)%Z) [9; 8; 7; 6; 5; 4; 3; 2; 1]%Z with
  | Some k =>
      let idxs :=
        if (1 <? n)%Z
        then map (fun i => py_round (inject_Z (i * (k - 1)) / inject_Z (n - 1))) (range n)
        else [0%Z] in
      map (fun i => nth (Z.to_nat i) (palettes k) "") idxs
  | None => repeat "#fd8d3c" (Z.to_nat n)
  end.

(** ** Quantile bins *)

(** [Series.quantile(q)] with linear interpolation, on the sorted values. *)
Definition quantile (values : list Q) (q : Q) : Q :=
  let n := Z.of_nat (List.length values) in
  let pos := q * inject_Z (n - 1) in
  let lo := Qfloor pos in
  let hi := Z.min (lo + 1) (n - 1) in
  let a := nth (Z.to_nat lo) values 0%Q in
  let b := nth (Z.to_nat hi) values 0%Q in
  (a + (b - a) * (pos - inject_Z lo))%Q.

(** The loop [for i in range(1, len(bins)): if bins[i] <= bins[i-1]:
    bins[i] = bins[i-1] + 1], on integer edges. *)
Fixpoint bump_from (prev : Z) (rest : list Z) : list Z :=
  match rest with
  | [] => []
  | b :: tl =>
      let b' := if (b <=? prev)%Z then (prev + 1)%Z else b in
      b' :: bump_from b' tl
  end.

Definition force_increasing (bins : list Z) : list Z :=
  match bins with
  | [] => []
  | b :: tl => b :: bump_from b tl
  end.

(** The same loop on real edges. *)
Fixpoint bump_fromQ (prev : Q) (rest : list Q) : list Q :=
  match rest with
  | [] => []
  | b :: tl =>
      let b' := if Qle_bool b prev then (prev + 1)%Q else b in
      b' :: bump_fromQ b' tl
  end.

Definition force_increasingQ (bins : list Q) : list Q :=
  match bins with
  | [] => []
  | b :: tl => b :: bump_fromQ b tl
  end.

(** The membership test of bin [i] in [assign_color] and [assign_label]:
    closed below and open above, except the last bin, which has no upper
    end. *)
Definition bin_test (bin_edges : list Q) (n_bins : Z) (val : Q) (i : Z) : bool :=
  if (i =? n_bins - 1)%Z
  then Qle_bool (nth (Z.to_nat i) bin_edges 0%Q) val
  else Qle_bool (nth (Z.to_nat i) bin_edges 0%Q) val
       && Qlt_bool val (nth (Z.to_nat (i + 1)) bin_edges 0%Q).

(** The bin the loop [for i in range(n_bins)] returns from, if any. *)
Definition first_bin (bin_edges : list Q) (n_bins : Z) (val : Q) : option Z :=
  find (bin_test bin_edges n_bins val) (range n_bins).

Definition NO_ACCESS_COLOR : string := "#f0f0f0".
Definition NO_ACCESS_LABEL : string := "No Access".

(** [pd.isna(val) or val == 0] *)
Definition no_access (val : option Q) : bool :=
  match val with
  | None => true
  | Some v => Qeq_bool v 0
  end.

(** ** assign_colors_to_zones (map_utils.py:107-163) *)

Section VariantA.
(** [format_attribute_value] on an integer edge: thousands-separated
    digits, by the attribute's metadata or by default.  The text it
    prints does not matter below and is left open. *)
Variable format_attribute_value : Z -> string -> string.

(** [min(max(4, int(math.ceil(math.log2(len(values) + 1)))), 7)
    if len(values) > 0 else 5] *)
Definition bin_count (values : list Q) : Z :=
  match values with
  | [] => 5%Z
  | _ => Z.min (Z.max 4 (Z.log2_up (Z.of_nat (List.length values) + 1))) 7
  end.

Definition compute_bins (values : list Q) (n_bins : Z) : list Z :=
  match values with
  | [] =>
      firstn (Z.to_nat (n_bins + 1))
             [0; 500000; 2000000; 4500000; 6000000; 10000000]%Z
  | _ =>
      let quantiles := map (fun i => (inject_Z i / inject_Z n_bins)%Q) (range (n_bins + 1)) in
      let bins := map (quantile values) quantiles in
      let bins := map (fun b => nice_number b 3) bins in
      force_increasing bins
  end.

Definition assign_color (bin_edges : list Z) (n_bins : Z) (color_list : list string)
    (val : option Q) : string :=
  match val with
  | None => NO_ACCESS_COLOR
  | Some v =>
      if Qeq_bool v 0 then NO_ACCESS_COLOR
      else
        match first_bin (map inject_Z bin_edges) n_bins v with
        | Some i => nth (Z.to_nat i) color_list ""
        | None => last color_list ""
        end
  end.

Definition assign_label (bin_edges : list Z) (n_bins : Z) (attribute_name : string)
    (val : option Q) : string :=
  match val with
  | None => NO_ACCESS_LABEL
  | Some v =>
      if Qeq_bool v 0 then NO_ACCESS_LABEL
      else
        let edge i := format_attribute_value (nth (Z.to_nat i) bin_edges 0%Z) attribute_name in
        match first_bin (map inject_Z bin_edges) n_bins v with
        | Some i =>
            if (i =? n_bins - 1)%Z then edge i ++ "+"
            else edge i ++ " - " ++ edge (i + 1)%Z
        | None => "0 - " ++ edge 1%Z
        end
  end.

Definition assign_colors_to_zones (zones : GeoDataFrame) (col : string)
    (attribute_name : string) : result (GeoDataFrame * list Z * list string) :=
  cells <- column zones col ;;
  let values := sort_values Qle_bool (dropna cells) in
  let n_bins := bin_count values in
  let bins := compute_bins values n_bins in
  let color_list := get_color_scale n_bins in
  let zones :=
    mkFrame (ZONE_ID zones) (numeric_columns zones)
            (Some (map (assign_color bins n_bins color_list) cells))
            (Some (map (assign_label bins n_bins attribute_name) cells)) in
  Ok (zones, bins, color_list).
End VariantA.

(** ** assign_time_mapping_colors (map_utils.py:165-221) *)

Definition class_label (i : Z) : string :=
  match i with
  | 0%Z => "Class 1"
  | 1%Z => "Class 2"
  | 2%Z => "Class 3"
  | 3%Z => "Class 4"
  | _ => "Class 5"
  end.

Definition assign_class_color (bins : list Q) (colors : list string) (val : option Q)
  : string :=
  match val with
  | None => NO_ACCESS_COLOR
  | Some v =>
      if Qeq_bool v 0 then NO_ACCESS_COLOR
      else
        match first_bin bins 5 v with
        | Some i => nth (Z.to_nat i) colors ""
        | None => nth 0 colors ""
        end
  end.

Definition assign_class_label (bins : list Q) (val : option Q) : string :=
  match val with
  | None => NO_ACCESS_LABEL
  | Some v =>
      if Qeq_bool v 0 then NO_ACCESS_LABEL
      else
        match first_bin bins 5 v with
        | Some i => class_label i
        | None => "Class 1"
        end
  end.

Definition class_quantiles : list Q := [0; 1 # 5; 2 # 5; 3 # 5; 4 # 5; 1]%Q.

Definition assign_time_mapping_colors (zones_df : GeoDataFrame) (total_col : string)
    (color_scheme : scheme_dict) : result (GeoDataFrame * list Q * list string) :=
  cells <- column zones_df total_col ;;
  let values := sort_values Qle_bool (dropna cells) in
  let scheme := ensure_time_mapping_keys color_scheme in
  match values with
  | [] => Ok (zones_df, [], [])
  | _ =>
      let bins := force_increasingQ (map (quantile values) class_quantiles) in
      c0 <- scheme_item scheme "60_plus" ;;
      c1 <- scheme_item scheme "45_60" ;;
      c2 <- scheme_item scheme "30_45" ;;
      c3 <- scheme_item scheme "15_30" ;;
      c4 <- scheme_item scheme "0_15" ;;
      let colors := [c0; c1; c2; c3; c4] in
      let zones_df :=
        mkFrame (ZONE_ID zones_df) (numeric_columns zones_df)
                (Some (map (assign_class_color bins colors) cells))
                (Some (map (assign_class_label bins) cells)) in
      Ok (zones_df, bins, colors)
  end.


(** ** color_zones_by_origin_travel_time (map_utils.py:223-321) *)

(** [l[i]] with Python's negative indices. *)
Definition py_index {A : Type} (l : list A) (i : Z) : result A :=
  let n := Z.of_nat (List.length l) in
  let j := if (i <? 0)%Z then (i + n)%Z else i in
  if ((0 <=? j)%Z && (j <? n)%Z)%bool
  then match nth_error l (Z.to_nat j) with
       | Some a => Ok a
       | None => Err IndexError
       end
  else Err IndexError.

(** Rows of the left frame are repeated once per matching right row. *)
Definition repeat_rows {A : Type} (counts : list nat) (col : list A) : list A :=
  flat_map (fun p => repeat (snd p) (fst p)) (combine counts col).

Definition has_column (df : GeoDataFrame) (name : string) : bool :=
  negb (is_null (get_column name (numeric_columns df))).

Definition NO_DATA_COLOR : string := "#808080".
Definition NO_DATA_LABEL : string := "No data".

Section VariantC.
(** [f"{x:.0f}"] *)
Variable format_0f : Q -> string.
(** [generate_dynamic_color_palette] (map_utils.py:323-381).  It divides
    by the number of classes and reads the scheme's colours with
    [int(_, 16)], so it can raise ([ZeroDivisionError], [ValueError]); it
    is called inside the guarded block, and what it returns is left
    open. *)
Variable generate_dynamic_color_palette : scheme_dict -> Z -> result (list string).

(** [zones_df.merge(times, left_on="ZONE_ID", right_on="destination_zone",
    how="left")].  The frame must not already carry a column named
    [destination_zone]; one named [travel_time] makes the merge rename
    both, so that [merged["travel_time"]] is a [KeyError]. *)
Definition merge_times (zones_df : GeoDataFrame) (times : list (Z * Q))
  : result GeoDataFrame :=
  if has_column zones_df "travel_time" then Err (KeyError "travel_time")
  else
    let matches z := filter (fun t => (fst t =? z)%Z) times in
    let counts := map (fun z => Nat.max 1 (List.length (matches z))) (ZONE_ID zones_df) in
    let right (f : Z * Q -> Q) :=
      flat_map (fun z => match matches z with
                         | [] => [None]
                         | ms => map (fun t => Some (f t)) ms
                         end) (ZONE_ID zones_df) in
    Ok (mkFrame
          (repeat_rows counts (ZONE_ID zones_df))
          (map (fun c => (fst c, repeat_rows counts (snd c))) (numeric_columns zones_df)
             ++ [("destination_zone", right (fun t => inject_Z (fst t)));
                 ("travel_time", right snd)])
          (option_map (repeat_rows counts) (color zones_df))
          (option_map (repeat_rows counts) (label zones_df))).

(** [merged["color"] = c; merged["label"] = l] with scalars. *)
Definition paint_all (merged : GeoDataFrame) (c l : string) : GeoDataFrame :=
  let n := List.length (ZONE_ID merged) in
  mkFrame (ZONE_ID merged) (numeric_columns merged)
          (Some (repeat c n)) (Some (repeat l n)).

Definition Qmin_list (a : Q) (l : list Q) : Q :=
  fold_left (fun m x => if Qle_bool m x then m else x) l a.

Definition Qmax_list (a : Q) (l : list Q) : Q :=
  fold_left (fun m x => if Qle_bool x m then m else x) l a.

(** [int(max_time / time_band)]: the quotient of a numpy float by zero
    is infinite or NaN, which [int] refuses. *)
Definition int_quotient (max_time : Q) (time_band : Z) : result Z :=
  if (time_band =? 0)%Z
  then Err (if Qeq_bool max_time 0 then ValueError else OverflowError)
  else Ok (py_int (max_time / inject_Z time_band)).

(** The loop that collects [i * time_band] until it reaches [max_time]. *)
Fixpoint boundaries_from (fuel : nat) (i : Z) (time_band : Z) (max_time : Q)
  : list Z :=
  match fuel with
  | O => []
  | S f =>
      let boundary := (i * time_band)%Z in
      boundary ::
        (if Qle_bool max_time (inject_Z boundary) then []
         else boundaries_from f (i + 1)%Z time_band max_time)
  end.

Definition get_time_band_color_and_label (time_boundaries : list Z)
    (colors : list string) (t : option Q) : result (string * string) :=
  match t with
  | None => Ok (NO_DATA_COLOR, NO_DATA_LABEL)
  | Some t =>
      let n := Z.of_nat (List.length time_boundaries) in
      let class_idx :=
        match find (fun i => Qle_bool t (inject_Z (nth (Z.to_nat (i + 1)) time_boundaries 0%Z)))
                   (range (n - 1)) with
        | Some i => i
        | None => (n - 2)%Z
        end in
      start_time <- py_index time_boundaries class_idx ;;
      end_time <- py_index time_boundaries (class_idx + 1)%Z ;;
      let label :=
        if (class_idx =? n - 2)%Z
        then format_0f (inject_Z start_time) ++ "+ min"
        else format_0f (inject_Z start_time) ++ "-" ++ format_0f (inject_Z end_time) ++ " min" in
      c <- py_index colors class_idx ;;
      Ok (c, label)
  end.

(** The body of the [try] block. *)
Definition color_zones_try (zones_df : GeoDataFrame) (skim_df : list DataProcessing.skim_row)
    (origin_zone : Z) (time_band : Z) (color_scheme : scheme_dict)
  : result GeoDataFrame :=
  let scheme := ensure_time_mapping_keys color_scheme in
  let times :=
    map (fun r => (DataProcessing.destination_zone r, DataProcessing.travel_time r))
        (filter (fun r => (DataProcessing.origin_zone r =? origin_zone)%Z) skim_df) in
  merged <- merge_times zones_df times ;;
  travel_times <- column merged "travel_time" ;;
  match dropna travel_times with
  | [] => Ok (paint_all merged NO_DATA_COLOR NO_DATA_LABEL)
  | t0 :: ts =>
      let min_time := Qmin_list t0 ts in
      let max_time := Qmax_list t0 ts in
      let time_range := (max_time - min_time)%Q in
      if Qle_bool time_range 0
      then
        darkest <- scheme_item scheme "60_plus" ;;
        Ok (paint_all merged darkest (format_0f min_time ++ " min"))
      else
        q <- int_quotient max_time time_band ;;
        let max_intervals := (q + 1)%Z in
        let time_boundaries :=
          boundaries_from (Z.to_nat (max_intervals + 1)) 0%Z time_band max_time in
        final <- py_index time_boundaries (-1)%Z ;;
        let time_boundaries :=
          if Qlt_bool (inject_Z final) max_time
          then (time_boundaries ++ [(final + time_band)%Z])%list
          else time_boundaries in
        let num_classes := (Z.of_nat (List.length time_boundaries) - 1)%Z in
        colors <- generate_dynamic_color_palette scheme num_classes ;;
        color_label_pairs <-
          mapM (get_time_band_color_and_label time_boundaries colors) travel_times ;;
        Ok (mkFrame (ZONE_ID merged) (numeric_columns merged)
                    (Some (map fst color_label_pairs))
                    (Some (map snd color_label_pairs)))
  end.

(** [try: ... except Exception as e: ... return zones_df] *)
Definition color_zones_by_origin_travel_time (zones_df : GeoDataFrame)
    (skim_df : list DataProcessing.skim_row) (origin_zone : Z) (time_band : Z)
    (color_scheme : scheme_dict) : GeoDataFrame :=
  match color_zones_try zones_df skim_df origin_zone time_band color_scheme with
  | Ok merged => merged
  | Err _ => zones_df
  end.
End VariantC.

(** ** What the spec asks of a classification *)

(** Every zone whose cell is null or zero carries the neutral colour and
    the "No Access" label. *)
Definition painted_no_access (cells : list (option Q)) (zones : GeoDataFrame) : Prop :=
  exists colors labels,
    color zones = Some colors /\ label zones = Some labels
    /\ forall i val,
        nth_error cells i = Some val -> no_access val = true ->
        nth_error colors i = Some "#f0f0f0" /\ nth_error labels i = Some "No Access".

Definition at_most_one_bin (bin_edges : list Q) (n_bins : Z) (val : Q) : Prop :=
  forall i j,
    (0 <= i < n_bins)%Z -> (0 <= j < n_bins)%Z ->
    bin_test bin_edges n_bins val i = true -> bin_test bin_edges n_bins val j = true ->
    i = j.

Definition exactly_one_bin (bin_edges : list Q) (n_bins : Z) (val : Q) : Prop :=
  exists i,
    (0 <= i < n_bins)%Z /\ bin_test bin_edges n_bins val i = true
    /\ forall j, (0 <= j < n_bins)%Z -> bin_test bin_edges n_bins val j = true -> j = i.

(** An edge, as the membership tests read it, is a whole number. *)
Definition whole (edge : Q) : Prop := inject_Z (Qfloor edge) = edge.

End MapUtils.

(** ** More of data_processing.py and its caller *)

Module DataCleaning.
Import DataProcessing.

(** [Series.clip(lower=0)] on a cell: a NaN stays a NaN. *)
Definition clip_lower_0 (c : option Q) : option Q :=
  option_map (fun v => if Qle_bool 0 v then v else 0) c.

(** The dtype of a numeric column of the zone table.  The table record
    carries none, so the cleaning takes them by column name. *)
Inductive dtype : Type :=
| int32
| int64
| float32
| float64
| other_dtype.

(** [select_dtypes(include=['int64', 'float64'])] *)
Definition selected (d : dtype) : bool :=
  match d with
  | int64 | float64 => true
  | _ => false
  end.

(** [validate_and_clean_data] (data_processing.py:49-83), as far as the
    table it returns goes: every column of dtype int64 or float64 other
    than [ZONE_ID] has its negative values replaced by 0; a column of
    another dtype is left as it is.  The outlier counts only feed the
    log. *)
Definition validate_and_clean_data (dtypes : string -> dtype) (zones_df : GeoDataFrame)
  : GeoDataFrame :=
  mkFrame (ZONE_ID zones_df)
          (map (fun c =>
                  if selected (dtypes (fst c))
                  then if String.eqb (fst c) "ZONE_ID" then c
                       else (fst c, map clip_lower_0 (snd c))
                  else c)
               (numeric_columns zones_df))
          (color zones_df) (label zones_df).

(** [zones[selected_attribute].sum()] (app.py:142) *)
Definition total_attribute (cells : list (option Q)) : Q := sum_skipna cells.

(** A cell of [access_A_pct]: a rounded percentage, or what the division
    of a float by zero leaves, which [round] keeps. *)
Inductive percentage : Type :=
| Percent (p : Z)
| NotANumber
| Infinite (negative : bool).

(** [(zones["access_A"] / total_attribute * 100).round(0)] (app.py:143),
    at one zone. *)
Definition access_pct (access_value total : Q) : percentage :=
  if Qeq_bool total 0
  then if Qeq_bool access_value 0 then NotANumber
       else Infinite (negb (Qle_bool 0 access_value))
  else Percent (py_round (access_value / total * 100)).

(** [zones["delta"] = zones["access_B"] - zones["access_A"]] (app.py:155),
    at one zone. *)
Definition delta (access_a access_b : list (Z * Q)) (zone : Z) : Q :=
  accessible_value access_b zone - accessible_value access_a zone.

(** The order of the rows [groupby] returns for two keys. *)
Definition pair_lt (a b : Z * Z) : Prop :=
  (fst a < fst b)%Z \/ (fst a = fst b /\ (snd a < snd b)%Z).

(** The range of [int32]. *)
Definition in_int32 (z : Z) : Prop := (- 2 ^ 31 <= z < 2 ^ 31)%Z.

(** The outcome of [validate_dataframe]: [True], or a [ValidationError]
    whose message names the table and lists the missing columns. *)
Inductive validation : Type :=
| Valid
| ValidationError (name : string) (missing_cols : list string).

(** [validate_dataframe] (data_processing.py:31-36), on [df.columns]. *)
Definition validate_dataframe (columns : list string) (required_columns : list string)
    (name : string) : validation :=
  let missing_cols :=
    filter (fun col => negb (existsb (String.eqb col) columns)) required_columns in
  match missing_cols with
  | [] => Valid
  | _ => ValidationError name missing_cols
  end.

End DataCleaning.

(** ** More of map_utils.py *)

Module MapColors.
Import MapUtils.
Local Open Scope string_scope.

(** [get_time_color] (map_utils.py:86-105) *)
Definition get_time_color (minutes : option Q) (time_band : Z) (color_scheme : scheme_dict)
  : result string :=
  match minutes with
  | None => Ok "#808080"
  | Some minutes =>
      let scheme := ensure_time_mapping_keys color_scheme in
      if Qle_bool minutes (inject_Z time_band) then scheme_item scheme "60_plus"
      else if Qle_bool minutes (inject_Z (time_band * 2)) then scheme_item scheme "45_60"
      else if Qle_bool minutes (inject_Z (time_band * 3)) then scheme_item scheme "30_45"
      else if Qle_bool minutes (inject_Z (time_band * 4)) then scheme_item scheme "15_30"
      else scheme_item scheme "0_15"
  end.

(** [f"{z:02x}"]: lower-case hexadecimal digits, a sign when negative,
    padded with a zero to two characters. *)
Definition format_02x (z : Z) : string :=
  let digits := HexadecimalString.NilEmpty.string_of_int (Z.to_hex_int z) in
  if ((0 <=? z)%Z && (z <? 16)%Z)%bool then "0" ++ digits else digits.

(** [rgb_to_hex] (map_utils.py:345-346) *)
Definition rgb_to_hex (rgb : Z * Z * Z) : string :=
  "#" ++ format_02x (fst (fst rgb)) ++ format_02x (snd (fst rgb)) ++ format_02x (snd rgb).

Section Palette.
(** [hex_to_rgb] (map_utils.py:341-343): it strips the leading '#' and
    reads three pairs of characters with [int(_, 16)], raising a
    [ValueError] on what that does not accept.  Which strings it accepts
    is left open. *)
Variable hex_to_rgb : string -> result (Z * Z * Z).

(** One colour of the gradient, for class [i] of [num_classes].  The
    code computes [pos], [t] and the mix in binary floats and truncates;
    here they are exact rationals, so a channel of a colour between the
    two ends can differ by one from the code's.  At the two ends [pos] is
    exactly 0 and 4 in both. *)
Definition gradient_color (rgb_colors : list (Z * Z * Z)) (num_classes : Z) (i : Z)
  : result string :=
  let pos := (inject_Z (i * (Z.of_nat (List.length rgb_colors) - 1))
              / inject_Z (num_classes - 1))%Q in
  let lower_idx := py_int pos in
  let upper_idx := Z.min (lower_idx + 1) (Z.of_nat (List.length rgb_colors) - 1) in
  if (lower_idx =? upper_idx)%Z
  then
    lower_rgb <- py_index rgb_colors lower_idx ;;
    Ok (rgb_to_hex lower_rgb)
  else
    let t := (pos - inject_Z lower_idx)%Q in
    lower_rgb <- py_index rgb_colors lower_idx ;;
    upper_rgb <- py_index rgb_colors upper_idx ;;
    let mix (lo up : Z) := py_int (inject_Z lo + t * (inject_Z up - inject_Z lo))%Q in
    Ok (rgb_to_hex (mix (fst (fst lower_rgb)) (fst (fst upper_rgb)),
                    mix (snd (fst lower_rgb)) (snd (fst upper_rgb)),
                    mix (snd lower_rgb) (snd upper_rgb))).

(** [generate_dynamic_color_palette] (map_utils.py:323-381) *)
Definition generate_dynamic_color_palette (base_scheme : scheme_dict) (num_classes : Z)
  : result (list string) :=
  c0 <- scheme_item base_scheme "60_plus" ;;
  c1 <- scheme_item base_scheme "45_60" ;;
  c2 <- scheme_item base_scheme "30_45" ;;
  c3 <- scheme_item base_scheme "15_30" ;;
  c4 <- scheme_item base_scheme "0_15" ;;
  let base_colors := [c0; c1; c2; c3; c4] in
  if (num_classes <=? Z.of_nat (List.length base_colors))%Z
  then
    if (num_classes =? 0)%Z then Err ZeroDivisionError
    else
      let step := (inject_Z (Z.of_nat (List.length base_colors)) / inject_Z num_classes)%Q in
      let indices := map (fun i => py_int (inject_Z i * step)%Q) (range num_classes) in
      mapM (py_index base_colors) indices
  else
    rgb_colors <- mapM hex_to_rgb base_colors ;;
    mapM (gradient_color rgb_colors num_classes) (range num_classes).
End Palette.

(** The scheme key whose colour [get_time_color] gives band [i]. *)
Definition band_key (i : Z) : string :=
  match i with
  | 1%Z => "60_plus"
  | 2%Z => "45_60"
  | 3%Z => "30_45"
  | 4%Z => "15_30"
  | _ => "0_15"
  end.

(** What the loop over the required keys leaves under a key. *)
Definition filled (key : string) (found : option string) : string :=
  match found with
  | Some v => if String.eqb v "" then default_color key else v
  | None => default_color key
  end.

(** The rows [color_zones_by_origin_travel_time] keeps of the skim:
    [skim_df[skim_df["origin_zone"] == origin_zone][["destination_zone",
    "travel_time"]]]. *)
Definition origin_times (skim_df : list DataProcessing.skim_row) (origin_zone : Z)
  : list (Z * Q) :=
  map (fun r => (DataProcessing.destination_zone r, DataProcessing.travel_time r))
      (filter (fun r => (DataProcessing.origin_zone r =? origin_zone)%Z) skim_df).

(** The [travel_time] column of the left merge: for each zone the times
    of its rows, or one null when it has none. *)
Definition joined_times (zone_ids : list Z) (times : list (Z * Q)) : list (option Q) :=
  flat_map (fun z => match filter (fun t => (fst t =? z)%Z) times with
                     | [] => [None]
                     | ms => map (fun t => Some (snd t)) ms
                     end) zone_ids.

(** The class of a travel time: class [c] holds the times above
    [c * time_band] and up to [(c + 1) * time_band], and class 0 those at or
    below 0 as well. *)
Definition time_class (time_band : Z) (t : Q) : Z :=
  Z.max 0 (Qceiling (t / inject_Z time_band) - 1).

(** What a caller can ask of a list of colours: each is one of [pool]. *)
Definition drawn_from (pool colors : list string) : Prop :=
  Forall (fun c => In c pool) colors.

End MapColors.

(** ** The scenarios of the specification *)

(** ** The band columns of the zone table (app.py:106-132) *)

Module TimeMapping.
Import DataProcessing.
Local Open Scope string_scope.









End TimeMapping.

Module Scenarios.
Import DataProcessing.
Local Open Scope string_scope.

Definition skim3 : list skim_row :=
  [mkSkimRow 1 2 10; mkSkimRow 1 3 20; mkSkimRow 2 1 10].

Definition zones3 : GeoDataFrame :=
  mkFrame [1; 2; 3]%Z [("jobs", [Some 100; Some 200; Some 300])] None None.

Definition skim_origin5 : list skim_row :=
  [mkSkimRow 5 1 10; mkSkimRow 5 2 15; mkSkimRow 5 3 16; mkSkimRow 5 4 40].

(** A column with zeros and one outlier. *)
Definition zones_outlier : GeoDataFrame :=
  mkFrame [1; 2; 3; 4; 5; 6]%Z
          [("access_A", [Some 0; Some 0; Some 5; Some 10; Some 15; Some 1000000])]
          None None.

(** A column whose only value rounds up. *)
Definition zones_1006 : GeoDataFrame :=
  mkFrame [1]%Z [("access_A", [Some 1006])] None None.

(** A column without a value. *)
Definition zones_all_null : GeoDataFrame :=
  mkFrame [1]%Z [("total_zones_15", [None])] None None.

(** Plain instances of the formatting functions the classifiers are
    stated over: digits without separators, and one colour for every
    class. *)
Definition plain_digits (value : Z) (attribute : string) : string :=
  py_str value.

Definition plain_0f (x : Q) : string := py_str (py_round x).

Definition flat_palette (scheme : MapUtils.scheme_dict) (num_classes : Z)
  : result (list string) :=
  Ok (repeat "#0d47a1" (Z.to_nat num_classes)).
End Scenarios.

(** * Properties *)

(** ** Lists, sums and sorting *)

Section SortFacts.
Context {A : Type} (leb : A -> A -> bool).

Lemma insert_sorted_perm (a : A) (l : list A) :
  Permutation (insert_sorted leb a l) (a :: l).
Proof.
  induction l as [|b tl IH]; simpl.
  - apply Permutation_refl.
  - destruct (leb a b).
    + apply Permutation_refl.
    + eapply perm_trans; [apply perm_skip, IH | apply perm_swap].
Qed.

Lemma sort_values_perm (l : list A) : Permutation (sort_values leb l) l.
Proof.
  induction l as [|a tl IH]; simpl.
  - apply perm_nil.
  - eapply perm_trans; [apply insert_sorted_perm | apply perm_skip, IH].
Qed.

Lemma sort_values_In (l : list A) (x : A) : In x (sort_values leb l) <-> In x l.
Proof.
  split; apply Permutation_in;
    [apply sort_values_perm | apply Permutation_sym, sort_values_perm].
Qed.

Lemma sort_values_NoDup (l : list A) : NoDup l -> NoDup (sort_values leb l).
Proof.
  intro H. eapply Permutation_NoDup; [apply Permutation_sym, sort_values_perm | exact H].
Qed.

Lemma sort_values_length (l : list A) : List.length (sort_values leb l) = List.length l.
Proof. apply Permutation_length, sort_values_perm. Qed.

Hypothesis leb_total : forall a b, leb a b = true \/ leb b a = true.
Hypothesis leb_trans : forall a b c, leb a b = true -> leb b c = true -> leb a c = true.

Lemma insert_sorted_sorted (a : A) (l : list A) :
  StronglySorted (fun x y => leb x y = true) l ->
  StronglySorted (fun x y => leb x y = true) (insert_sorted leb a l).
Proof.
  induction 1 as [|b tl Hs IH Hb]; simpl.
  - constructor; [constructor | constructor].
  - destruct (leb a b) eqn:E.
    + constructor; [constructor; assumption|].
      constructor; [exact E|].
      rewrite Forall_forall in Hb |- *. intros x Hx. eauto.
    + constructor; [exact IH|].
      rewrite Forall_forall in Hb |- *. intros x Hx.
      apply (Permutation_in _ (insert_sorted_perm a tl)) in Hx.
      destruct Hx as [<-|Hx]; [|auto].
      destruct (leb_total a b) as [H|H]; [congruence | exact H].
Qed.

Lemma sort_values_sorted (l : list A) :
  StronglySorted (fun x y => leb x y = true) (sort_values leb l).
Proof.
  induction l as [|a tl IH]; simpl; [constructor | apply insert_sorted_sorted, IH].
Qed.
End SortFacts.

Lemma filter_filter {A : Type} (p q : A -> bool) (l : list A) :
  filter p (filter q l) = filter (fun x => q x && p x) l.
Proof.
  induction l as [|a tl IH]; simpl; [reflexivity|].
  destruct (q a); simpl; [destruct (p a)|]; rewrite IH; reflexivity.
Qed.

Lemma existsb_filter {A : Type} (p q : A -> bool) (l : list A) :
  existsb p (filter q l) = existsb (fun x => q x && p x) l.
Proof.
  induction l as [|a tl IH]; simpl; [reflexivity|].
  destruct (q a); simpl; rewrite IH; reflexivity.
Qed.

Lemma NoDup_map_filter {K R : Type} (key : R -> K) (keep : R -> bool) (rows : list R)
  (Hkeys : NoDup (map key rows)) : NoDup (map key (filter keep rows)).
Proof.
  induction rows as [|r tl IH]; simpl in *; [constructor|].
  apply NoDup_cons_iff in Hkeys. destruct Hkeys as [Hout Htl].
  destruct (keep r); simpl; [|auto].
  constructor; [|auto].
  intro Hin. apply Hout. apply in_map_iff in Hin. destruct Hin as [y [Hy Hin]].
  apply filter_In in Hin. apply in_map_iff. exists y. tauto.
Qed.

Lemma group_keys_In (keys : list Z) (k : Z) : In k (group_keys keys) <-> In k keys.
Proof. unfold group_keys. rewrite sort_values_In. apply nodup_In. Qed.

Lemma group_keys_NoDup (keys : list Z) : NoDup (group_keys keys).
Proof. apply sort_values_NoDup, NoDup_nodup. Qed.

Lemma group_keys2_In (keys : list (Z * Z)) (k : Z * Z) :
  In k (group_keys2 keys) <-> In k keys.
Proof. unfold group_keys2. rewrite sort_values_In. apply nodup_In. Qed.

Lemma group_keys2_NoDup (keys : list (Z * Z)) : NoDup (group_keys2 keys).
Proof. apply sort_values_NoDup, NoDup_nodup. Qed.

Lemma pair_eqb_eq (a b : Z * Z) : pair_eqb a b = true <-> a = b.
Proof.
  destruct a as [a1 a2], b as [b1 b2]. unfold pair_eqb. simpl.
  rewrite andb_true_iff, !Z.eqb_eq. split; [intros [-> ->]; reflexivity|].
  intro H. inversion H. auto.
Qed.

Lemma lookup_map_key {V : Type} (f : Z -> V) (keys : list Z) (k : Z) :
  lookup k (map (fun o => (o, f o)) keys)
  = if in_dec Z.eq_dec k keys then Some (f k) else None.
Proof.
  induction keys as [|a tl IH]; simpl; [reflexivity|].
  destruct (Z.eqb_spec a k) as [->|Hne].
  - destruct (Z.eq_dec k k); [reflexivity | contradiction].
  - rewrite IH. destruct (Z.eq_dec a k); [contradiction|].
    destruct (in_dec Z.eq_dec k tl); reflexivity.
Qed.

Lemma filter_nil_of_not_In {A : Type} (key : A -> Z) (k : Z) (l : list A) :
  ~ In k (map key l) -> filter (fun x => (key x =? k)%Z) l = [].
Proof.
  induction l as [|a tl IH]; simpl; intro H; [reflexivity|].
  destruct (Z.eqb_spec (key a) k) as [E|E]; [exfalso; auto|].
  apply IH. tauto.
Qed.

(** Sums of rationals. *)

Lemma Qsum_app (l1 l2 : list Q) : Qsum (l1 ++ l2) == Qsum l1 + Qsum l2.
Proof.
  induction l1 as [|a tl IH]; simpl; [lra|]. rewrite IH. lra.
Qed.

Lemma Qsum_map_plus {A : Type} (f g : A -> Q) (l : list A) :
  Qsum (map (fun x => f x + g x) l) == Qsum (map f l) + Qsum (map g l).
Proof.
  induction l as [|a tl IH]; simpl; [lra|]. rewrite IH. lra.
Qed.

Lemma Qsum_map_ext {A : Type} (f g : A -> Q) (l : list A) :
  (forall x, In x l -> f x == g x) -> Qsum (map f l) == Qsum (map g l).
Proof.
  induction l as [|a tl IH]; simpl; intro H; [lra|].
  rewrite (H a), IH by auto. lra.
Qed.

Lemma Qsum_map_zero {A : Type} (l : list A) : Qsum (map (fun _ => 0) l) == 0.
Proof. induction l as [|a tl IH]; simpl; [lra|]. rewrite IH. lra. Qed.

Lemma Qsum_map_nonneg {A : Type} (f : A -> Q) (l : list A) :
  (forall x, In x l -> 0 <= f x) -> 0 <= Qsum (map f l).
Proof.
  induction l as [|a tl IH]; simpl; intro H; [lra|].
  assert (0 <= f a) by auto. assert (0 <= Qsum (map f tl)) by auto. lra.
Qed.

Lemma Qsum_filter_mono {A : Type} (f : A -> Q) (p q : A -> bool) (l : list A) :
  (forall x, p x = true -> q x = true) ->
  (forall x, 0 <= f x) ->
  Qsum (map f (filter p l)) <= Qsum (map f (filter q l)).
Proof.
  intros Hpq Hf. induction l as [|a tl IH]; simpl; [lra|].
  destruct (p a) eqn:Ep.
  - rewrite (Hpq a Ep). simpl. lra.
  - destruct (q a); simpl; [pose proof (Hf a)|]; lra.
Qed.

(** The sum of an indicator over rows with distinct keys. *)
Lemma Qsum_indicator {A : Type} (key : A -> Z) (k : Z) (a : Q) (l : list A) :
  NoDup (map key l) ->
  Qsum (map (fun r => if (k =? key r)%Z then a else 0) l)
  == if existsb (fun r => (key r =? k)%Z) l then a else 0.
Proof.
  induction l as [|r tl IH]; simpl; intro H; [lra|].
  inversion H as [|x xs Hn Hd]; subst.
  rewrite (Z.eqb_sym (key r) k).
  destruct (Z.eqb_spec k (key r)) as [E|E]; simpl.
  - assert (Hz : existsb (fun r0 => (key r0 =? k)%Z) tl = false).
    { apply not_true_is_false. intro Hex. apply existsb_exists in Hex.
      destruct Hex as [y [Hy Hk]]. apply Z.eqb_eq in Hk.
      apply Hn. apply in_map_iff. exists y. split; [congruence | exact Hy]. }
    rewrite IH, Hz by exact Hd. lra.
  - rewrite IH by exact Hd. lra.
Qed.

Ltac solve_NoDup :=
  repeat (constructor; [simpl; intuition discriminate|]); constructor.

(** Rounding keeps a number within whole bounds. *)
Lemma py_round_between (x : Q) (a b : Z) :
  inject_Z a <= x -> x <= inject_Z b -> (a <= py_round x <= b)%Z.
Proof.
  intros Ha Hb. pose proof (Qfloor_le x) as H1. pose proof (Qlt_floor x) as H2.
  assert (Hfa : (a <= Qfloor x)%Z).
  { assert (H : inject_Z a < inject_Z (Qfloor x + 1)) by lra.
    rewrite <- Zlt_Qlt in H. lia. }
  assert (Hfb : (Qfloor x <= b)%Z).
  { assert (H : inject_Z (Qfloor x) <= inject_Z b) by lra.
    rewrite <- Zle_Qle in H. exact H. }
  assert (Hup : inject_Z (Qfloor x) < x -> (Qfloor x + 1 <= b)%Z).
  { intro H. assert (H' : inject_Z (Qfloor x) < inject_Z b) by lra.
    rewrite <- Zlt_Qlt in H'. lia. }
  unfold py_round.
  destruct (Qcompare (x - inject_Z (Qfloor x)) (1 # 2)) eqn:E.
  - apply Qeq_alt in E. destruct (Z.even (Qfloor x)); [lia|].
    assert (inject_Z (Qfloor x) < x) by lra. specialize (Hup H). lia.
  - lia.
  - apply Qgt_alt in E. assert (inject_Z (Qfloor x) < x) by lra.
    specialize (Hup H). lia.
Qed.

Module DataProcessingFacts.
Import DataProcessing.

(** ** The accessibility calculator *)

Lemma filter_constant_key (k o : Z) (ds : list (Z * option Q)) :
  map snd (filter (fun j => (fst j =? o)%Z) (map (fun d => (k, snd d)) ds))
  = if (k =? o)%Z then map snd ds else [].
Proof.
  induction ds as [|d tl IH]; simpl.
  - destruct (k =? o)%Z; reflexivity.
  - destruct (k =? o)%Z; simpl; [f_equal|]; exact IH.
Qed.

Lemma merge_destinations_of_origin (F : list skim_row) (D : destinations_frame) (o : Z) :
  map snd (filter (fun j => (fst j =? o)%Z) (merge_destinations F D))
  = flat_map (fun r => map snd (filter (fun d => (fst d =? destination_zone r)%Z) D))
             (filter (fun r => (origin_zone r =? o)%Z) F).
Proof.
  unfold merge_destinations. induction F as [|r tl IH]; simpl; [reflexivity|].
  rewrite filter_app, map_app, IH, filter_constant_key.
  destruct (origin_zone r =? o)%Z; reflexivity.
Qed.

Lemma sum_skipna_flat_map {A : Type} (g : A -> list (option Q)) (l : list A) :
  sum_skipna (flat_map g l) == Qsum (map (fun r => sum_skipna (g r)) l).
Proof.
  unfold sum_skipna. induction l as [|a tl IH]; simpl; [lra|].
  rewrite map_app, Qsum_app, IH. lra.
Qed.

Lemma accessible_value_groupby_sum (joined : list (Z * option Q)) (o : Z) :
  accessible_value (groupby_sum joined) o
  = sum_skipna (map snd (filter (fun j => (fst j =? o)%Z) joined)).
Proof.
  unfold accessible_value, groupby_sum. rewrite lookup_map_key.
  destruct (in_dec Z.eq_dec o (group_keys (map fst joined))) as [Hin|Hout]; [reflexivity|].
  rewrite group_keys_In in Hout. rewrite (filter_nil_of_not_In fst o joined Hout).
  reflexivity.
Qed.

(** The value of an origin is the sum, over its rows within the limit, of
    what the merge brings to each row. *)
Lemma accessible_value_rows (skim_df : list skim_row) (D : destinations_frame)
    (time_limit o : Z) :
  accessible_value (accessibility_of skim_df D time_limit) o
  == Qsum (map (fun r => attribute_at D (destination_zone r))
               (filter (fun r => (origin_zone r =? o)%Z) (filter_skim skim_df time_limit))).
Proof.
  unfold accessibility_of. rewrite accessible_value_groupby_sum.
  rewrite merge_destinations_of_origin. apply sum_skipna_flat_map.
Qed.

Lemma attribute_at_cons (d : Z * option Q) (D : destinations_frame) (k : Z) :
  attribute_at (d :: D) k
  == (if (fst d =? k)%Z then nan_to_zero (snd d) else 0) + attribute_at D k.
Proof.
  unfold attribute_at, sum_skipna. simpl.
  destruct (fst d =? k)%Z; simpl; lra.
Qed.

Lemma rows_to_destinations (R : list skim_row) (D : destinations_frame) :
  NoDup (map destination_zone R) ->
  Qsum (map (fun r => attribute_at D (destination_zone r)) R)
  == Qsum (map (fun d => if existsb (fun r => (destination_zone r =? fst d)%Z) R
                         then nan_to_zero (snd d) else 0) D).
Proof.
  intro Hnd. induction D as [|d tl IH].
  - simpl. apply Qsum_map_zero.
  - simpl.
    rewrite (Qsum_map_ext _ _ R (fun r _ => attribute_at_cons d tl (destination_zone r))).
    rewrite Qsum_map_plus, IH.
    rewrite (Qsum_indicator destination_zone (fst d) (nan_to_zero (snd d)) R Hnd).
    reflexivity.
Qed.

Lemma NoDup_destinations_of_origin (l : list skim_row) (o : Z) :
  NoDup (map zone_pair l) ->
  NoDup (map destination_zone (filter (fun r => (origin_zone r =? o)%Z) l)).
Proof.
  induction l as [|r tl IH]; simpl; intro H; [constructor|].
  inversion H as [|x xs Hn Hd]; subst.
  destruct (Z.eqb_spec (origin_zone r) o) as [E|E]; simpl; [|auto].
  constructor; [|auto].
  intro Hin. apply Hn. apply in_map_iff in Hin. destruct Hin as [y [Hy Hin]].
  apply filter_In in Hin. destruct Hin as [Hin Ho]. apply Z.eqb_eq in Ho.
  apply in_map_iff. exists y. split; [|exact Hin].
  unfold zone_pair. congruence.
Qed.

Lemma existsb_ext_eq {A : Type} (p q : A -> bool) (l : list A) :
  (forall x, p x = q x) -> existsb p l = existsb q l.
Proof.
  intro H. induction l as [|a tl IH]; simpl; [reflexivity|]. rewrite H, IH. reflexivity.
Qed.

Lemma reaches_rows (skim_df : list skim_row) (o time_limit k : Z) :
  reaches skim_df o time_limit k
  = existsb (fun r => (destination_zone r =? k)%Z)
            (filter (fun r => (origin_zone r =? o)%Z) (filter_skim skim_df time_limit)).
Proof.
  unfold reaches, filter_skim. rewrite !existsb_filter. apply existsb_ext_eq.
  intro r. destruct (origin_zone r =? o)%Z, (destination_zone r =? k)%Z,
    (Qle_bool (travel_time r) (inject_Z time_limit)); reflexivity.
Qed.

Lemma accessibility_of_reachable (skim_df : list skim_row) (D : destinations_frame)
    (time_limit o : Z) :
  NoDup (map zone_pair skim_df) ->
  accessible_value (accessibility_of skim_df D time_limit) o
  == reachable_attribute_sum skim_df D o time_limit.
Proof.
  intro Hnd. rewrite accessible_value_rows, rows_to_destinations.
  - unfold reachable_attribute_sum. apply Qsum_map_ext. intros d _.
    rewrite reaches_rows. reflexivity.
  - apply NoDup_destinations_of_origin. unfold filter_skim.
    apply NoDup_map_filter, Hnd.
Qed.

(** ** The cache *)

Lemma calculate_accessibility_miss (cache : accessibility_cache)
    (skim_df : list skim_row) (zone_df : GeoDataFrame) (time_limit : Z)
    (attribute : string) :
  cache_get time_limit attribute cache = None ->
  calculate_accessibility cache skim_df zone_df time_limit attribute
  = match calculate_accessibility_wrapped skim_df zone_df time_limit attribute with
    | Ok access => (Ok access, ((time_limit, attribute), access) :: cache)
    | Err e => (Err e, cache)
    end.
Proof. intro H. unfold calculate_accessibility. rewrite H. reflexivity. Qed.

Lemma cache_get_stored (cache : accessibility_cache) (time_limit : Z)
    (attribute : string) (access : list (Z * Q)) :
  cache_get time_limit attribute (((time_limit, attribute), access) :: cache)
  = Some access.
Proof. simpl. rewrite Z.eqb_refl, String.eqb_refl. reflexivity. Qed.

Lemma cache_get_other (cache : accessibility_cache) (t t' : Z) (a : string)
    (access : list (Z * Q)) :
  t <> t' ->
  cache_get t' a (((t, a), access) :: cache) = cache_get t' a cache.
Proof.
  intro H. simpl. destruct (Z.eqb_spec t t') as [E|_]; [contradiction | reflexivity].
Qed.

(** A call that returns a table leaves it in the cache under its key. *)
Lemma returned_table_is_cached (cache cache' : accessibility_cache)
    (skim_df : list skim_row) (zone_df : GeoDataFrame) (time_limit : Z)
    (attribute : string) (access : list (Z * Q)) :
  calculate_accessibility cache skim_df zone_df time_limit attribute
  = (Ok access, cache') ->
  cache_get time_limit attribute cache' = Some access.
Proof.
  unfold calculate_accessibility.
  destruct (cache_get time_limit attribute cache) as [hit|] eqn:E.
  - intro H. inversion H; subst. exact E.
  - destruct (calculate_accessibility_wrapped skim_df zone_df time_limit attribute)
      as [computed|e]; intro H; inversion H; subst.
    apply cache_get_stored.
Qed.

Lemma wrapped_on_column (skim_df : list skim_row) (zone_df : GeoDataFrame)
    (time_limit : Z) (attribute : string) (cells : list (option Q)) :
  get_column attribute (numeric_columns zone_df) = Some cells ->
  calculate_accessibility_wrapped skim_df zone_df time_limit attribute
  = Ok (accessibility_of skim_df (combine (ZONE_ID zone_df) cells) time_limit).
Proof.
  intro Hcol. unfold calculate_accessibility_wrapped, select_destinations, column.
  rewrite Hcol. reflexivity.
Qed.




Lemma attribute_at_nonneg (D : destinations_frame) (k : Z) :
  (forall d, In d D -> 0 <= nan_to_zero (snd d)) -> 0 <= attribute_at D k.
Proof.
  intro H. unfold attribute_at, sum_skipna. rewrite map_map.
  apply Qsum_map_nonneg. intros d Hd. apply filter_In in Hd. apply H, Hd.
Qed.

Lemma accessibility_of_monotone (skim_df : list skim_row) (D : destinations_frame)
    (time_limit time_limit2 o : Z) :
  (forall d, In d D -> 0 <= nan_to_zero (snd d)) ->
  (time_limit <= time_limit2)%Z ->
  accessible_value (accessibility_of skim_df D time_limit) o
  <= accessible_value (accessibility_of skim_df D time_limit2) o.
Proof.
  intros Hpos Hle. rewrite !accessible_value_rows. unfold filter_skim.
  rewrite !filter_filter. apply Qsum_filter_mono.
  - intros r Hr. apply andb_true_iff in Hr. destruct Hr as [Ht Ho].
    apply andb_true_iff. split; [|exact Ho].
    apply Qle_bool_iff in Ht. apply Qle_bool_iff.
    eapply Qle_trans; [exact Ht|]. rewrite <- Zle_Qle. exact Hle.
  - intro r. apply attribute_at_nonneg, Hpos.
Qed.





(** ** The skim aggregator *)

Lemma merge_origin_app (df1 df2 : list node_row) (m : node_mapping) :
  merge_origin (df1 ++ df2) m = merge_origin df1 m ++ merge_origin df2 m.
Proof. unfold merge_origin. apply flat_map_app. Qed.

Lemma merge_destination_app (l1 l2 : list (node_row * option Z)) (m : node_mapping) :
  merge_destination (l1 ++ l2) m = merge_destination l1 m ++ merge_destination l2 m.
Proof. unfold merge_destination. apply flat_map_app. Qed.

Lemma clean_zones_app (l1 l2 : list (node_row * option Z * option Z)) :
  clean_zones (l1 ++ l2) = clean_zones l1 ++ clean_zones l2.
Proof. unfold clean_zones. apply flat_map_app. Qed.

(** The three steps before the grouping work row by row. *)
Lemma cleaned_rows_flat_map (df : list node_row) (m : node_mapping) :
  clean_zones (merge_destination (merge_origin df m) m)
  = flat_map (fun r => clean_zones (merge_destination (merge_origin [r] m) m)) df.
Proof.
  induction df as [|r tl IH]; [reflexivity|].
  change (r :: tl) with ([r] ++ tl).
  rewrite merge_origin_app, merge_destination_app, clean_zones_app, IH.
  reflexivity.
Qed.

Lemma merge_destination_unmapped (l : list (node_row * option Z)) (m : node_mapping) :
  (forall x, In x l -> unmapped m (destination_node (fst x))) ->
  merge_destination l m = [].
Proof.
  unfold merge_destination. induction l as [|x tl IH]; simpl; intro H; [reflexivity|].
  rewrite (filter_nil_of_not_In fst (destination_node (fst x)) m) by (apply H; auto).
  simpl. apply IH. intros y Hy. apply H. auto.
Qed.

Lemma row_unmapped_dropped (r : node_row) (m : node_mapping) :
  unmapped m (origin_node r) \/ unmapped m (destination_node r) ->
  clean_zones (merge_destination (merge_origin [r] m) m) = [].
Proof.
  intros [Ho|Hd].
  - unfold merge_origin. simpl.
    rewrite (filter_nil_of_not_In fst (origin_node r) m Ho). reflexivity.
  - rewrite merge_destination_unmapped; [reflexivity|].
    intros x Hx. unfold merge_origin in Hx. simpl in Hx. rewrite app_nil_r in Hx.
    apply in_map_iff in Hx. destruct Hx as [e [<- _]]. exact Hd.
Qed.

Lemma aggregate_skim_drops_unmapped (df1 df2 : list node_row) (r : node_row)
    (m : node_mapping) :
  unmapped m (origin_node r) \/ unmapped m (destination_node r) ->
  aggregate_skim (df1 ++ r :: df2) m = aggregate_skim (df1 ++ df2) m.
Proof.
  intro H. unfold aggregate_skim. rewrite !cleaned_rows_flat_map.
  rewrite !flat_map_app. cbn [flat_map]. rewrite (row_unmapped_dropped r m H).
  reflexivity.
Qed.

Lemma unmapped_after_cast (m : node_mapping) (n : Z) :
  unmapped m n ->
  unmapped (map (fun e => (fst e, option_map astype_int32 (snd e))) m) n.
Proof. unfold unmapped. rewrite map_map. simpl. exact (fun H => H). Qed.

(** C9.  A raw row one of whose endpoints is absent from the mapping
    leaves no trace in the aggregated skim, and brings no exception: both
    loaders give what they give on the skim without the row, which is a
    result whenever the mapping has no missing zone; the single row
    (99, 1, 5.0) with node 99 unmapped aggregates to the empty skim. *)
Theorem unmapped_row_is_dropped :
  (forall (df1 df2 : list node_row) (r : node_row) (node_to_zone_df : node_mapping),
      unmapped node_to_zone_df (origin_node r)
      \/ unmapped node_to_zone_df (destination_node r) ->
      load_uploaded_skim (df1 ++ r :: df2) node_to_zone_df
      = Some (aggregate_skim (df1 ++ df2) node_to_zone_df)
      /\ load_base_skim (df1 ++ r :: df2) node_to_zone_df
         = load_base_skim (df1 ++ df2) node_to_zone_df
      /\ (existsb (fun e => is_null (snd e)) node_to_zone_df = false ->
          exists skim, load_base_skim (df1 ++ r :: df2) node_to_zone_df = Ok skim))
  /\ load_base_skim [mkNodeRow 99 1 5] [(1%Z, Some 10%Z); (2%Z, Some 20%Z)] = Ok []
  /\ load_uploaded_skim [mkNodeRow 99 1 5] [(1%Z, Some 10%Z); (2%Z, Some 20%Z)] = Some [].
Proof.
  split; [|split; reflexivity].
  intros df1 df2 r m H. split; [|split].
  - unfold load_uploaded_skim. rewrite aggregate_skim_drops_unmapped by exact H.
    reflexivity.
  - unfold load_base_skim. destruct (existsb _ m); [reflexivity|].
    rewrite aggregate_skim_drops_unmapped; [reflexivity|].
    destruct H as [H|H]; [left | right]; apply unmapped_after_cast, H.
  - intro Hnull. unfold load_base_skim. rewrite Hnull. eexists. reflexivity.
Qed.

Lemma unmapped_row_is_dropped_witness :
  load_uploaded_skim ([mkNodeRow 1 2 7] ++ mkNodeRow 99 1 5 :: [mkNodeRow 2 1 9])
                     [(1%Z, Some 10%Z); (2%Z, Some 20%Z)]
  = Some (aggregate_skim ([mkNodeRow 1 2 7] ++ [mkNodeRow 2 1 9])
                         [(1%Z, Some 10%Z); (2%Z, Some 20%Z)]).
Proof.
  apply (proj1 unmapped_row_is_dropped [mkNodeRow 1 2 7] [mkNodeRow 2 1 9]
               (mkNodeRow 99 1 5) [(1%Z, Some 10%Z); (2%Z, Some 20%Z)]).
  left. unfold unmapped. simpl. intuition discriminate.
Defined.

(** With one mapping row per node, a merge brings each row its zone. *)
Lemma filter_unique_key (m : node_mapping) (n : Z) :
  NoDup (map fst m) ->
  filter (fun e => (fst e =? n)%Z) m
  = match find (fun e => (fst e =? n)%Z) m with
    | Some e => [e]
    | None => []
    end.
Proof.
  induction m as [|e tl IH]; simpl; intro H; [reflexivity|].
  inversion H as [|x xs Hn Hd]; subst.
  destruct (Z.eqb_spec (fst e) n) as [E|E].
  - rewrite (filter_nil_of_not_In fst n tl); [reflexivity | congruence].
  - apply IH, Hd.
Qed.

Lemma row_translated (r : node_row) (m : node_mapping) :
  NoDup (map fst m) ->
  clean_zones (merge_destination (merge_origin [r] m) m)
  = match node_zone m (origin_node r), node_zone m (destination_node r) with
    | Some o, Some d => [mkSkimRow o d (node_travel_time r)]
    | _, _ => []
    end.
Proof.
  intro Hnd. unfold merge_origin, merge_destination, node_zone. simpl.
  rewrite app_nil_r, (filter_unique_key m (origin_node r) Hnd).
  destruct (find (fun e => (fst e =? origin_node r)%Z) m) as [[n1 z1]|]; simpl;
    [|reflexivity].
  rewrite app_nil_r, (filter_unique_key m (destination_node r) Hnd).
  destruct (find (fun e => (fst e =? destination_node r)%Z) m) as [[n2 z2]|]; simpl.
  - destruct z1, z2; reflexivity.
  - destruct z1; reflexivity.
Qed.

Lemma cleaned_rows_zone_rows (df : list node_row) (m : node_mapping) :
  NoDup (map fst m) ->
  clean_zones (merge_destination (merge_origin df m) m) = zone_rows df m.
Proof.
  intro Hnd. rewrite cleaned_rows_flat_map. unfold zone_rows.
  apply flat_map_ext. intro r. apply row_translated, Hnd.
Qed.

Lemma times_of_zone_rows (df : list node_row) (m : node_mapping) (k : Z * Z) :
  map travel_time (filter (fun r => pair_eqb (zone_pair r) k) (zone_rows df m))
  = raw_times_of_pair df m k.
Proof.
  unfold zone_rows, raw_times_of_pair. induction df as [|r tl IH]; simpl; [reflexivity|].
  rewrite filter_app, map_app, IH.
  destruct (node_zone m (origin_node r)) as [o|]; [|reflexivity].
  destruct (node_zone m (destination_node r)) as [d|]; [|reflexivity].
  simpl. unfold zone_pair at 1. simpl.
  destruct (pair_eqb (o, d) k); reflexivity.
Qed.

Lemma groupby_mean_spec (df : list node_row) (m : node_mapping) :
  zone_level_mean df m (groupby_mean (zone_rows df m)).
Proof.
  assert (Hkeys : map zone_pair (groupby_mean (zone_rows df m))
                  = group_keys2 (map zone_pair (zone_rows df m))).
  { unfold groupby_mean. rewrite map_map. unfold zone_pair at 1. simpl.
    rewrite <- (map_id (group_keys2 _)) at 2. apply map_ext. intros [a b]. reflexivity. }
  assert (Hne : forall k, In k (map zone_pair (zone_rows df m)) <->
                          raw_times_of_pair df m k <> []).
  { intro k. rewrite <- times_of_zone_rows. split.
    - intros Hin Hnil. apply in_map_iff in Hin. destruct Hin as [r [Hr Hin]].
      assert (Hf : In r (filter (fun r => pair_eqb (zone_pair r) k) (zone_rows df m))).
      { apply filter_In. split; [exact Hin | apply pair_eqb_eq, Hr]. }
      apply (in_map travel_time) in Hf. rewrite Hnil in Hf. exact Hf.
    - intro Hnn.
      destruct (filter (fun r => pair_eqb (zone_pair r) k) (zone_rows df m))
        as [|r rs] eqn:E; [contradiction Hnn; reflexivity|].
      assert (Hf : In r (filter (fun r => pair_eqb (zone_pair r) k) (zone_rows df m))).
      { rewrite E. left. reflexivity. }
      apply filter_In in Hf. destruct Hf as [Hin Hk]. apply pair_eqb_eq in Hk.
      apply in_map_iff. exists r. split; assumption. }
  split; [|split].
  - rewrite Hkeys. apply group_keys2_NoDup.
  - intros row Hin. unfold groupby_mean in Hin. apply in_map_iff in Hin.
    destruct Hin as [k [<- Hk]]. unfold zone_pair. simpl.
    rewrite <- surjective_pairing. rewrite group_keys2_In in Hk.
    split; [apply Hne, Hk|]. rewrite times_of_zone_rows. reflexivity.
  - intros k Hk. rewrite Hkeys, group_keys2_In. apply Hne, Hk.
Qed.

Lemma aggregate_skim_spec (df : list node_row) (m : node_mapping) :
  NoDup (map fst m) -> zone_level_mean df m (aggregate_skim df m).
Proof.
  intro Hnd. unfold aggregate_skim. rewrite (cleaned_rows_zone_rows df m Hnd).
  apply groupby_mean_spec.
Qed.

Lemma astype_int32_idem (z : Z) : astype_int32 (astype_int32 z) = astype_int32 z.
Proof.
  unfold astype_int32.
  replace ((z + 2 ^ 31) mod 2 ^ 32 - 2 ^ 31 + 2 ^ 31)%Z with ((z + 2 ^ 31) mod 2 ^ 32)%Z by lia.
  rewrite Z.mod_mod by lia. reflexivity.
Qed.

Lemma node_zone_after_cast (m : node_mapping) (n : Z) :
  node_zone (map (fun e => (fst e, option_map astype_int32 (snd e))) m) n
  = node_zone m n.
Proof.
  unfold node_zone. induction m as [|[k z] tl IH]; simpl; [reflexivity|].
  destruct (k =? n)%Z; [|exact IH].
  destruct z; simpl; [rewrite astype_int32_idem|]; reflexivity.
Qed.

Lemma zone_rows_after_cast (df : list node_row) (m : node_mapping) :
  zone_rows df (map (fun e => (fst e, option_map astype_int32 (snd e))) m)
  = zone_rows df m.
Proof.
  unfold zone_rows. apply flat_map_ext. intro r. rewrite !node_zone_after_cast.
  reflexivity.
Qed.

(** C2, as the code has it.  With a mapping that gives each node one
    row, the aggregated skim of either loader has one row per pair of
    zones, and the travel time of a row is the arithmetic mean of the raw
    travel times whose two endpoints translate to its pair.
    [load_base_skim], whose cast refuses a missing zone, is read on
    mappings without one. *)
Theorem aggregated_skim_is_mean_per_pair :
  forall (df : list node_row) (node_to_zone_df : node_mapping),
    NoDup (map fst node_to_zone_df) ->
    (exists skim,
        load_uploaded_skim df node_to_zone_df = Some skim
        /\ zone_level_mean df node_to_zone_df skim)
    /\ (existsb (fun e => is_null (snd e)) node_to_zone_df = false ->
        exists skim,
          load_base_skim df node_to_zone_df = Ok skim
          /\ zone_level_mean df node_to_zone_df skim).
Proof.
  intros df m Hnd. split.
  - eexists. split; [reflexivity|]. apply aggregate_skim_spec, Hnd.
  - intro Hnull. unfold load_base_skim. rewrite Hnull.
    eexists. split; [reflexivity|].
    unfold aggregate_skim. rewrite cleaned_rows_zone_rows.
    + rewrite zone_rows_after_cast. apply groupby_mean_spec.
    + rewrite map_map. simpl. exact Hnd.
Qed.

Lemma aggregated_skim_is_mean_per_pair_witness :
  (exists skim,
      load_uploaded_skim [mkNodeRow 1 3 4; mkNodeRow 2 3 8; mkNodeRow 99 1 5]
                         [(1%Z, Some 10%Z); (2%Z, Some 10%Z); (3%Z, Some 20%Z)]
      = Some skim
      /\ zone_level_mean [mkNodeRow 1 3 4; mkNodeRow 2 3 8; mkNodeRow 99 1 5]
                         [(1%Z, Some 10%Z); (2%Z, Some 10%Z); (3%Z, Some 20%Z)] skim)
  /\ (existsb (fun e => is_null (snd e))
              [(1%Z, Some 10%Z); (2%Z, Some 10%Z); (3%Z, Some 20%Z)] = false ->
      exists skim,
        load_base_skim [mkNodeRow 1 3 4; mkNodeRow 2 3 8; mkNodeRow 99 1 5]
                       [(1%Z, Some 10%Z); (2%Z, Some 10%Z); (3%Z, Some 20%Z)]
        = Ok skim
        /\ zone_level_mean [mkNodeRow 1 3 4; mkNodeRow 2 3 8; mkNodeRow 99 1 5]
                           [(1%Z, Some 10%Z); (2%Z, Some 10%Z); (3%Z, Some 20%Z)] skim).
Proof.
  apply (aggregated_skim_is_mean_per_pair
           [mkNodeRow 1 3 4; mkNodeRow 2 3 8; mkNodeRow 99 1 5]
           [(1%Z, Some 10%Z); (2%Z, Some 10%Z); (3%Z, Some 20%Z)]).
  simpl. solve_NoDup.
Defined.

(** C2, as stated, fails on a mapping with a repeated row, which neither
    loader looks for: the merge repeats a raw row once for every mapping
    row of its node.  With node 1 listed twice, the raw times 4 and 8 of
    the pair (10, 20) are averaged as 4, 4 and 8. *)
Lemma repeated_mapping_row_skews_the_mean :
  exists row,
    load_uploaded_skim [mkNodeRow 1 3 4; mkNodeRow 2 3 8]
                       [(1%Z, Some 10%Z); (1%Z, Some 10%Z); (2%Z, Some 10%Z);
                        (3%Z, Some 20%Z)]
    = Some [row]
    /\ zone_pair row = (10%Z, 20%Z)
    /\ travel_time row == 16 # 3
    /\ mean (raw_times_of_pair [mkNodeRow 1 3 4; mkNodeRow 2 3 8]
                               [(1%Z, Some 10%Z); (1%Z, Some 10%Z); (2%Z, Some 10%Z);
                                (3%Z, Some 20%Z)]
                               (10%Z, 20%Z)) == 6
    /\ ~ zone_level_mean [mkNodeRow 1 3 4; mkNodeRow 2 3 8]
                         [(1%Z, Some 10%Z); (1%Z, Some 10%Z); (2%Z, Some 10%Z);
                          (3%Z, Some 20%Z)]
                         [row].
Proof.
  eexists. split; [vm_compute; reflexivity|].
  split; [reflexivity|]. split; [reflexivity|]. split; [reflexivity|].
  intros [_ [Hmean _]]. destruct (Hmean _ (or_introl eq_refl)) as [_ H].
  vm_compute in H. discriminate H.
Qed.


(** ** The time-band calculator *)

(** The keys of two bands are equal only when their limits are. *)

Lemma uint_no_underscore (d : Decimal.uint) :
  has_underscore (NilEmpty.string_of_uint d) = false.
Proof. induction d; cbn; auto. Qed.

Lemma py_str_no_underscore (z : Z) : has_underscore (py_str z) = false.
Proof.
  unfold py_str, NilEmpty.string_of_int.
  destruct (Z.to_int z); simpl; apply uint_no_underscore.
Qed.

Lemma py_str_inj (a b : Z) : py_str a = py_str b -> a = b.
Proof.
  unfold py_str. intro H. apply DecimalZ.to_int_inj.
  assert (E : Some (Z.to_int a) = Some (Z.to_int b)).
  { rewrite <- !NilEmpty.isi. rewrite H. reflexivity. }
  congruence.
Qed.

Lemma split_at_underscore (a c b d : string) :
  has_underscore a = false -> has_underscore c = false ->
  (a ++ String "_"%char b)%string = (c ++ String "_"%char d)%string ->
  a = c /\ b = d.
Proof.
  revert c. induction a as [|x a IH]; intros [|y c] Ha Hc H; simpl in *.
  - inversion H. auto.
  - inversion H; subst. discriminate.
  - inversion H; subst. discriminate.
  - apply orb_false_iff in Ha, Hc. destruct Ha as [_ Ha], Hc as [_ Hc].
    inversion H; subst. destruct (IH c Ha Hc H2) as [-> ->]. auto.
Qed.

Lemma band_name_inj (l u l' u' : Z) :
  band_name l u = band_name l' u' -> l = l' /\ u = u'.
Proof.
  unfold band_name. intro H. simpl in H.
  repeat (injection H as H).
  apply split_at_underscore in H; try apply py_str_no_underscore.
  destruct H as [Hl Hu]. split; apply py_str_inj; assumption.
Qed.

Lemma dict_set_fresh {V : Type} (key : string) (v : V) (d : list (string * V)) :
  (forall k, In k (map fst d) -> k <> key) ->
  dict_set key v d = d ++ [(key, v)].
Proof.
  induction d as [|[k v'] tl IH]; simpl; intro H; [reflexivity|].
  destruct (String.eqb_spec k key) as [E|E].
  - exfalso. apply (H k); auto.
  - rewrite IH; [reflexivity|]. intros k' Hk'. apply H. auto.
Qed.

Lemma dict_set_same {V : Type} (key : string) (v v' : V) :
  dict_set key v [(key, v')] = [(key, v)].
Proof. simpl. rewrite String.eqb_refl. reflexivity. Qed.

Lemma dict_set_In {V : Type} (key : string) (v : V) (d : list (string * V))
    (e : string * V) :
  In e (dict_set key v d) -> e = (key, v) \/ In e d.
Proof.
  induction d as [|[k v'] tl IH]; simpl.
  - intros [<-|[]]. left. reflexivity.
  - destruct (String.eqb_spec k key) as [E|E]; simpl.
    + subst k. intros [<-|H]; auto.
    + intros [<-|H]; auto. destruct (IH H); auto.
Qed.

(** Every entry of the dictionary is the table of the limits in its key. *)
Lemma time_bands_entries (skim_df : list skim_row) (time_band : Z) :
  forall lower upper band_access,
    In (band_name lower upper, band_access)
       (calculate_time_band_accessibility skim_df time_band) ->
    band_access = band_table skim_df lower upper.
Proof.
  unfold calculate_time_band_accessibility.
  set (step := fun time_bands i => _).
  assert (Hstep : forall d i,
             (forall l u b, In (band_name l u, b) d -> b = band_table skim_df l u) ->
             forall l u b, In (band_name l u, b) (step d i) -> b = band_table skim_df l u).
  { intros d i Hd l u b Hin. unfold step in Hin.
    destruct (band_limits time_band i) as [lo up].
    apply dict_set_In in Hin. destruct Hin as [Heq|Hin]; [|eauto].
    apply pair_equal_spec in Heq. destruct Heq as [Hname ->].
    apply band_name_inj in Hname. destruct Hname as [-> ->]. reflexivity. }
  cbn [fold_left]. intros l u b.
  repeat apply Hstep. intros ? ? ? [].
Qed.

Lemma time_bands_five (skim_df : list skim_row) (time_band : Z) :
  time_band <> 0%Z ->
  calculate_time_band_accessibility skim_df time_band
  = map (fun k => (band_name (fst k) (snd k), band_table skim_df (fst k) (snd k)))
        [(0, 1 * time_band); ((2 - 1) * time_band, 2 * time_band);
         ((3 - 1) * time_band, 3 * time_band); ((4 - 1) * time_band, 4 * time_band);
         ((5 - 1) * time_band, 5 * time_band)]%Z.
Proof.
  intro Hw. unfold calculate_time_band_accessibility. cbn [fold_left].
  change (band_limits time_band 1) with (0, 1 * time_band)%Z.
  change (band_limits time_band 2) with ((2 - 1) * time_band, 2 * time_band)%Z.
  change (band_limits time_band 3) with ((3 - 1) * time_band, 3 * time_band)%Z.
  change (band_limits time_band 4) with ((4 - 1) * time_band, 4 * time_band)%Z.
  change (band_limits time_band 5) with ((5 - 1) * time_band, 5 * time_band)%Z.
  cbv beta iota.
  match goal with
  | |- context [dict_set ?k ?v []] => change (dict_set k v []) with [(k, v)]
  end.
  repeat match goal with
         | |- context [dict_set ?k ?v (?x :: ?l)] =>
             rewrite (dict_set_fresh k v (x :: l));
             [cbn [app] |
              cbn [map fst]; intros k' Hk Heq; subst k';
              repeat (destruct Hk as [Hk|Hk]; [apply band_name_inj in Hk; lia|]);
              exact Hk]
         end.
  reflexivity.
Qed.

Lemma band_count_groupby_size (band_skim : list skim_row) (o : Z) :
  band_count (groupby_size band_skim) o
  = Z.of_nat (List.length (filter (fun r => (origin_zone r =? o)%Z) band_skim)).
Proof.
  unfold band_count, groupby_size. rewrite lookup_map_key.
  destruct (in_dec Z.eq_dec o (group_keys (map origin_zone band_skim))) as [Hin|Hout];
    [reflexivity|].
  rewrite group_keys_In in Hout.
  rewrite (filter_nil_of_not_In origin_zone o band_skim Hout). reflexivity.
Qed.

Lemma filter_length_perm {A : Type} (p : A -> bool) (l l' : list A) :
  Permutation l l' -> List.length (filter p l) = List.length (filter p l').
Proof.
  induction 1 as [|x l l' _ IH|x y l|l l' l'' _ IH1 _ IH2]; simpl.
  - reflexivity.
  - destruct (p x); simpl; congruence.
  - destruct (p x), (p y); reflexivity.
  - congruence.
Qed.

(** The count of a band is the number of rows of the origin in it. *)
Lemma band_table_rows (skim_df : list skim_row) (lower upper o : Z) :
  band_count (band_table skim_df lower upper) o
  = Z.of_nat (List.length
                (filter (fun r => (origin_zone r =? o)%Z && in_band lower upper r) skim_df)).
Proof.
  unfold band_table. rewrite band_count_groupby_size, filter_filter. f_equal.
  rewrite (filter_length_perm _ _ skim_df (sort_values_perm _ skim_df)).
  f_equal. apply filter_ext. intro r. apply andb_comm.
Qed.

Lemma nodup_fixed {A : Type} (dec : forall x y : A, {x = y} + {x <> y}) (l : list A) :
  NoDup l -> nodup dec l = l.
Proof.
  induction 1 as [|x l Hn _ IH]; simpl; [reflexivity|].
  destruct (in_dec dec x l); [contradiction | rewrite IH; reflexivity].
Qed.

Lemma band_destinations_rows (skim_df : list skim_row) (lower upper o : Z) :
  NoDup (map zone_pair skim_df) ->
  List.length (band_destinations skim_df o lower upper)
  = List.length
      (filter (fun r => (origin_zone r =? o)%Z && in_band lower upper r) skim_df).
Proof.
  intro Hnd. unfold band_destinations. rewrite nodup_fixed; [apply length_map|].
  rewrite <- filter_filter. apply NoDup_map_filter.
  apply NoDup_destinations_of_origin, Hnd.
Qed.

(** C3, as the code has it.  For a band width other than 0 the dictionary
    has exactly five entries, under the limits ((i-1)*w, i*w) for
    i = 1..5 in this order, and on a zone-level skim the count an entry
    gives an origin is the number of destination zones whose travel time
    is above the lower limit and at most the upper one; with a width of
    15 the travel times 10, 15, 16 and 40 of one origin count 2, 1, 1, 0
    and 0. *)
Theorem time_bands_half_open_counts :
  (forall (skim_df : list skim_row) (time_band : Z),
      time_band <> 0%Z ->
      map fst (calculate_time_band_accessibility skim_df time_band)
      = [band_name 0 time_band; band_name time_band (2 * time_band);
         band_name (2 * time_band) (3 * time_band);
         band_name (3 * time_band) (4 * time_band);
         band_name (4 * time_band) (5 * time_band)]
      /\ (NoDup (map zone_pair skim_df) ->
          forall lower upper band_access origin,
            In (band_name lower upper, band_access)
               (calculate_time_band_accessibility skim_df time_band) ->
            band_count band_access origin
            = Z.of_nat (List.length (band_destinations skim_df origin lower upper))))
  /\ map (fun e => (fst e, band_count (snd e) 5))
         (calculate_time_band_accessibility Scenarios.skim_origin5 15)
     = [("zones_0_15", 2); ("zones_15_30", 1); ("zones_30_45", 1);
        ("zones_45_60", 0); ("zones_60_75", 0)]%Z%string.
Proof.
  split; [|reflexivity].
  intros skim_df w Hw. split.
  - rewrite (time_bands_five skim_df w Hw), map_map. cbn [map fst snd].
    repeat (f_equal; try lia).
  - intros Hnd lower upper band_access origin Hin.
    rewrite (time_bands_entries _ _ _ _ _ Hin), band_table_rows.
    rewrite band_destinations_rows by exact Hnd. reflexivity.
Qed.

Lemma time_bands_half_open_counts_witness :
  map fst (calculate_time_band_accessibility Scenarios.skim_origin5 15)
  = [band_name 0 15; band_name 15 (2 * 15); band_name (2 * 15) (3 * 15);
     band_name (3 * 15) (4 * 15); band_name (4 * 15) (5 * 15)]
  /\ (NoDup (map zone_pair Scenarios.skim_origin5) ->
      forall lower upper band_access origin,
        In (band_name lower upper, band_access)
           (calculate_time_band_accessibility Scenarios.skim_origin5 15) ->
        band_count band_access origin
        = Z.of_nat (List.length (band_destinations Scenarios.skim_origin5 origin lower upper))).
Proof.
  apply (proj1 time_bands_half_open_counts Scenarios.skim_origin5 15%Z). lia.
Defined.

(** C3, as stated, fails for a band width of 0: the five bands share one
    key and the dictionary keeps a single entry. *)
Lemma time_bands_zero_width_collapse :
  map fst (calculate_time_band_accessibility Scenarios.skim_origin5 0)
  = ["zones_0_0"%string]
  /\ List.length (calculate_time_band_accessibility Scenarios.skim_origin5 0) <> 5%nat.
Proof. split; [reflexivity | discriminate]. Qed.

Lemma length_filter_b2n {A : Type} (p : A -> bool) (l : list A) :
  List.length (filter p l) = fold_right Nat.add 0%nat (map (fun x => b2n (p x)) l).
Proof.
  induction l as [|a tl IH]; simpl; [reflexivity|].
  destruct (p a); simpl; rewrite IH; reflexivity.
Qed.

Ltac reflect_Qle :=
  repeat match goal with
         | |- context [Qle_bool ?a ?b] =>
             let E := fresh "E" in
             destruct (Qle_bool a b) eqn:E;
             [apply Qle_bool_iff in E
             |assert (~ a <= b) by (rewrite <- Qle_bool_iff; congruence); clear E]
         end.

(** Five consecutive half-open intervals of width [x] cover the interval
    from 0 to [5 * x] once. *)
Lemma five_intervals (t x : Q) :
  (b2n (Qlt_bool 0 t && Qle_bool t (1 * x))
   + b2n (Qlt_bool (1 * x) t && Qle_bool t (2 * x))
   + b2n (Qlt_bool (2 * x) t && Qle_bool t (3 * x))
   + b2n (Qlt_bool (3 * x) t && Qle_bool t (4 * x))
   + b2n (Qlt_bool (4 * x) t && Qle_bool t (5 * x)))%nat
  = b2n (Qlt_bool 0 t && Qle_bool t (5 * x)).
Proof.
  unfold Qlt_bool. reflect_Qle; simpl; try reflexivity; exfalso; lra.
Qed.

Lemma in_band_scaled (a b w : Z) (r : skim_row) :
  in_band (a * w) (b * w) r
  = Qlt_bool (inject_Z a * inject_Z w) (travel_time r)
    && Qle_bool (travel_time r) (inject_Z b * inject_Z w).
Proof.
  unfold in_band, Qlt_bool. rewrite !inject_Z_mult. reflexivity.
Qed.

Lemma five_bands_of_row (w : Z) (r : skim_row) :
  (b2n (in_band 0 (1 * w) r) + b2n (in_band ((2 - 1) * w) (2 * w) r)
   + b2n (in_band ((3 - 1) * w) (3 * w) r) + b2n (in_band ((4 - 1) * w) (4 * w) r)
   + b2n (in_band ((5 - 1) * w) (5 * w) r))%nat
  = b2n (in_band 0 (5 * w) r).
Proof.
  change (in_band 0 (1 * w) r) with (in_band (0 * w) (1 * w) r).
  change (in_band 0 (5 * w) r) with (in_band (0 * w) (5 * w) r).
  rewrite !in_band_scaled.
  change (inject_Z (2 - 1)) with 1. change (inject_Z (3 - 1)) with 2.
  change (inject_Z (4 - 1)) with 3. change (inject_Z (5 - 1)) with 4.
  change (inject_Z 1) with 1. change (inject_Z 2) with 2. change (inject_Z 3) with 3.
  change (inject_Z 4) with 4. change (inject_Z 5) with 5. change (inject_Z 0) with 0.
  pose proof (five_intervals (travel_time r) (inject_Z w)) as H.
  unfold Qlt_bool in *.
  assert (E : 0 * inject_Z w == 0) by lra. rewrite !E. exact H.
Qed.

Lemma five_bands_of_origin (skim_df : list skim_row) (w o : Z) :
  let rows lower upper :=
    List.length (filter (fun r => (origin_zone r =? o)%Z && in_band lower upper r) skim_df) in
  (rows 0%Z (1 * w)%Z + rows ((2 - 1) * w)%Z (2 * w)%Z + rows ((3 - 1) * w)%Z (3 * w)%Z
   + rows ((4 - 1) * w)%Z (4 * w)%Z + rows ((5 - 1) * w)%Z (5 * w)%Z)%nat
  = rows 0%Z (5 * w)%Z.
Proof.
  intro rows. unfold rows. rewrite !length_filter_b2n.
  induction skim_df as [|r tl IH]; [reflexivity|].
  cbn [map fold_right]. rewrite <- IH.
  pose proof (five_bands_of_row w r) as H.
  destruct (origin_zone r =? o)%Z; cbn [andb b2n]; lia.
Qed.

(** C4, as the code has it.  On a zone-level skim the five band counts
    of an origin add up to the number of destination zones whose travel
    time is above 0 and at most five band widths. *)
Theorem band_counts_sum_to_range :
  forall (skim_df : list skim_row) (time_band : Z) (origin : Z),
    NoDup (map zone_pair skim_df) ->
    band_total (calculate_time_band_accessibility skim_df time_band) origin
    = Z.of_nat (List.length (band_destinations skim_df origin 0 (5 * time_band))).
Proof.
  intros skim_df w o Hnd. rewrite (band_destinations_rows skim_df _ _ o Hnd).
  destruct (Z.eq_dec w 0) as [->|Hw].
  - unfold calculate_time_band_accessibility. cbn [fold_left].
    change (band_limits 0 1) with (0, 0)%Z. change (band_limits 0 2) with (0, 0)%Z.
    change (band_limits 0 3) with (0, 0)%Z. change (band_limits 0 4) with (0, 0)%Z.
    change (band_limits 0 5) with (0, 0)%Z. cbv beta iota.
    match goal with
    | |- context [dict_set ?k ?v []] => change (dict_set k v []) with [(k, v)]
    end.
    rewrite !dict_set_same.
    unfold band_total. cbn [map fold_right snd].
    fold (band_table skim_df 0 0). rewrite band_table_rows.
    change (5 * 0)%Z with 0%Z. lia.
  - rewrite (time_bands_five skim_df w Hw). unfold band_total.
    cbn [map fold_right fst snd]. rewrite !band_table_rows.
    rewrite <- (five_bands_of_origin skim_df w o). cbv zeta. lia.
Qed.

Lemma band_counts_sum_to_range_witness :
  band_total (calculate_time_band_accessibility Scenarios.skim_origin5 15) 5
  = Z.of_nat (List.length (band_destinations Scenarios.skim_origin5 5 0 (5 * 15))).
Proof.
  apply (band_counts_sum_to_range Scenarios.skim_origin5 15%Z 5%Z).
  simpl. solve_NoDup.
Defined.

(** C4, as stated, fails on a destination at travel time 0: it is within
    five band widths and in no band. *)
Lemma band_counts_miss_zero_time :
  band_total (calculate_time_band_accessibility [mkSkimRow 1 1 0] 15) 1
  <> Z.of_nat (List.length (destinations_within [mkSkimRow 1 1 0] 1 (5 * 15))).
Proof. vm_compute. discriminate. Qed.

End DataProcessingFacts.

Module MapUtilsFacts.
Import MapUtils.

(** ** Rounding to a nice number *)

Lemma py_round_comp (x y : Q) : x == y -> py_round x = py_round y.
Proof.
  intro E. unfold py_round. rewrite (Qfloor_comp x y E).
  assert (E2 : x - inject_Z (Qfloor y) == y - inject_Z (Qfloor y)) by (rewrite E; reflexivity).
  rewrite (Qcompare_comp _ _ E2 (1 # 2) (1 # 2) (Qeq_refl _)). reflexivity.
Qed.

Lemma Qfloor_unique (x : Q) (n : Z) :
  inject_Z n <= x -> x < inject_Z (n + 1) -> Qfloor x = n.
Proof.
  intros Hlo Hhi.
  pose proof (Qfloor_le x) as H1. pose proof (Qlt_floor x) as H2.
  assert (H3 : inject_Z n < inject_Z (Qfloor x + 1)) by (eapply Qle_lt_trans; eassumption).
  assert (H4 : inject_Z (Qfloor x) < inject_Z (n + 1)) by (eapply Qle_lt_trans; eassumption).
  rewrite <- Zlt_Qlt in H3, H4. clear - H3 H4.
  generalize dependent (Qfloor x). intros f H3 H4. lia.
Qed.

(** Below one half, [round] gives 0. *)
Lemma py_round_small (x : Q) : 0 <= x -> x < 1 # 2 -> py_round x = 0%Z.
Proof.
  intros Hlo Hhi.
  assert (Hf : Qfloor x = 0%Z).
  { apply Qfloor_unique; simpl; [exact Hlo | change (inject_Z 1) with 1; lra]. }
  unfold py_round. rewrite Hf.
  assert (Hc : Qcompare (x - inject_Z 0) (1 # 2) = Lt).
  { rewrite <- Qlt_alt. change (inject_Z 0) with 0. lra. }
  rewrite Hc. reflexivity.
Qed.

Lemma ilog10_fuel_nonneg (fuel : nat) (n : Z) : (0 <= ilog10_fuel fuel n)%Z.
Proof.
  revert n. induction fuel as [|f IH]; intro n; cbn [ilog10_fuel]; [lia|].
  destruct (n <? 10)%Z; [lia|]. specialize (IH (n / 10)%Z). lia.
Qed.

Lemma ilog10_fuel_upper (fuel : nat) (n k : Z) :
  (0 <= k)%Z -> (n < 10 ^ (k + 1))%Z -> (ilog10_fuel fuel n <= k)%Z.
Proof.
  revert n k. induction fuel as [|f IH]; intros n k Hk Hn; cbn [ilog10_fuel]; [lia|].
  destruct (Z.ltb_spec n 10) as [Hlt|Hge]; [lia|].
  assert (Hk1 : (1 <= k)%Z).
  { destruct (Z.eq_dec k 0) as [->|]; [simpl in Hn; lia | lia]. }
  assert (Hdiv : (n / 10 < 10 ^ (k - 1 + 1))%Z).
  { apply Z.div_lt_upper_bound; [lia|].
    replace (k - 1 + 1)%Z with k by lia.
    rewrite <- Z.pow_succ_r by lia. replace (Z.succ k) with (k + 1)%Z by lia. exact Hn. }
  specialize (IH (n / 10)%Z (k - 1)%Z ltac:(lia) Hdiv). lia.
Qed.

(** The magnitude is a power of ten with a natural exponent. *)
Lemma magnitude_power (x : Q) (round_to : Z) :
  exists k : Z, (0 <= k)%Z /\ magnitude x round_to = (10 ^ k)%Z
                /\ (1 <= magnitude x round_to)%Z.
Proof.
  unfold magnitude. eexists. split; [|split; [reflexivity|]].
  - apply Z.le_max_l.
  - assert (0 < 10 ^ Z.max 0 (int_log10 (Qabs x) - (round_to - 1)))%Z; [|lia].
    apply Z.pow_pos_nonneg; lia.
Qed.

(** Below a thousand the magnitude is 1. *)
Lemma magnitude_small (x : Q) : Qabs x < 1000 -> magnitude x 3 = 1%Z.
Proof.
  intro H. unfold magnitude.
  assert (Hlog : (int_log10 (Qabs x) <= 2)%Z).
  { unfold int_log10. destruct (Qle_bool 1 (Qabs x)).
    - unfold ilog10. apply ilog10_fuel_upper; [lia|].
      pose proof (Qfloor_le (Qabs x)) as Hf.
      assert (Hlt : inject_Z (Qfloor (Qabs x)) < inject_Z 1000).
      { eapply Qle_lt_trans; [exact Hf | exact H]. }
      rewrite <- Zlt_Qlt in Hlt. exact Hlt.
    - unfold ilog10.
      pose proof (ilog10_fuel_nonneg
                    (S (Z.to_nat (Z.log2 (Qfloor (/ Qabs x))))) (Qfloor (/ Qabs x))).
      lia. }
  rewrite Z.max_l by lia. reflexivity.
Qed.

Lemma nice_number_small (x : Q) : Qabs x < 1000 -> nice_number x 3 = py_round x.
Proof.
  intro H. unfold nice_number. destruct (Qeq_bool x 0) eqn:E.
  - apply Qeq_bool_iff in E. rewrite (py_round_comp x 0 E). reflexivity.
  - rewrite (magnitude_small x H). rewrite Z.mul_1_r.
    apply py_round_comp. change (inject_Z 1) with 1. field.
Qed.

Lemma nice_number_below_half (x : Q) : 0 < x -> x < 1 # 2 -> nice_number x 3 = 0%Z.
Proof.
  intros Hlo Hhi. rewrite nice_number_small.
  - apply py_round_small; lra.
  - rewrite Qabs_pos by lra. lra.
Qed.

Lemma bump_from_length (prev : Z) (rest : list Z) :
  List.length (bump_from prev rest) = List.length rest.
Proof.
  revert prev. induction rest as [|b tl IH]; intro prev; simpl; [reflexivity|].
  rewrite IH. reflexivity.
Qed.

Lemma force_increasing_length (bins : list Z) :
  List.length (force_increasing bins) = List.length bins.
Proof. destruct bins; simpl; [|rewrite bump_from_length]; reflexivity. Qed.

Lemma range_length (n : Z) : List.length (range n) = Z.to_nat n.
Proof. unfold range. rewrite length_map, length_seq. reflexivity. Qed.

Lemma bin_count_bounds (values : list Q) : (4 <= bin_count values <= 7)%Z.
Proof. unfold bin_count. destruct values; lia. Qed.

Lemma compute_bins_length (values : list Q) :
  values <> [] ->
  Z.of_nat (List.length (compute_bins values (bin_count values))) = (bin_count values + 1)%Z.
Proof.
  intro Hne. pose proof (bin_count_bounds values) as Hb.
  unfold compute_bins. destruct values as [|v vs]; [contradiction|].
  rewrite force_increasing_length, !length_map, range_length. lia.
Qed.

Lemma sorted_nonempty (cells : list (option Q)) :
  dropna cells <> [] -> sort_values Qle_bool (dropna cells) <> [].
Proof.
  intros Hne Hnil. apply Hne. apply length_zero_iff_nil.
  rewrite <- (sort_values_length Qle_bool), Hnil. reflexivity.
Qed.

(** C10.  The rounding magnitude of [nice_number] is a power of ten with
    a natural exponent, so at least 1, and the result is a whole multiple
    of it; an edge above 0 and below one half becomes 0; and the edges
    [assign_colors_to_zones] returns for a column with a value are whole
    numbers: the column 0.2, 0.3, 0.4 gets the edges 0, 1, 2, 3, 4. *)
Theorem nice_number_whole_edges :
  (forall (x : Q) (round_to : Z),
      exists k n : Z,
        (0 <= k)%Z /\ magnitude x round_to = (10 ^ k)%Z
        /\ (1 <= magnitude x round_to)%Z
        /\ nice_number x round_to = (n * magnitude x round_to)%Z)
  /\ (forall x : Q, 0 < x -> x < 1 # 2 -> nice_number x 3 = 0%Z)
  /\ (forall (format_attribute_value : Z -> string -> string) (zones : GeoDataFrame)
             (col attribute_name : string) (cells : list (option Q)),
         get_column col (numeric_columns zones) = Some cells ->
         dropna cells <> [] ->
         exists zones' bins color_list,
           assign_colors_to_zones format_attribute_value zones col attribute_name
           = Ok (zones', bins, color_list)
           /\ Forall whole (map inject_Z bins))
  /\ compute_bins (sort_values Qle_bool [1 # 5; 3 # 10; 2 # 5]) 4 = [0; 1; 2; 3; 4]%Z.
Proof.
  split; [|split; [|split]].
  - intros x round_to. destruct (magnitude_power x round_to) as [k [Hk [Hm H1]]].
    exists k. unfold nice_number. destruct (Qeq_bool x 0).
    + exists 0%Z. repeat split; try assumption; try reflexivity.
    + eexists. repeat split; try eassumption; try reflexivity.
  - apply nice_number_below_half.
  - intros fmt zones col attr cells Hcol Hne.
    unfold assign_colors_to_zones, column. rewrite Hcol. simpl.
    do 3 eexists. split; [reflexivity|].
    apply Forall_forall. intros e He. apply in_map_iff in He.
    destruct He as [z [<- _]]. unfold whole. rewrite Qfloor_Z. reflexivity.
  - reflexivity.
Qed.

Lemma nice_number_whole_edges_witness : nice_number (1 # 4) 3 = 0%Z.
Proof.
  apply (proj1 (proj2 nice_number_whole_edges) (1 # 4)); reflexivity.
Defined.

(** ** The colour scheme always has its five keys *)

Lemma has_key_set (key k value : string) (d : scheme_dict) :
  key = k \/ has_key key d -> has_key key (scheme_set k value d).
Proof.
  unfold has_key. induction d as [|[k' v'] tl IH]; cbn [scheme_set scheme_get].
  - intros [->|[v H]]; [|discriminate]. rewrite String.eqb_refl. eauto.
  - intro H. destruct (String.eqb k' k) eqn:E; cbn [scheme_get].
    + destruct (String.eqb k' key) eqn:E2; [eauto|].
      destruct H as [->|H]; [congruence | exact H].
    + destruct (String.eqb k' key) eqn:E2; [eauto|]. apply IH, H.
Qed.

Lemma ensure_step_keeps (key req : string) (m : scheme_dict) :
  key = req \/ has_key key m ->
  has_key key
    (match scheme_get req m with
     | Some v => if String.eqb v "" then scheme_set req (default_color req) m else m
     | None => scheme_set req (default_color req) m
     end).
Proof.
  intro H. destruct (scheme_get req m) as [v|] eqn:E.
  - destruct (String.eqb v ""); [apply has_key_set, H|].
    destruct H as [->|H]; [exists v; exact E | exact H].
  - apply has_key_set, H.
Qed.

Lemma ensure_fold_keeps (key : string) (reqs : list string) (m : scheme_dict) :
  In key reqs \/ has_key key m ->
  has_key key
    (fold_left
       (fun m req =>
          match scheme_get req m with
          | Some v => if String.eqb v "" then scheme_set req (default_color req) m else m
          | None => scheme_set req (default_color req) m
          end) reqs m).
Proof.
  revert m. induction reqs as [|r tl IH]; intros m H; simpl.
  - destruct H as [[]|H]. exact H.
  - apply IH. destruct H as [[->|H]|H]; [right | left; exact H | right];
      apply ensure_step_keeps; auto.
Qed.

Lemma ensure_has_required (color_scheme : scheme_dict) (key : string) :
  In key required_keys -> has_key key (ensure_time_mapping_keys color_scheme).
Proof. intro H. unfold ensure_time_mapping_keys. apply ensure_fold_keeps. left. exact H. Qed.

Lemma scheme_item_required (color_scheme : scheme_dict) (key : string) :
  In key required_keys ->
  exists v, scheme_item (ensure_time_mapping_keys color_scheme) key = Ok v.
Proof.
  intro H. destruct (ensure_has_required color_scheme key H) as [v Hv].
  exists v. unfold scheme_item. rewrite Hv. reflexivity.
Qed.

(** [assign_time_mapping_colors] on a column with a value. *)
Lemma assign_time_mapping_colors_ok (zones_df : GeoDataFrame) (total_col : string)
    (color_scheme : scheme_dict) (cells : list (option Q)) :
  get_column total_col (numeric_columns zones_df) = Some cells ->
  dropna cells <> [] ->
  exists colors,
    let bins :=
      force_increasingQ
        (map (quantile (sort_values Qle_bool (dropna cells))) class_quantiles) in
    assign_time_mapping_colors zones_df total_col color_scheme
    = Ok (mkFrame (ZONE_ID zones_df) (numeric_columns zones_df)
                  (Some (map (assign_class_color bins colors) cells))
                  (Some (map (assign_class_label bins) cells)),
          bins, colors).
Proof.
  intros Hcol Hne. unfold assign_time_mapping_colors, column. rewrite Hcol.
  cbn [bind]. pose proof (sorted_nonempty cells Hne) as Hs.
  destruct (sort_values Qle_bool (dropna cells)) as [|v vs] eqn:Ev; [contradiction|].
  destruct (scheme_item_required color_scheme "60_plus") as [c0 H0]; [simpl; tauto|].
  destruct (scheme_item_required color_scheme "45_60") as [c1 H1]; [simpl; tauto|].
  destruct (scheme_item_required color_scheme "30_45") as [c2 H2]; [simpl; tauto|].
  destruct (scheme_item_required color_scheme "15_30") as [c3 H3]; [simpl; tauto|].
  destruct (scheme_item_required color_scheme "0_15") as [c4 H4]; [simpl; tauto|].
  rewrite H0, H1, H2, H3, H4. cbn [bind].
  exists [c0; c1; c2; c3; c4]. reflexivity.
Qed.

(** ** Zero and null are "No Access" *)

Lemma nth_error_map_some {A B : Type} (f : A -> B) (l : list A) (i : nat) (a : A) :
  nth_error l i = Some a -> nth_error (map f l) i = Some (f a).
Proof. intro H. rewrite nth_error_map, H. reflexivity. Qed.

Lemma assign_color_no_access (bins : list Z) (n : Z) (colors : list string)
    (val : option Q) :
  no_access val = true -> assign_color bins n colors val = NO_ACCESS_COLOR.
Proof. destruct val as [v|]; simpl; [intros ->|]; reflexivity. Qed.

Lemma assign_label_no_access (fmt : Z -> string -> string) (bins : list Z) (n : Z)
    (attr : string) (val : option Q) :
  no_access val = true -> assign_label fmt bins n attr val = NO_ACCESS_LABEL.
Proof. destruct val as [v|]; simpl; [intros ->|]; reflexivity. Qed.

Lemma assign_class_color_no_access (bins : list Q) (colors : list string)
    (val : option Q) :
  no_access val = true -> assign_class_color bins colors val = NO_ACCESS_COLOR.
Proof. destruct val as [v|]; simpl; [intros ->|]; reflexivity. Qed.

Lemma assign_class_label_no_access (bins : list Q) (val : option Q) :
  no_access val = true -> assign_class_label bins val = NO_ACCESS_LABEL.
Proof. destruct val as [v|]; simpl; [intros ->|]; reflexivity. Qed.

(** C7, as the code has it.  [assign_colors_to_zones] gives every zone
    whose cell is null or zero the colour #f0f0f0 and the label
    "No Access", whatever the bins; [assign_time_mapping_colors] does so
    whenever the column has a value that is not null. *)
Theorem no_access_overrides_bins :
  forall (format_attribute_value : Z -> string -> string) (zones : GeoDataFrame)
         (col attribute_name : string) (color_scheme : scheme_dict)
         (cells : list (option Q)),
    get_column col (numeric_columns zones) = Some cells ->
    (exists zones' bins color_list,
        assign_colors_to_zones format_attribute_value zones col attribute_name
        = Ok (zones', bins, color_list)
        /\ painted_no_access cells zones')
    /\ (dropna cells <> [] ->
        exists zones' bins colors,
          assign_time_mapping_colors zones col color_scheme = Ok (zones', bins, colors)
          /\ painted_no_access cells zones').
Proof.
  intros fmt zones col attr color_scheme cells Hcol. split.
  - unfold assign_colors_to_zones, column. rewrite Hcol. cbn [bind].
    do 3 eexists. split; [reflexivity|].
    do 2 eexists. cbn [color label]. split; [reflexivity|]. split; [reflexivity|].
    intros i val Hi Hna. split.
    + rewrite (nth_error_map_some _ _ _ _ Hi), assign_color_no_access by exact Hna.
      reflexivity.
    + rewrite (nth_error_map_some _ _ _ _ Hi), assign_label_no_access by exact Hna.
      reflexivity.
  - intro Hne.
    destruct (assign_time_mapping_colors_ok zones col color_scheme cells Hcol Hne)
      as [colors Hok].
    cbv zeta in Hok. rewrite Hok. do 3 eexists. split; [reflexivity|].
    do 2 eexists. cbn [color label]. split; [reflexivity|]. split; [reflexivity|].
    intros i val Hi Hna. split.
    + rewrite (nth_error_map_some _ _ _ _ Hi), assign_class_color_no_access by exact Hna.
      reflexivity.
    + rewrite (nth_error_map_some _ _ _ _ Hi), assign_class_label_no_access by exact Hna.
      reflexivity.
Qed.

(** ** Edges in increasing order and bins that do not overlap *)

Lemma bump_from_sorted (prev : Z) (rest : list Z) :
  Sorted Z.lt (prev :: bump_from prev rest).
Proof.
  revert prev. induction rest as [|b tl IH]; intro prev; simpl.
  - repeat constructor.
  - constructor; [apply IH|]. constructor.
    destruct (Z.leb_spec b prev); lia.
Qed.

Lemma force_increasing_sorted (bins : list Z) :
  StronglySorted Z.lt (force_increasing bins).
Proof.
  destruct bins as [|b tl]; simpl; [constructor|].
  apply Sorted_StronglySorted; [exact Z.lt_trans | apply bump_from_sorted].
Qed.

Lemma bump_fromQ_sorted (prev : Q) (rest : list Q) :
  Sorted Qlt (prev :: bump_fromQ prev rest).
Proof.
  revert prev. induction rest as [|b tl IH]; intro prev; simpl.
  - repeat constructor.
  - constructor; [apply IH|]. constructor.
    destruct (Qle_bool b prev) eqn:E; [lra|].
    apply Qnot_le_lt. intro H. apply Qle_bool_iff in H. congruence.
Qed.

Lemma force_increasingQ_sorted (bins : list Q) :
  StronglySorted Qlt (force_increasingQ bins).
Proof.
  destruct bins as [|b tl]; simpl; [constructor|].
  apply Sorted_StronglySorted; [exact Qlt_trans | apply bump_fromQ_sorted].
Qed.

Lemma bump_fromQ_length (prev : Q) (rest : list Q) :
  List.length (bump_fromQ prev rest) = List.length rest.
Proof.
  revert prev. induction rest as [|b tl IH]; intro prev; simpl; [reflexivity|].
  rewrite IH. reflexivity.
Qed.

Lemma inject_Z_sorted (l : list Z) :
  StronglySorted Z.lt l -> StronglySorted Qlt (map inject_Z l).
Proof.
  induction 1 as [|a tl _ IH Hall]; simpl; constructor; [exact IH|].
  apply Forall_map. eapply Forall_impl; [|exact Hall].
  intros b Hb. simpl. rewrite <- Zlt_Qlt. exact Hb.
Qed.

Lemma sorted_nth (l : list Q) :
  StronglySorted Qlt l ->
  forall i j : nat, (i < j < List.length l)%nat -> nth i l 0 < nth j l 0.
Proof.
  induction 1 as [|a tl _ IH Hall]; intros i j Hij; simpl in Hij; [lia|].
  destruct j as [|j]; [lia|]. destruct i as [|i]; simpl.
  - rewrite Forall_forall in Hall. apply Hall, nth_In. lia.
  - apply IH. lia.
Qed.

Lemma bin_test_lower (edges : list Q) (n : Z) (v : Q) (i : Z) :
  bin_test edges n v i = true -> nth (Z.to_nat i) edges 0 <= v.
Proof.
  unfold bin_test. destruct (i =? n - 1)%Z; intro H.
  - apply Qle_bool_iff, H.
  - apply andb_true_iff in H. apply Qle_bool_iff, H.
Qed.

Lemma bin_test_upper (edges : list Q) (n : Z) (v : Q) (i : Z) :
  i <> (n - 1)%Z -> bin_test edges n v i = true ->
  v < nth (Z.to_nat (i + 1)) edges 0.
Proof.
  unfold bin_test. intros Hi H. destruct (Z.eqb_spec i (n - 1)); [contradiction|].
  apply andb_true_iff in H. destruct H as [_ H]. unfold Qlt_bool in H.
  apply negb_true_iff in H. apply Qnot_le_lt. intro Hle.
  apply Qle_bool_iff in Hle. congruence.
Qed.

Lemma at_most_one_bin_of_sorted (edges : list Q) (n : Z) (v : Q) :
  StronglySorted Qlt edges ->
  List.length edges = S (Z.to_nat n) ->
  at_most_one_bin edges n v.
Proof.
  intros Hs Hlen.
  assert (Hlt : forall i j, (0 <= i < n)%Z -> (0 <= j < n)%Z -> (i < j)%Z ->
                            bin_test edges n v i = true ->
                            bin_test edges n v j = true -> False).
  { intros i j Hi Hj Hij Hbi Hbj.
    pose proof (bin_test_upper edges n v i ltac:(lia) Hbi) as Hup.
    pose proof (bin_test_lower edges n v j Hbj) as Hlo.
    destruct (Z.eq_dec (i + 1) j) as [E|E].
    - rewrite E in Hup. lra.
    - assert (nth (Z.to_nat (i + 1)) edges 0 < nth (Z.to_nat j) edges 0).
      { apply sorted_nth; [exact Hs | lia]. }
      lra. }
  intros i j Hi Hj Hbi Hbj.
  destruct (Z.lt_trichotomy i j) as [H|[H|H]]; [|exact H|]; exfalso; eauto.
Qed.

Lemma some_bin_from_first_edge (edges : list Q) (n : Z) (v : Q) :
  (1 <= n)%Z -> nth 0 edges 0 <= v ->
  exists i, (0 <= i < n)%Z /\ bin_test edges n v i = true.
Proof.
  intros Hn H0.
  assert (Hk : forall k : nat,
             (Z.of_nat k <= n - 1)%Z ->
             (exists i, (0 <= i < Z.of_nat k)%Z /\ bin_test edges n v i = true)
             \/ nth k edges 0 <= v).
  { induction k as [|k IH]; intro Hle; [right; exact H0|].
    destruct (IH ltac:(lia)) as [[i [Hi Hb]]|Hlo].
    - left. exists i. split; [lia | exact Hb].
    - destruct (Qlt_le_dec v (nth (S k) edges 0)) as [Hlt|Hge]; [|right; exact Hge].
      left. exists (Z.of_nat k). split; [lia|].
      unfold bin_test. destruct (Z.eqb_spec (Z.of_nat k) (n - 1)); [lia|].
      rewrite Nat2Z.id. replace (Z.to_nat (Z.of_nat k + 1)) with (S k) by lia.
      apply andb_true_iff. split; [apply Qle_bool_iff, Hlo|].
      unfold Qlt_bool. apply negb_true_iff. apply not_true_is_false.
      intro Hle'. apply Qle_bool_iff in Hle'. lra. }
  destruct (Hk (Z.to_nat (n - 1)) ltac:(lia)) as [[i [Hi Hb]]|Hlo].
  - exists i. split; [lia | exact Hb].
  - exists (n - 1)%Z. split; [lia|].
    unfold bin_test. rewrite Z.eqb_refl. apply Qle_bool_iff, Hlo.
Qed.

Lemma exactly_one_bin_of_sorted (edges : list Q) (n : Z) (v : Q) :
  StronglySorted Qlt edges ->
  List.length edges = S (Z.to_nat n) ->
  (1 <= n)%Z -> nth 0 edges 0 <= v ->
  exactly_one_bin edges n v.
Proof.
  intros Hs Hlen Hn H0.
  destruct (some_bin_from_first_edge edges n v Hn H0) as [i [Hi Hb]].
  exists i. split; [exact Hi|]. split; [exact Hb|].
  intros j Hj Hbj. apply (at_most_one_bin_of_sorted edges n v Hs Hlen); assumption.
Qed.

(** The first quantile is the smallest value. *)
Lemma quantile_zero (values : list Q) : quantile values 0 == nth 0 values 0.
Proof.
  unfold quantile.
  set (pos := 0 * inject_Z (Z.of_nat (List.length values) - 1)).
  assert (Hpos : pos == 0) by (unfold pos; ring).
  rewrite (Qfloor_comp pos 0 Hpos). change (Qfloor 0) with 0%Z.
  change (Z.to_nat 0) with 0%nat. change (inject_Z 0) with 0.
  rewrite Hpos. ring.
Qed.

Lemma Qle_bool_total (a b : Q) : Qle_bool a b = true \/ Qle_bool b a = true.
Proof.
  destruct (Qlt_le_dec b a) as [H|H]; [right | left]; apply Qle_bool_iff; lra.
Qed.

Lemma Qle_bool_trans (a b c : Q) :
  Qle_bool a b = true -> Qle_bool b c = true -> Qle_bool a c = true.
Proof. rewrite !Qle_bool_iff. apply Qle_trans. Qed.

Lemma sorted_first_is_least (l : list Q) (v : Q) :
  In v l -> nth 0 (sort_values Qle_bool l) 0 <= v.
Proof.
  intro Hin. apply (sort_values_In Qle_bool) in Hin.
  pose proof (sort_values_sorted Qle_bool Qle_bool_total Qle_bool_trans l) as Hs.
  destruct (sort_values Qle_bool l) as [|a tl]; [contradiction|]. simpl.
  destruct Hin as [<-|Hin]; [lra|].
  inversion Hs as [|x xs _ Hall]; subst. rewrite Forall_forall in Hall.
  apply Qle_bool_iff, Hall, Hin.
Qed.

Lemma In_dropna {A : Type} (cells : list (option A)) (a : A) :
  In (Some a) cells -> In a (dropna cells).
Proof.
  induction cells as [|[b|] tl IH]; simpl; [tauto| |].
  - intros [H|H]; [left; congruence | right; auto].
  - intros [H|H]; [discriminate | auto].
Qed.

(** C6, as the code has it.  On a column with a value both classifiers
    return edges in strictly increasing order.  In
    [assign_colors_to_zones] no value passes the membership test of two
    bins, and a value at or above the first edge passes exactly one; in
    [assign_time_mapping_colors], whose first edge is the smallest value,
    every value of the column passes exactly one. *)
Theorem bin_edges_increase_and_bins_are_disjoint :
  forall (format_attribute_value : Z -> string -> string) (zones : GeoDataFrame)
         (col attribute_name : string) (color_scheme : scheme_dict)
         (cells : list (option Q)),
    get_column col (numeric_columns zones) = Some cells ->
    dropna cells <> [] ->
    (exists zones' bins color_list,
        assign_colors_to_zones format_attribute_value zones col attribute_name
        = Ok (zones', bins, color_list)
        /\ StronglySorted Z.lt bins
        /\ forall val : Q,
            at_most_one_bin (map inject_Z bins) (Z.of_nat (List.length bins) - 1) val
            /\ (inject_Z (hd 0%Z bins) <= val ->
                exactly_one_bin (map inject_Z bins) (Z.of_nat (List.length bins) - 1) val))
    /\ (exists zones' bins colors,
           assign_time_mapping_colors zones col color_scheme = Ok (zones', bins, colors)
           /\ StronglySorted Qlt bins
           /\ forall val : Q, In (Some val) cells -> exactly_one_bin bins 5 val).
Proof.
  intros fmt zones col attr color_scheme cells Hcol Hne. split.
  - unfold assign_colors_to_zones, column. rewrite Hcol. cbn [bind].
    set (values := sort_values Qle_bool (dropna cells)).
    pose proof (sorted_nonempty cells Hne) as Hv. fold values in Hv.
    pose proof (compute_bins_length values Hv) as Hlen.
    pose proof (bin_count_bounds values) as Hb.
    set (bins := compute_bins values (bin_count values)) in *.
    assert (Hs : StronglySorted Z.lt bins).
    { unfold bins, compute_bins. destruct values; [contradiction|].
      apply force_increasing_sorted. }
    do 3 eexists. split; [reflexivity|]. split; [exact Hs|].
    assert (Hl : List.length (map inject_Z bins)
                 = S (Z.to_nat (Z.of_nat (List.length bins) - 1))).
    { rewrite length_map. lia. }
    intro val. split.
    + apply at_most_one_bin_of_sorted; [apply inject_Z_sorted, Hs | exact Hl].
    + intro H0. apply exactly_one_bin_of_sorted;
        [apply inject_Z_sorted, Hs | exact Hl | lia |].
      destruct bins; [simpl in Hlen; lia | exact H0].
  - destruct (assign_time_mapping_colors_ok zones col color_scheme cells Hcol Hne)
      as [colors Hok].
    cbv zeta in Hok. rewrite Hok. do 3 eexists. split; [reflexivity|].
    split; [apply force_increasingQ_sorted|].
    intros val Hin. apply exactly_one_bin_of_sorted.
    + apply force_increasingQ_sorted.
    + cbn [class_quantiles map force_increasingQ List.length].
      rewrite bump_fromQ_length. reflexivity.
    + lia.
    + cbn [class_quantiles map force_increasingQ nth].
      rewrite quantile_zero. apply sorted_first_is_least, In_dropna, Hin.
Qed.

Lemma bin_edges_increase_and_bins_are_disjoint_witness :
  (exists zones' bins color_list,
      assign_colors_to_zones Scenarios.plain_digits Scenarios.zones_outlier
                             "access_A" "Emp 2024"
      = Ok (zones', bins, color_list)
      /\ StronglySorted Z.lt bins
      /\ forall val : Q,
          at_most_one_bin (map inject_Z bins) (Z.of_nat (List.length bins) - 1) val
          /\ (inject_Z (hd 0%Z bins) <= val ->
              exactly_one_bin (map inject_Z bins) (Z.of_nat (List.length bins) - 1) val))
  /\ (exists zones' bins colors,
         assign_time_mapping_colors Scenarios.zones_outlier "access_A" []
         = Ok (zones', bins, colors)
         /\ StronglySorted Qlt bins
         /\ forall val : Q,
             In (Some val) [Some 0; Some 0; Some 5; Some 10; Some 15; Some 1000000] ->
             exactly_one_bin bins 5 val).
Proof.
  apply (bin_edges_increase_and_bins_are_disjoint
           Scenarios.plain_digits Scenarios.zones_outlier "access_A"%string
           "Emp 2024"%string []
           [Some 0; Some 0; Some 5; Some 10; Some 15; Some 1000000]).
  - reflexivity.
  - simpl. discriminate.
Defined.

(** C6, as stated, fails in [assign_colors_to_zones]: the only value
    1006 of a column is rounded up to the first edge 1010, and passes the
    membership test of no bin. *)
Lemma value_below_first_edge_is_in_no_bin :
  (exists zones' color_list,
      assign_colors_to_zones Scenarios.plain_digits Scenarios.zones_1006
                             "access_A" "Emp 2024"
      = Ok (zones', [1010; 1011; 1012; 1013; 1014]%Z, color_list))
  /\ forallb (fun i => negb (bin_test (map inject_Z [1010; 1011; 1012; 1013; 1014]%Z)
                                      4 1006 i))
             (range 4) = true.
Proof.
  split; [|reflexivity]. do 2 eexists. vm_compute. reflexivity.
Qed.

Lemma no_access_overrides_bins_witness :
  (exists zones' bins color_list,
      assign_colors_to_zones Scenarios.plain_digits Scenarios.zones_outlier
                             "access_A" "Emp 2024"
      = Ok (zones', bins, color_list)
      /\ painted_no_access [Some 0; Some 0; Some 5; Some 10; Some 15; Some 1000000] zones')
  /\ (dropna [Some 0; Some 0; Some 5; Some 10; Some 15; Some 1000000] <> [] ->
      exists zones' bins colors,
        assign_time_mapping_colors Scenarios.zones_outlier "access_A" []
        = Ok (zones', bins, colors)
        /\ painted_no_access [Some 0; Some 0; Some 5; Some 10; Some 15; Some 1000000]
                             zones').
Proof.
  apply (no_access_overrides_bins
           Scenarios.plain_digits Scenarios.zones_outlier "access_A"%string
           "Emp 2024"%string []
           [Some 0; Some 0; Some 5; Some 10; Some 15; Some 1000000]).
  reflexivity.
Defined.

(** C7, as stated, fails in [assign_time_mapping_colors] on a column
    without a value: the table comes back as it was, and its zone, whose
    cell is null, has no colour and no label. *)
Lemma all_null_column_is_left_unpainted :
  assign_time_mapping_colors Scenarios.zones_all_null "total_zones_15" []
  = Ok (Scenarios.zones_all_null, [], [])
  /\ color Scenarios.zones_all_null = None
  /\ label Scenarios.zones_all_null = None.
Proof. repeat split. Qed.

(** ** Exceptions *)

(** C8, as the code has it.  [color_zones_by_origin_travel_time] returns
    the zone table it was given whenever its guarded block raises.  The
    other two classifiers have no handler: what [zones[col]] raises,
    they raise. *)
Theorem only_travel_time_coloring_recovers :
  (forall (format_0f : Q -> string)
          (generate_dynamic_color_palette : scheme_dict -> Z -> result (list string))
          (zones_df : GeoDataFrame) (skim_df : list DataProcessing.skim_row)
          (origin_zone time_band : Z) (color_scheme : scheme_dict) (e : exn),
      color_zones_try format_0f generate_dynamic_color_palette
                      zones_df skim_df origin_zone time_band color_scheme = Err e ->
      color_zones_by_origin_travel_time format_0f generate_dynamic_color_palette
                      zones_df skim_df origin_zone time_band color_scheme = zones_df)
  /\ (forall (format_attribute_value : Z -> string -> string) (zones : GeoDataFrame)
             (col attribute_name : string) (e : exn),
         column zones col = Err e ->
         assign_colors_to_zones format_attribute_value zones col attribute_name = Err e)
  /\ (forall (zones_df : GeoDataFrame) (total_col : string) (color_scheme : scheme_dict)
             (e : exn),
         column zones_df total_col = Err e ->
         assign_time_mapping_colors zones_df total_col color_scheme = Err e).
Proof.
  split; [|split].
  - intros f0 pal zones_df skim_df o tb cs e H.
    unfold color_zones_by_origin_travel_time. rewrite H. reflexivity.
  - intros fmt zones col attr e H. unfold assign_colors_to_zones. rewrite H. reflexivity.
  - intros zones_df col cs e H. unfold assign_time_mapping_colors. rewrite H. reflexivity.
Qed.

Lemma only_travel_time_coloring_recovers_witness :
  color_zones_by_origin_travel_time Scenarios.plain_0f Scenarios.flat_palette
    Scenarios.zones3 Scenarios.skim3 1 0 [] = Scenarios.zones3.
Proof.
  apply (proj1 only_travel_time_coloring_recovers
               Scenarios.plain_0f Scenarios.flat_palette
               Scenarios.zones3 Scenarios.skim3 1%Z 0%Z [] OverflowError).
  reflexivity.
Defined.

(** C8, as stated, fails in [assign_colors_to_zones]: on a table without
    the column it is asked for, the [KeyError] reaches the caller. *)
Lemma missing_column_propagates :
  assign_colors_to_zones Scenarios.plain_digits Scenarios.zones3 "POP_2024" "Population"
  = Err (KeyError "POP_2024").
Proof. reflexivity. Qed.

End MapUtilsFacts.

(** * Further properties of the code *)

Module DataProcessingMore.
Import DataProcessing DataCleaning DataProcessingFacts.

(** ** The shape of a grouped table *)

Lemma strict_of_distinct (l : list Z) :
  StronglySorted (fun x y => (x <=? y)%Z = true) l -> NoDup l -> StronglySorted Z.lt l.
Proof.
  induction 1 as [|a tl _ IH Hall]; intro Hnd; [constructor|].
  apply NoDup_cons_iff in Hnd. destruct Hnd as [Hout Hnd].
  constructor; [auto|]. rewrite Forall_forall in Hall |- *.
  intros x Hx. specialize (Hall x Hx). apply Z.leb_le in Hall.
  assert (a <> x) by (intros ->; contradiction). lia.
Qed.

Lemma Zleb_total (a b : Z) : (a <=? b)%Z = true \/ (b <=? a)%Z = true.
Proof. rewrite !Z.leb_le. lia. Qed.

Lemma Zleb_trans (a b c : Z) :
  (a <=? b)%Z = true -> (b <=? c)%Z = true -> (a <=? c)%Z = true.
Proof. rewrite !Z.leb_le. lia. Qed.

Lemma group_keys_ascending (keys : list Z) : StronglySorted Z.lt (group_keys keys).
Proof.
  apply strict_of_distinct; [|apply group_keys_NoDup].
  unfold group_keys. apply sort_values_sorted; [exact Zleb_total | exact Zleb_trans].
Qed.

Lemma groupby_sum_keys (joined : list (Z * option Q)) :
  map fst (groupby_sum joined) = group_keys (map fst joined).
Proof.
  unfold groupby_sum. rewrite map_map. simpl. apply map_id.
Qed.

Lemma joined_origins (F : list skim_row) (D : destinations_frame) (o : Z) :
  In o (map fst (merge_destinations F D)) <->
  exists r d, In r F /\ In d D /\ origin_zone r = o /\ fst d = destination_zone r.
Proof.
  unfold merge_destinations. rewrite in_map_iff. split.
  - intros [[o' a] [Ho Hin]]. simpl in Ho. subst o'.
    apply in_flat_map in Hin. destruct Hin as [r [Hr Hin]].
    apply in_map_iff in Hin. destruct Hin as [d [Hd Hin]].
    apply filter_In in Hin. destruct Hin as [Hin Hk]. apply Z.eqb_eq in Hk.
    exists r, d. inversion Hd. auto.
  - intros [r [d [Hr [Hd [Ho Hk]]]]]. exists (o, snd d). split; [reflexivity|].
    apply in_flat_map. exists r. split; [exact Hr|].
    apply in_map_iff. exists d. split; [rewrite Ho; reflexivity|].
    apply filter_In. split; [exact Hd | apply Z.eqb_eq, Hk].
Qed.

(** X1.  The table a call of [calculate_accessibility] computes, when it
    is not answered from the cache, has one row per origin, in ascending
    order of the origin, and an origin has a row exactly when one of its
    skim rows within the limit leads to a zone of the zone table; an
    origin with no such row is absent.  The table is stored under the
    call's limit and attribute. *)
Theorem accessibility_has_one_row_per_reaching_origin :
  forall (cache : accessibility_cache) (skim_df : list skim_row) (zone_df : GeoDataFrame)
         (time_limit : Z) (attribute : string) (cells : list (option Q)),
    cache_get time_limit attribute cache = None ->
    get_column attribute (numeric_columns zone_df) = Some cells ->
    exists access,
      calculate_accessibility cache skim_df zone_df time_limit attribute
      = (Ok access, ((time_limit, attribute), access) :: cache)
      /\ StronglySorted Z.lt (map fst access)
      /\ forall origin,
          In origin (map fst access) <->
          exists r d,
            In r skim_df /\ In d (combine (ZONE_ID zone_df) cells)
            /\ origin_zone r = origin /\ fst d = destination_zone r
            /\ travel_time r <= inject_Z time_limit.
Proof.
  intros cache skim_df zone_df time_limit attribute cells Hmiss Hcol.
  rewrite (calculate_accessibility_miss _ _ _ _ _ Hmiss).
  rewrite (wrapped_on_column _ _ _ _ _ Hcol).
  eexists. split; [reflexivity|]. unfold accessibility_of.
  rewrite groupby_sum_keys. split; [apply group_keys_ascending|].
  intro origin. rewrite group_keys_In, joined_origins. unfold filter_skim.
  split.
  - intros [r [d [Hr [Hd [Ho Hk]]]]]. apply filter_In in Hr. destruct Hr as [Hr Ht].
    apply Qle_bool_iff in Ht. exists r, d. auto.
  - intros [r [d [Hr [Hd [Ho [Hk Ht]]]]]]. exists r, d.
    repeat split; try assumption. apply filter_In. split; [exact Hr|].
    apply Qle_bool_iff, Ht.
Qed.

Lemma accessibility_has_one_row_per_reaching_origin_witness :
  exists access,
    calculate_accessibility [] Scenarios.skim3 Scenarios.zones3 15 "jobs"
    = (Ok access, [((15%Z, "jobs"%string), access)])
    /\ StronglySorted Z.lt (map fst access)
    /\ forall origin,
        In origin (map fst access) <->
        exists r d,
          In r Scenarios.skim3
          /\ In d (combine (ZONE_ID Scenarios.zones3) [Some 100; Some 200; Some 300])
          /\ origin_zone r = origin /\ fst d = destination_zone r
          /\ travel_time r <= inject_Z 15.
Proof.
  apply (accessibility_has_one_row_per_reaching_origin
           [] Scenarios.skim3 Scenarios.zones3 15%Z "jobs"%string
           [Some 100; Some 200; Some 300]).
  - reflexivity.
  - reflexivity.
Defined.

(** ** Bounds on the accessible value *)

Lemma Qsum_map_le {A : Type} (f g : A -> Q) (l : list A) :
  (forall x, In x l -> f x <= g x) -> Qsum (map f l) <= Qsum (map g l).
Proof.
  induction l as [|a tl IH]; simpl; intro H; [lra|].
  assert (f a <= g a) by auto. assert (Qsum (map f tl) <= Qsum (map g tl)) by auto.
  lra.
Qed.

Lemma combine_sum_le (ids : list Z) (cells : list (option Q)) :
  (forall v, In (Some v) cells -> 0 <= v) ->
  Qsum (map (fun d => nan_to_zero (snd d)) (combine ids cells)) <= sum_skipna cells.
Proof.
  unfold sum_skipna. revert cells. induction ids as [|i ids IH]; intros cells Hpos.
  - simpl. apply (Qsum_map_nonneg nan_to_zero cells).
    intros [v|] Hv; simpl; [auto | lra].
  - destruct cells as [|c cells]; simpl; [lra|].
    assert (Qsum (map (fun d => nan_to_zero (snd d)) (combine ids cells))
            <= Qsum (map nan_to_zero cells)).
    { apply IH. intros v Hv. apply Hpos. right. exact Hv. }
    lra.
Qed.

Lemma destinations_nonneg (ids : list Z) (cells : list (option Q)) :
  (forall v, In (Some v) cells -> 0 <= v) ->
  forall d, In d (combine ids cells) -> 0 <= nan_to_zero (snd d).
Proof.
  intros Hpos [z [v|]] Hd; simpl; [|lra].
  apply Hpos. apply in_combine_r in Hd. exact Hd.
Qed.

Lemma Qeq_bool_false (a b : Q) : ~ a == b -> Qeq_bool a b = false.
Proof.
  intro H. destruct (Qeq_bool a b) eqn:E; [|reflexivity].
  apply Qeq_bool_iff in E. contradiction.
Qed.

(** X2.  With non-negative attribute values and a zone-level skim, the
    value a computing call gives an origin lies between 0 and the total
    of the attribute over the zone table.  The percentage app.py derives
    from it is a whole number from 0 to 100 when the total is above 0;
    when the total is 0 the value is 0 as well and the cell is 0/0, not a
    number. *)
Theorem accessible_value_within_total :
  forall (cache : accessibility_cache) (skim_df : list skim_row) (zone_df : GeoDataFrame)
         (time_limit : Z) (attribute : string) (cells : list (option Q)) (origin : Z),
    cache_get time_limit attribute cache = None ->
    get_column attribute (numeric_columns zone_df) = Some cells ->
    (forall v, In (Some v) cells -> 0 <= v) ->
    NoDup (map zone_pair skim_df) ->
    exists access cache',
      calculate_accessibility cache skim_df zone_df time_limit attribute
      = (Ok access, cache')
      /\ 0 <= accessible_value access origin
      /\ accessible_value access origin <= total_attribute cells
      /\ (0 < total_attribute cells ->
          exists p,
            access_pct (accessible_value access origin) (total_attribute cells)
            = Percent p
            /\ (0 <= p <= 100)%Z)
      /\ (total_attribute cells == 0 ->
          access_pct (accessible_value access origin) (total_attribute cells)
          = NotANumber).
Proof.
  intros cache skim_df zone_df time_limit attribute cells origin Hmiss Hcol Hpos Hnd.
  rewrite (calculate_accessibility_miss _ _ _ _ _ Hmiss).
  rewrite (wrapped_on_column _ _ _ _ _ Hcol).
  do 2 eexists. split; [reflexivity|].
  pose proof (destinations_nonneg (ZONE_ID zone_df) cells Hpos) as Hd.
  assert (H0 : 0 <= accessible_value
                      (accessibility_of skim_df (combine (ZONE_ID zone_df) cells) time_limit)
                      origin).
  { rewrite (accessibility_of_reachable _ _ _ _ Hnd). unfold reachable_attribute_sum.
    apply Qsum_map_nonneg. intros d Hin.
    destruct (reaches skim_df origin time_limit (fst d)); [auto | lra]. }
  assert (H1 : accessible_value
                 (accessibility_of skim_df (combine (ZONE_ID zone_df) cells) time_limit)
                 origin
               <= total_attribute cells).
  { rewrite (accessibility_of_reachable _ _ _ _ Hnd). unfold reachable_attribute_sum.
    eapply Qle_trans; [|apply combine_sum_le, Hpos].
    apply Qsum_map_le. intros d Hin. specialize (Hd d Hin).
    destruct (reaches skim_df origin time_limit (fst d)); lra. }
  set (value := accessible_value _ origin) in *.
  set (total := total_attribute cells) in *.
  split; [exact H0|]. split; [exact H1|]. split.
  - intro Ht. unfold access_pct. rewrite Qeq_bool_false by lra.
    eexists. split; [reflexivity|]. apply py_round_between.
    + change (inject_Z 0) with 0. apply Qmult_le_0_compat; [|lra].
      apply Qle_shift_div_l; [exact Ht | lra].
    + change (inject_Z 100) with 100.
      assert (Hq : value / total <= 1) by (apply Qle_shift_div_r; [exact Ht | lra]).
      lra.
  - intro Ht. unfold access_pct.
    assert (Et : Qeq_bool total 0 = true) by (apply Qeq_bool_iff; exact Ht).
    assert (Ev : Qeq_bool value 0 = true) by (apply Qeq_bool_iff; lra).
    rewrite Et, Ev. reflexivity.
Qed.

Lemma accessible_value_within_total_witness :
  exists access cache',
    calculate_accessibility [] Scenarios.skim3 Scenarios.zones3 15 "jobs"
    = (Ok access, cache')
    /\ 0 <= accessible_value access 1
    /\ accessible_value access 1 <= total_attribute [Some 100; Some 200; Some 300]
    /\ (0 < total_attribute [Some 100; Some 200; Some 300] ->
        exists p,
          access_pct (accessible_value access 1)
                     (total_attribute [Some 100; Some 200; Some 300])
          = Percent p
          /\ (0 <= p <= 100)%Z)
    /\ (total_attribute [Some 100; Some 200; Some 300] == 0 ->
        access_pct (accessible_value access 1)
                   (total_attribute [Some 100; Some 200; Some 300])
        = NotANumber).
Proof.
  apply (accessible_value_within_total [] Scenarios.skim3 Scenarios.zones3 15%Z
           "jobs"%string [Some 100; Some 200; Some 300] 1%Z).
  - reflexivity.
  - reflexivity.
  - simpl. intros v [H|[H|[H|[]]]]; inversion H; subst; discriminate.
  - simpl. solve_NoDup.
Defined.

Lemma reaches_iff (skim_df : list skim_row) (o time_limit k : Z) :
  reaches skim_df o time_limit k = true <->
  exists r, In r skim_df /\ zone_pair r = (o, k) /\ travel_time r <= inject_Z time_limit.
Proof.
  unfold reaches. rewrite existsb_exists. split.
  - intros [r [Hr H]]. apply andb_true_iff in H. destruct H as [H Ht].
    apply andb_true_iff in H. destruct H as [Ho Hk].
    apply Z.eqb_eq in Ho, Hk. apply Qle_bool_iff in Ht.
    exists r. unfold zone_pair. split; [exact Hr|]. split; [congruence | exact Ht].
  - intros [r [Hr [Hp Ht]]]. exists r. split; [exact Hr|].
    unfold zone_pair in Hp. inversion Hp.
    rewrite !Z.eqb_refl. simpl. apply Qle_bool_iff, Ht.
Qed.

(** X3.  A call with the limit and attribute of a call that has just
    returned a table is answered with that table, whatever skim and zone
    table it is given.  In [process_accessibility_data] the scenario call
    follows the base call with the same two values, so [access_B] is
    [access_A] and the [delta] column is 0 for every zone. *)
Theorem scenario_call_is_answered_with_the_base_table :
  forall (cache cache1 : accessibility_cache) (base_skim scenario_skim : list skim_row)
         (zones zones_merged : GeoDataFrame) (time_threshold : Z)
         (selected_attribute : string) (access_a : list (Z * Q)),
    calculate_accessibility cache base_skim zones time_threshold selected_attribute
    = (Ok access_a, cache1) ->
    exists access_b,
      calculate_accessibility cache1 scenario_skim zones_merged
                              time_threshold selected_attribute
      = (Ok access_b, cache1)
      /\ access_b = access_a
      /\ forall zone, delta access_a access_b zone == 0.
Proof.
  intros cache cache1 base scen zones zones' t attr access_a Hbase.
  pose proof (returned_table_is_cached _ _ _ _ _ _ _ Hbase) as Hhit.
  exists access_a. unfold calculate_accessibility. rewrite Hhit.
  split; [reflexivity|]. split; [reflexivity|].
  intro zone. unfold delta. ring.
Qed.

Lemma scenario_call_is_answered_with_the_base_table_witness :
  exists access_b,
    calculate_accessibility
      [((15%Z, "jobs"%string), [(1%Z, 200); (2%Z, 100)])]
      [mkSkimRow 1 2 8; mkSkimRow 1 3 14; mkSkimRow 2 1 10; mkSkimRow 3 1 9]
      Scenarios.zones3 15 "jobs"
    = (Ok access_b, [((15%Z, "jobs"%string), [(1%Z, 200); (2%Z, 100)])])
    /\ access_b = [(1%Z, 200); (2%Z, 100)]
    /\ forall zone, delta [(1%Z, 200); (2%Z, 100)] access_b zone == 0.
Proof.
  apply (scenario_call_is_answered_with_the_base_table
           [] [((15%Z, "jobs"%string), [(1%Z, 200); (2%Z, 100)])]
           Scenarios.skim3
           [mkSkimRow 1 2 8; mkSkimRow 1 3 14; mkSkimRow 2 1 10; mkSkimRow 3 1 9]
           Scenarios.zones3 Scenarios.zones3 15%Z "jobs"%string).
  reflexivity.
Defined.

(** ** The aggregated skim *)

Lemma cleaned_row_time (df : list node_row) (m : node_mapping) (row : skim_row) :
  In row (clean_zones (merge_destination (merge_origin df m) m)) ->
  in_int32 (origin_zone row) /\ in_int32 (destination_zone row)
  /\ exists r, In r df /\ travel_time row = node_travel_time r.
Proof.
  rewrite cleaned_rows_flat_map. intro H. apply in_flat_map in H.
  destruct H as [r [Hr H]]. unfold clean_zones in H. apply in_flat_map in H.
  destruct H as [[[r' oz] dz] [Hx H]]. simpl in H.
  assert (Hr' : r' = r).
  { unfold merge_destination in Hx. apply in_flat_map in Hx.
    destruct Hx as [[r1 o1] [H1 Hx]]. apply in_map_iff in Hx.
    destruct Hx as [e [He _]]. inversion He; subst.
    unfold merge_origin in H1. simpl in H1. rewrite app_nil_r in H1.
    apply in_map_iff in H1. destruct H1 as [e' [He' _]]. inversion He'. reflexivity. }
  subst r'. destruct oz as [o|]; [|contradiction]. destruct dz as [d|]; [|contradiction].
  destruct H as [<-|[]]. simpl.
  assert (Hrange : forall z, in_int32 (astype_int32 z)).
  { intro z. unfold in_int32, astype_int32.
    pose proof (Z.mod_pos_bound (z + 2 ^ 31) (2 ^ 32) ltac:(lia)). lia. }
  split; [apply Hrange|]. split; [apply Hrange|]. exists r. auto.
Qed.

Lemma Qsum_bounds (l : list Q) (lo hi : Q) :
  (forall x, In x l -> lo <= x /\ x <= hi) ->
  lo * inject_Z (Z.of_nat (List.length l)) <= Qsum l
  /\ Qsum l <= hi * inject_Z (Z.of_nat (List.length l)).
Proof.
  induction l as [|a tl IH]; intro H.
  - simpl. change (inject_Z 0) with 0. lra.
  - destruct (H a (or_introl eq_refl)) as [Ha1 Ha2].
    destruct (IH (fun x Hx => H x (or_intror Hx))) as [H1 H2].
    cbn [List.length Qsum fold_right]. rewrite Nat2Z.inj_succ. unfold Z.succ.
    rewrite inject_Z_plus. change (inject_Z 1) with 1. fold (Qsum tl). lra.
Qed.

Lemma mean_bounds (l : list Q) (lo hi : Q) :
  l <> [] -> (forall x, In x l -> lo <= x /\ x <= hi) ->
  lo <= mean l /\ mean l <= hi.
Proof.
  intros Hne H. destruct (Qsum_bounds l lo hi H) as [H1 H2]. unfold mean.
  assert (Hn : 0 < inject_Z (Z.of_nat (List.length l))).
  { change 0 with (inject_Z 0). rewrite <- Zlt_Qlt.
    destruct l; [contradiction | simpl; lia]. }
  split.
  - apply Qle_shift_div_l; assumption.
  - apply Qle_shift_div_r; assumption.
Qed.

Lemma aggregate_skim_row_bounds (df : list node_row) (m : node_mapping)
    (row : skim_row) (lo hi : Q) :
  (forall r, In r df -> lo <= node_travel_time r /\ node_travel_time r <= hi) ->
  In row (aggregate_skim df m) ->
  lo <= travel_time row /\ travel_time row <= hi.
Proof.
  intros Hb Hin. unfold aggregate_skim, groupby_mean in Hin.
  apply in_map_iff in Hin. destruct Hin as [k [<- Hk]]. simpl.
  set (rows := clean_zones (merge_destination (merge_origin df m) m)) in *.
  rewrite group_keys2_In in Hk. apply in_map_iff in Hk. destruct Hk as [x [Hx Hin]].
  apply mean_bounds.
  - intro Hnil.
    assert (Hf : In x (filter (fun r => pair_eqb (zone_pair r) k) rows)).
    { apply filter_In. split; [exact Hin | apply pair_eqb_eq, Hx]. }
    apply (in_map travel_time) in Hf. rewrite Hnil in Hf. exact Hf.
  - intros t Ht. apply in_map_iff in Ht. destruct Ht as [y [<- Hy]].
    apply filter_In in Hy. destruct Hy as [Hy _].
    apply cleaned_row_time in Hy. destruct Hy as [_ [_ [r [Hr ->]]]]. apply Hb, Hr.
Qed.

(** X4.  Every travel time of the aggregated skim lies between any two
    bounds that hold for all raw travel times; in particular raw times
    that are not negative aggregate to times that are not negative.  This
    holds for both loaders and for any mapping. *)
Theorem aggregated_time_within_raw_bounds :
  forall (df : list node_row) (node_to_zone_df : node_mapping) (skim : list skim_row)
         (row : skim_row) (lo hi : Q),
    (forall r, In r df -> lo <= node_travel_time r /\ node_travel_time r <= hi) ->
    load_uploaded_skim df node_to_zone_df = Some skim
    \/ load_base_skim df node_to_zone_df = Ok skim ->
    In row skim ->
    lo <= travel_time row /\ travel_time row <= hi.
Proof.
  intros df m skim row lo hi Hb Hload Hin. destruct Hload as [H|H].
  - unfold load_uploaded_skim in H. inversion H; subst.
    eapply aggregate_skim_row_bounds; eassumption.
  - unfold load_base_skim in H. destruct (existsb _ m); [discriminate|].
    inversion H; subst. eapply aggregate_skim_row_bounds; eassumption.
Qed.

Lemma aggregated_time_within_raw_bounds_witness :
  4 <= travel_time (mkSkimRow 10 20 (12 # 2))
  /\ travel_time (mkSkimRow 10 20 (12 # 2)) <= 8.
Proof.
  apply (aggregated_time_within_raw_bounds
           [mkNodeRow 1 3 4; mkNodeRow 2 3 8; mkNodeRow 99 1 5]
           [(1%Z, Some 10%Z); (2%Z, Some 10%Z); (3%Z, Some 20%Z)]
           [mkSkimRow 10 20 (12 # 2)] (mkSkimRow 10 20 (12 # 2)) 4 8).
  - simpl. intros r [<-|[<-|[<-|[]]]]; simpl; split; discriminate.
  - left. reflexivity.
  - left. reflexivity.
Defined.

Lemma pair_leb_total (a b : Z * Z) : pair_leb a b = true \/ pair_leb b a = true.
Proof.
  unfold pair_leb. destruct a as [a1 a2], b as [b1 b2]. simpl.
  rewrite !orb_true_iff, !andb_true_iff, !Z.ltb_lt, !Z.eqb_eq, !Z.leb_le. lia.
Qed.

Lemma pair_leb_trans (a b c : Z * Z) :
  pair_leb a b = true -> pair_leb b c = true -> pair_leb a c = true.
Proof.
  unfold pair_leb. destruct a as [a1 a2], b as [b1 b2], c as [c1 c2]. simpl.
  rewrite !orb_true_iff, !andb_true_iff, !Z.ltb_lt, !Z.eqb_eq, !Z.leb_le. lia.
Qed.

Lemma pairs_strict_of_distinct (l : list (Z * Z)) :
  StronglySorted (fun x y => pair_leb x y = true) l -> NoDup l ->
  StronglySorted pair_lt l.
Proof.
  induction 1 as [|a tl _ IH Hall]; intro Hnd; [constructor|].
  apply NoDup_cons_iff in Hnd. destruct Hnd as [Hout Hnd].
  constructor; [auto|]. rewrite Forall_forall in Hall |- *.
  intros x Hx. specialize (Hall x Hx).
  assert (Hne : a <> x) by (intros ->; contradiction).
  unfold pair_leb in Hall. unfold pair_lt. destruct a as [a1 a2], x as [x1 x2].
  simpl in *. rewrite orb_true_iff, andb_true_iff, Z.ltb_lt, Z.eqb_eq, Z.leb_le in Hall.
  destruct Hall as [H|[H1 H2]]; [left; exact H|]. right. split; [exact H1|].
  assert (a2 <> x2) by congruence. lia.
Qed.

Lemma aggregate_skim_shape (df : list node_row) (m : node_mapping) :
  StronglySorted pair_lt (map zone_pair (aggregate_skim df m))
  /\ forall row, In row (aggregate_skim df m) ->
                 in_int32 (origin_zone row) /\ in_int32 (destination_zone row).
Proof.
  unfold aggregate_skim.
  set (rows := clean_zones (merge_destination (merge_origin df m) m)).
  assert (Hkeys : map zone_pair (groupby_mean rows) = group_keys2 (map zone_pair rows)).
  { unfold groupby_mean. rewrite map_map. unfold zone_pair at 1. simpl.
    rewrite <- (map_id (group_keys2 _)) at 2. apply map_ext. intros [a b]. reflexivity. }
  split.
  - rewrite Hkeys. apply pairs_strict_of_distinct; [|apply group_keys2_NoDup].
    unfold group_keys2. apply sort_values_sorted; [exact pair_leb_total | exact pair_leb_trans].
  - intros row Hin. apply (in_map zone_pair) in Hin. rewrite Hkeys in Hin.
    rewrite group_keys2_In in Hin. apply in_map_iff in Hin. destruct Hin as [x [Hx Hin]].
    apply cleaned_row_time in Hin. unfold zone_pair in Hx. inversion Hx.
    destruct Hin as [Ho [Hd _]]. split; congruence.
Qed.

(** X5.  The rows of the aggregated skim come in ascending order of
    (origin_zone, destination_zone), and both zone ids of every row are
    in the range of a 32-bit integer, for both loaders and any mapping. *)
Theorem aggregated_skim_is_ordered_int32 :
  forall (df : list node_row) (node_to_zone_df : node_mapping) (skim : list skim_row),
    load_uploaded_skim df node_to_zone_df = Some skim
    \/ load_base_skim df node_to_zone_df = Ok skim ->
    StronglySorted pair_lt (map zone_pair skim)
    /\ forall row, In row skim ->
                   in_int32 (origin_zone row) /\ in_int32 (destination_zone row).
Proof.
  intros df m skim [H|H].
  - unfold load_uploaded_skim in H. inversion H; subst. apply aggregate_skim_shape.
  - unfold load_base_skim in H. destruct (existsb _ m); [discriminate|].
    inversion H; subst. apply aggregate_skim_shape.
Qed.

Lemma aggregated_skim_is_ordered_int32_witness :
  StronglySorted pair_lt (map zone_pair [mkSkimRow 10 20 (12 # 2)])
  /\ forall row, In row [mkSkimRow 10 20 (12 # 2)] ->
                 in_int32 (origin_zone row) /\ in_int32 (destination_zone row).
Proof.
  apply (aggregated_skim_is_ordered_int32
           [mkNodeRow 1 3 4; mkNodeRow 2 3 8; mkNodeRow 99 1 5]
           [(1%Z, Some 10%Z); (2%Z, Some 10%Z); (3%Z, Some 20%Z)]
           [mkSkimRow 10 20 (12 # 2)]).
  left. reflexivity.
Defined.

(** ** Cleaning the zone table *)

Lemma clip_lower_0_nonneg (c : option Q) (v : Q) : clip_lower_0 c = Some v -> 0 <= v.
Proof.
  destruct c as [x|]; simpl; [|discriminate]. intro H. inversion H; subst.
  destruct (Qle_bool 0 x) eqn:E; [apply Qle_bool_iff, E | lra].
Qed.

Lemma clip_lower_0_idem (c : option Q) : clip_lower_0 (clip_lower_0 c) = clip_lower_0 c.
Proof.
  destruct c as [x|]; simpl; [|reflexivity].
  destruct (Qle_bool 0 x) eqn:E; [rewrite E|]; reflexivity.
Qed.

Lemma clip_lower_0_keeps (v : Q) : 0 <= v -> clip_lower_0 (Some v) = Some v.
Proof. intro H. simpl. apply Qle_bool_iff in H. rewrite H. reflexivity. Qed.

Lemma cleaned_column (dtypes : string -> dtype) (zones_df : GeoDataFrame) (col : string) :
  get_column col (numeric_columns (validate_and_clean_data dtypes zones_df))
  = option_map (fun cells =>
                  if selected (dtypes col)
                  then if String.eqb col "ZONE_ID" then cells
                       else map clip_lower_0 cells
                  else cells)
               (get_column col (numeric_columns zones_df)).
Proof.
  unfold validate_and_clean_data. cbn [numeric_columns].
  induction (numeric_columns zones_df) as [|[n c] tl IH]; [reflexivity|].
  cbn [map fst snd get_column].
  destruct (String.eqb_spec n col) as [E|E].
  - subst n. destruct (selected (dtypes col)); cbn [get_column fst snd].
    + destruct (String.eqb col "ZONE_ID"); cbn [get_column fst snd];
        rewrite String.eqb_refl; reflexivity.
    + rewrite String.eqb_refl. reflexivity.
  - apply String.eqb_neq in E.
    destruct (selected (dtypes n)); cbn [get_column fst snd].
    + destruct (String.eqb n "ZONE_ID"); cbn [get_column fst snd];
        rewrite E; exact IH.
    + rewrite E. exact IH.
Qed.

(** X6.  [validate_and_clean_data] leaves no negative value in a column
    of dtype int64 or float64 other than ZONE_ID, and leaves a column of
    any other dtype, int32 included, as it is.  It keeps the zone ids, the
    values that are not negative and the nulls where they are, and
    cleaning a cleaned table changes nothing. *)
Theorem cleaning_removes_negative_values :
  forall (dtypes : string -> dtype) (zones_df : GeoDataFrame),
    ZONE_ID (validate_and_clean_data dtypes zones_df) = ZONE_ID zones_df
    /\ (forall col cells v,
           selected (dtypes col) = true ->
           col <> "ZONE_ID"%string ->
           get_column col (numeric_columns (validate_and_clean_data dtypes zones_df))
           = Some cells ->
           In (Some v) cells -> 0 <= v)
    /\ (forall col,
           selected (dtypes col) = false ->
           get_column col (numeric_columns (validate_and_clean_data dtypes zones_df))
           = get_column col (numeric_columns zones_df))
    /\ (forall col cells,
           get_column col (numeric_columns zones_df) = Some cells ->
           exists cleaned,
             get_column col (numeric_columns (validate_and_clean_data dtypes zones_df))
             = Some cleaned
             /\ List.length cleaned = List.length cells
             /\ forall i c, nth_error cells i = Some c ->
                            (c = None \/ (exists v, c = Some v /\ 0 <= v)) ->
                            nth_error cleaned i = Some c)
    /\ validate_and_clean_data dtypes (validate_and_clean_data dtypes zones_df)
       = validate_and_clean_data dtypes zones_df.
Proof.
  intros dtypes zones_df. split; [reflexivity|]. split; [|split; [|split]].
  - intros col cells v Hsel Hcol Hget Hin. rewrite cleaned_column, Hsel in Hget.
    destruct (get_column col (numeric_columns zones_df)) as [raw|]; [|discriminate].
    simpl in Hget. destruct (String.eqb_spec col "ZONE_ID"); [contradiction|].
    inversion Hget; subst. apply in_map_iff in Hin. destruct Hin as [c [Hc _]].
    apply (clip_lower_0_nonneg c v Hc).
  - intros col Hsel. rewrite cleaned_column, Hsel.
    destruct (get_column col (numeric_columns zones_df)); reflexivity.
  - intros col cells Hget. rewrite cleaned_column, Hget. simpl.
    destruct (selected (dtypes col)); [|exists cells; repeat split; auto].
    destruct (String.eqb col "ZONE_ID").
    + exists cells. repeat split; auto.
    + exists (map clip_lower_0 cells). split; [reflexivity|].
      split; [apply length_map|]. intros i c Hi Hc.
      rewrite nth_error_map, Hi. simpl. f_equal.
      destruct Hc as [->|[v [-> Hv]]]; [reflexivity | apply clip_lower_0_keeps, Hv].
  - unfold validate_and_clean_data. cbn [ZONE_ID numeric_columns color label]. f_equal.
    rewrite map_map. apply map_ext. intros [n c]. cbn [fst snd].
    destruct (selected (dtypes n)) eqn:Es; cbn [fst snd]; [|rewrite Es; reflexivity].
    destruct (String.eqb n "ZONE_ID") eqn:E; cbn [fst snd]; rewrite Es, E; [reflexivity|].
    f_equal. rewrite map_map. apply map_ext, clip_lower_0_idem.
Qed.

Lemma cleaning_removes_negative_values_witness :
  get_column "jobs"
    (numeric_columns
       (validate_and_clean_data
          (fun _ => int64)
          (mkFrame [1; 2]%Z [("jobs"%string, [Some (-5); Some 7])] None None)))
  = Some [Some 0; Some 7]
  /\ 0 <= 7.
Proof.
  split; [reflexivity|].
  apply (proj1 (proj2 (cleaning_removes_negative_values
                         (fun _ => int64)
                         (mkFrame [1; 2]%Z [("jobs"%string, [Some (-5); Some 7])]
                                  None None)))
               "jobs"%string [Some 0; Some 7] 7).
  - reflexivity.
  - discriminate.
  - reflexivity.
  - right. left. reflexivity.
Defined.

(** X7.  On a table that went through [validate_and_clean_data], for an
    attribute column of dtype int64 or float64 and two thresholds without
    an entry in the cache, the accessible value of every origin is at
    least 0 and does not decrease when the threshold is raised, whatever
    values the table was loaded with. *)
Theorem accessibility_on_cleaned_table_is_monotone :
  forall (cache : accessibility_cache) (dtypes : string -> dtype)
         (skim_df : list skim_row) (zones_df : GeoDataFrame) (attribute : string)
         (cells : list (option Q)) (time_limit time_limit2 : Z) (origin : Z),
    cache_get time_limit attribute cache = None ->
    cache_get time_limit2 attribute cache = None ->
    selected (dtypes attribute) = true ->
    attribute <> "ZONE_ID"%string ->
    get_column attribute (numeric_columns zones_df) = Some cells ->
    (time_limit <= time_limit2)%Z ->
    exists access access2 cache1 cache2,
      calculate_accessibility cache skim_df (validate_and_clean_data dtypes zones_df)
                              time_limit attribute = (Ok access, cache1)
      /\ calculate_accessibility cache1 skim_df (validate_and_clean_data dtypes zones_df)
                                 time_limit2 attribute = (Ok access2, cache2)
      /\ 0 <= accessible_value access origin
      /\ accessible_value access origin <= accessible_value access2 origin.
Proof.
  intros cache dtypes skim_df zones_df attribute cells L1 L2 origin
         Hm1 Hm2 Hsel Hname Hcol Hle.
  assert (Hclean : get_column attribute
                     (numeric_columns (validate_and_clean_data dtypes zones_df))
                   = Some (map clip_lower_0 cells)).
  { rewrite cleaned_column, Hcol, Hsel. simpl.
    destruct (String.eqb_spec attribute "ZONE_ID"); [contradiction | reflexivity]. }
  assert (Hpos : forall d, In d (combine (ZONE_ID zones_df) (map clip_lower_0 cells)) ->
                           0 <= nan_to_zero (snd d)).
  { apply destinations_nonneg. intros v Hv. apply in_map_iff in Hv.
    destruct Hv as [c [Hc _]]. apply (clip_lower_0_nonneg c v Hc). }
  rewrite (calculate_accessibility_miss _ _ _ _ _ Hm1).
  rewrite (wrapped_on_column _ _ _ _ _ Hclean).
  change (ZONE_ID (validate_and_clean_data dtypes zones_df)) with (ZONE_ID zones_df).
  assert (H0 : 0 <= accessible_value
                      (accessibility_of skim_df
                         (combine (ZONE_ID zones_df) (map clip_lower_0 cells)) L1)
                      origin).
  { rewrite accessible_value_rows. apply Qsum_map_nonneg.
    intros r _. apply attribute_at_nonneg, Hpos. }
  destruct (Z.eq_dec L1 L2) as [E|E]; do 4 eexists; (split; [reflexivity|]).
  - subst L2. unfold calculate_accessibility. rewrite cache_get_stored.
    split; [reflexivity|]. split; [exact H0 | apply Qle_refl].
  - rewrite (calculate_accessibility_miss _ _ _ L2)
      by (rewrite cache_get_other by exact E; exact Hm2).
    rewrite (wrapped_on_column _ _ _ _ _ Hclean).
    change (ZONE_ID (validate_and_clean_data dtypes zones_df)) with (ZONE_ID zones_df).
    split; [reflexivity|]. split; [exact H0|].
    apply accessibility_of_monotone; assumption.
Qed.

Lemma accessibility_on_cleaned_table_is_monotone_witness :
  exists access access2 cache1 cache2,
    calculate_accessibility [] Scenarios.skim3
      (validate_and_clean_data
         (fun _ => float64)
         (mkFrame [1; 2; 3]%Z [("jobs"%string, [Some 100; Some (-200); Some 300])]
                  None None)) 15 "jobs" = (Ok access, cache1)
    /\ calculate_accessibility cache1 Scenarios.skim3
         (validate_and_clean_data
            (fun _ => float64)
            (mkFrame [1; 2; 3]%Z [("jobs"%string, [Some 100; Some (-200); Some 300])]
                     None None)) 30 "jobs" = (Ok access2, cache2)
    /\ 0 <= accessible_value access 1
    /\ accessible_value access 1 <= accessible_value access2 1.
Proof.
  apply (accessibility_on_cleaned_table_is_monotone [] (fun _ => float64)
           Scenarios.skim3
           (mkFrame [1; 2; 3]%Z [("jobs"%string, [Some 100; Some (-200); Some 300])]
                    None None)
           "jobs"%string [Some 100; Some (-200); Some 300] 15%Z 30%Z 1%Z).
  - reflexivity.
  - reflexivity.
  - reflexivity.
  - discriminate.
  - reflexivity.
  - lia.
Defined.

(** ** The band tables *)

Lemma time_bands_entry_origin (skim_df : list skim_row) (time_band : Z)
    (e : string * list (Z * Z)) :
  In e (calculate_time_band_accessibility skim_df time_band) ->
  exists i, In i [1; 2; 3; 4; 5]%Z
            /\ e = (band_name (fst (band_limits time_band i)) (snd (band_limits time_band i)),
                    band_table skim_df (fst (band_limits time_band i))
                               (snd (band_limits time_band i))).
Proof.
  unfold calculate_time_band_accessibility.
  set (step := fun time_bands i => _).
  assert (Hfold : forall (indices : list Z) d,
             In e (fold_left step indices d) ->
             In e d
             \/ exists i, In i indices
                          /\ e = (band_name (fst (band_limits time_band i))
                                            (snd (band_limits time_band i)),
                                  band_table skim_df (fst (band_limits time_band i))
                                             (snd (band_limits time_band i)))).
  { induction indices as [|i tl IH]; intros d Hin; [left; exact Hin|].
    cbn [fold_left] in Hin. destruct (IH _ Hin) as [Hd|[j [Hj He]]].
    - unfold step in Hd. destruct (band_limits time_band i) as [lo up] eqn:El.
      apply dict_set_In in Hd. destruct Hd as [Hd|Hd]; [|left; exact Hd].
      right. exists i. split; [left; reflexivity|]. rewrite El. exact Hd.
    - right. exists j. split; [right; exact Hj | exact He]. }
  intro Hin. destruct (Hfold _ _ Hin) as [[]|H]. exact H.
Qed.

Lemma band_table_empty (skim_df : list skim_row) (lower upper : Z) :
  (upper <= lower)%Z -> band_table skim_df lower upper = [].
Proof.
  intro Hle. unfold band_table.
  replace (filter (in_band lower upper) _) with (@nil skim_row); [reflexivity|].
  symmetry. induction (sort_values _ skim_df) as [|r tl IH]; [reflexivity|].
  cbn [filter]. rewrite <- IH.
  replace (in_band lower upper r) with false; [reflexivity|].
  symmetry. apply not_true_is_false. intro H. unfold in_band, Qlt_bool in H.
  apply andb_true_iff in H. destruct H as [H1 H2].
  apply negb_true_iff in H1. apply Qle_bool_iff in H2.
  assert (Hq : inject_Z upper <= inject_Z lower) by (rewrite <- Zle_Qle; exact Hle).
  assert (Hc : Qle_bool (travel_time r) (inject_Z lower) = true).
  { apply Qle_bool_iff. lra. }
  congruence.
Qed.

(** X8.  With a band width of 0 or less every band is empty: each table
    of the dictionary has no row, and every zone's band columns add up
    to 0. *)
Theorem nonpositive_band_width_gives_empty_bands :
  forall (skim_df : list skim_row) (time_band : Z),
    (time_band <= 0)%Z ->
    (forall e, In e (calculate_time_band_accessibility skim_df time_band) -> snd e = [])
    /\ forall zone, band_total (calculate_time_band_accessibility skim_df time_band) zone
                    = 0%Z.
Proof.
  intros skim_df w Hw.
  assert (Hempty : forall e, In e (calculate_time_band_accessibility skim_df w) ->
                             snd e = []).
  { intros e He. apply time_bands_entry_origin in He. destruct He as [i [Hi ->]].
    cbn [snd]. apply band_table_empty.
    simpl in Hi. destruct Hi as [<-|[<-|[<-|[<-|[<-|[]]]]]]; cbn [band_limits fst snd];
      cbv [Z.ltb Z.compare Pos.compare Pos.compare_cont]; lia. }
  split; [exact Hempty|]. intro zone. unfold band_total.
  induction (calculate_time_band_accessibility skim_df w) as [|e tl IH]; [reflexivity|].
  cbn [map fold_right]. rewrite IH by (intros e' He'; apply Hempty; right; exact He').
  rewrite (Hempty e (or_introl eq_refl)). reflexivity.
Qed.

Lemma nonpositive_band_width_gives_empty_bands_witness :
  (forall e, In e (calculate_time_band_accessibility Scenarios.skim_origin5 (-15)) ->
             snd e = [])
  /\ forall zone,
      band_total (calculate_time_band_accessibility Scenarios.skim_origin5 (-15)) zone
      = 0%Z.
Proof.
  apply (nonpositive_band_width_gives_empty_bands Scenarios.skim_origin5 (-15)%Z). lia.
Defined.

Lemma groupby_size_rows (band_skim : list skim_row) :
  StronglySorted Z.lt (map fst (groupby_size band_skim))
  /\ (forall o, In o (map fst (groupby_size band_skim)) <->
                exists r, In r band_skim /\ origin_zone r = o)
  /\ forall o c, In (o, c) (groupby_size band_skim) -> (1 <= c)%Z.
Proof.
  assert (Hkeys : map fst (groupby_size band_skim)
                  = group_keys (map origin_zone band_skim)).
  { unfold groupby_size. rewrite map_map. simpl. apply map_id. }
  split; [rewrite Hkeys; apply group_keys_ascending|]. split.
  - intro o. rewrite Hkeys, group_keys_In, in_map_iff. split.
    + intros [r [Ho Hr]]. exists r. auto.
    + intros [r [Hr Ho]]. exists r. auto.
  - intros o c Hin. unfold groupby_size in Hin. apply in_map_iff in Hin.
    destruct Hin as [k [Hk Hin]]. inversion Hk; subst.
    rewrite group_keys_In in Hin. apply in_map_iff in Hin. destruct Hin as [r [Ho Hr]].
    assert (Hf : In r (filter (fun r0 => (origin_zone r0 =? o)%Z) band_skim)).
    { apply filter_In. split; [exact Hr | apply Z.eqb_eq, Ho]. }
    destruct (filter (fun r0 => (origin_zone r0 =? o)%Z) band_skim); [contradiction|].
    cbn [List.length]. lia.
Qed.

(** X9.  Each band table lists the origins in ascending order, one row
    each; an origin is listed exactly when one of its skim rows has a
    travel time in the band, and every count listed is at least 1, so
    the zeros of a band column all come from the zero-fill of the
    merge. *)
Theorem band_table_lists_origins_with_rows :
  forall (skim_df : list skim_row) (time_band lower upper : Z)
         (band_access : list (Z * Z)),
    In (band_name lower upper, band_access)
       (calculate_time_band_accessibility skim_df time_band) ->
    StronglySorted Z.lt (map fst band_access)
    /\ (forall origin,
           In origin (map fst band_access) <->
           exists r, In r skim_df /\ origin_zone r = origin
                     /\ inject_Z lower < travel_time r
                     /\ travel_time r <= inject_Z upper)
    /\ forall origin count, In (origin, count) band_access -> (1 <= count)%Z.
Proof.
  intros skim_df w lower upper band_access Hin.
  rewrite (time_bands_entries _ _ _ _ _ Hin). unfold band_table.
  destruct (groupby_size_rows
              (filter (in_band lower upper)
                      (sort_values (fun a b => Qle_bool (travel_time a) (travel_time b))
                                   skim_df))) as [Hs [Hk Hc]].
  split; [exact Hs|]. split; [|exact Hc].
  intro origin. rewrite Hk. split.
  - intros [r [Hr Ho]]. apply filter_In in Hr. destruct Hr as [Hr Hb].
    rewrite sort_values_In in Hr. unfold in_band, Qlt_bool in Hb.
    apply andb_true_iff in Hb. destruct Hb as [H1 H2].
    apply negb_true_iff in H1. apply Qle_bool_iff in H2.
    exists r. repeat split; try assumption.
    apply Qnot_le_lt. intro H. apply Qle_bool_iff in H. congruence.
  - intros [r [Hr [Ho [H1 H2]]]]. exists r. split; [|exact Ho].
    apply filter_In. split; [rewrite sort_values_In; exact Hr|].
    unfold in_band, Qlt_bool. apply andb_true_iff. split; [|apply Qle_bool_iff, H2].
    apply negb_true_iff. apply not_true_is_false. intro H.
    apply Qle_bool_iff in H. lra.
Qed.

Lemma band_table_lists_origins_with_rows_witness :
  StronglySorted Z.lt (map fst [(5, 2)]%Z)
  /\ (forall origin,
         In origin (map fst [(5, 2)]%Z) <->
         exists r, In r Scenarios.skim_origin5 /\ origin_zone r = origin
                   /\ inject_Z 0 < travel_time r
                   /\ travel_time r <= inject_Z 15)
  /\ forall origin count, In (origin, count) [(5, 2)]%Z -> (1 <= count)%Z.
Proof.
  apply (band_table_lists_origins_with_rows Scenarios.skim_origin5 15%Z 0%Z 15%Z
           [(5, 2)]%Z).
  left. reflexivity.
Defined.

(** ** validate_dataframe *)

(** X10.  [validate_dataframe] accepts a table exactly when every
    required column is among its columns; otherwise it raises for the
    table's name with the missing columns: the required columns the table
    lacks, none else, in the order they were required. *)
Theorem validate_dataframe_reports_missing_columns :
  forall (columns required_columns : list string) (name : string),
    (validate_dataframe columns required_columns name = Valid
     <-> incl required_columns columns)
    /\ forall n missing_cols,
        validate_dataframe columns required_columns name = ValidationError n missing_cols ->
        n = name
        /\ missing_cols
           = filter (fun col => negb (existsb (String.eqb col) columns)) required_columns
        /\ (forall col, In col missing_cols <->
                        In col required_columns /\ ~ In col columns)
        /\ exists col, In col required_columns /\ ~ In col columns.
Proof.
  intros columns required name.
  assert (Hmem : forall col, existsb (String.eqb col) columns = true <-> In col columns).
  { intro col. rewrite existsb_exists. split.
    - intros [x [Hx E]]. apply String.eqb_eq in E. subst. exact Hx.
    - intro H. exists col. split; [exact H | apply String.eqb_refl]. }
  assert (Hmiss : forall col,
             In col (filter (fun col => negb (existsb (String.eqb col) columns)) required)
             <-> In col required /\ ~ In col columns).
  { intro col. rewrite filter_In, negb_true_iff, <- Hmem.
    destruct (existsb (String.eqb col) columns); intuition congruence. }
  unfold validate_dataframe. split.
  - destruct (filter _ required) as [|c cs] eqn:E.
    + split; [|reflexivity]. intros _ col Hcol.
      destruct (in_dec string_dec col columns) as [Hin|Hout]; [exact Hin|].
      exfalso. apply (proj2 (Hmiss col)). split; assumption.
    + split; [discriminate|]. intro Hincl. exfalso.
      destruct (proj1 (Hmiss c) (or_introl eq_refl)) as [Hr Hout]. auto.
  - intros n missing H. destruct (filter _ required) as [|c cs] eqn:E; [discriminate|].
    inversion H; subst. split; [reflexivity|]. split; [reflexivity|].
    split; [exact Hmiss|]. exists c. apply Hmiss. left. reflexivity.
Qed.

Lemma validate_dataframe_reports_missing_columns_witness :
  "Transportation zones"%string = "Transportation zones"%string
  /\ ["geometry"%string]
     = filter (fun col => negb (existsb (String.eqb col) ["ZONE_ID"; "POP_2024"]%string))
              ["ZONE_ID"; "geometry"]%string
  /\ (forall col, In col ["geometry"%string] <->
                  In col ["ZONE_ID"; "geometry"]%string
                  /\ ~ In col ["ZONE_ID"; "POP_2024"]%string)
  /\ exists col, In col ["ZONE_ID"; "geometry"]%string
                 /\ ~ In col ["ZONE_ID"; "POP_2024"]%string.
Proof.
  apply (proj2 (validate_dataframe_reports_missing_columns
                  ["ZONE_ID"; "POP_2024"]%string ["ZONE_ID"; "geometry"]%string
                  "Transportation zones"%string)).
  reflexivity.
Defined.

End DataProcessingMore.

Module MapUtilsMore.
Import MapUtils MapColors MapUtilsFacts.
Local Open Scope string_scope.

(** ** The colour scheme as a dictionary *)

Lemma scheme_get_set (key k value : string) (d : scheme_dict) :
  scheme_get key (scheme_set k value d)
  = if String.eqb k key then Some value else scheme_get key d.
Proof.
  induction d as [|[k' v'] tl IH]; cbn [scheme_set scheme_get].
  - reflexivity.
  - destruct (String.eqb_spec k' k) as [E|E]; cbn [scheme_get].
    + subst k'. destruct (String.eqb k key); reflexivity.
    + destruct (String.eqb_spec k' key) as [E2|E2]; [|exact IH].
      subst k'. destruct (String.eqb_spec k key); [congruence | reflexivity].
Qed.

Lemma scheme_get_not_in (key : string) (d : scheme_dict) :
  ~ In key (map fst d) -> scheme_get key d = None.
Proof.
  induction d as [|[k v] tl IH]; cbn [scheme_get map fst In]; intro H; [reflexivity|].
  destruct (String.eqb_spec k key); [exfalso; auto | apply IH; tauto].
Qed.

Lemma scheme_get_in (key value : string) (d : scheme_dict) :
  NoDup (map fst d) -> In (key, value) d -> scheme_get key d = Some value.
Proof.
  induction d as [|[k v] tl IH]; cbn [scheme_get map fst In]; intros Hnd Hin; [contradiction|].
  apply NoDup_cons_iff in Hnd. destruct Hnd as [Hout Hnd].
  destruct Hin as [E|Hin].
  - inversion E; subst. rewrite String.eqb_refl. reflexivity.
  - destruct (String.eqb_spec k key) as [E|E]; [|auto].
    subst k. exfalso. apply Hout. apply in_map_iff. exists (key, value). auto.
Qed.

(** Updating the defaults with the entries of a dictionary. *)
Lemma merged_lookup (key : string) (color_scheme d : scheme_dict) :
  NoDup (map fst color_scheme) ->
  scheme_get key (fold_left (fun m kv => scheme_set (fst kv) (snd kv) m) color_scheme d)
  = match scheme_get key color_scheme with
    | Some v => Some v
    | None => scheme_get key d
    end.
Proof.
  revert d. induction color_scheme as [|[k v] tl IH]; intros d Hnd; [reflexivity|].
  cbn [map fst] in Hnd. apply NoDup_cons_iff in Hnd. destruct Hnd as [Hout Hnd].
  cbn [fold_left fst snd scheme_get]. rewrite (IH _ Hnd), scheme_get_set.
  destruct (String.eqb_spec k key) as [E|E]; [|reflexivity].
  subst k. rewrite (scheme_get_not_in key tl Hout). reflexivity.
Qed.

Lemma required_lookup (key : string) (reqs : list string) (m : scheme_dict) :
  (forall req, In req reqs -> default_color req <> "") ->
  scheme_get key
    (fold_left
       (fun m req =>
          match scheme_get req m with
          | Some v => if String.eqb v "" then scheme_set req (default_color req) m else m
          | None => scheme_set req (default_color req) m
          end) reqs m)
  = if in_dec string_dec key reqs then Some (filled key (scheme_get key m))
    else scheme_get key m.
Proof.
  revert m. induction reqs as [|r tl IH]; intros m Hdef; [reflexivity|].
  cbn [fold_left]. rewrite IH by (intros req Hreq; apply Hdef; right; exact Hreq).
  assert (Hr : default_color r <> "") by (apply Hdef; left; reflexivity).
  set (m' := match scheme_get r m with
             | Some v => if String.eqb v "" then scheme_set r (default_color r) m else m
             | None => scheme_set r (default_color r) m
             end).
  assert (Hm' : scheme_get key m'
                = if String.eqb r key then Some (filled key (scheme_get key m))
                  else scheme_get key m).
  { unfold m'. destruct (String.eqb_spec r key) as [E|E].
    - subst r. unfold filled. destruct (scheme_get key m) as [v|] eqn:Ev.
      + destruct (String.eqb v ""); [|exact Ev].
        rewrite scheme_get_set, String.eqb_refl. reflexivity.
      + rewrite scheme_get_set, String.eqb_refl. reflexivity.
    - destruct (scheme_get r m) as [v|]; [destruct (String.eqb v "")|];
        try reflexivity; rewrite scheme_get_set;
        destruct (String.eqb_spec r key); congruence. }
  assert (Hidem : r = key ->
                  filled key (Some (filled key (scheme_get key m)))
                  = filled key (scheme_get key m)).
  { intro E. subst r. unfold filled at 1.
    destruct (String.eqb_spec (filled key (scheme_get key m)) "") as [E0|E0];
      [|reflexivity].
    exfalso. unfold filled in E0. destruct (scheme_get key m) as [v|].
    - destruct (String.eqb_spec v ""); congruence.
    - congruence. }
  rewrite Hm'.
  destruct (in_dec string_dec key (r :: tl)) as [Hin|Hout];
    destruct (in_dec string_dec key tl) as [Hin'|Hout'];
    destruct (String.eqb_spec r key) as [E|E];
    try reflexivity; try (rewrite (Hidem E); reflexivity).
  - destruct Hin; contradiction.
  - exfalso. apply Hout. right. exact Hin'.
  - exfalso. apply Hout. right. exact Hin'.
  - exfalso. apply Hout. left. exact E.
Qed.

Lemma required_defaults_filled :
  forall req, In req required_keys -> default_color req <> "".
Proof.
  intros req H. simpl in H.
  destruct H as [<-|[<-|[<-|[<-|[<-|[]]]]]]; discriminate.
Qed.

Lemma ensured_lookup (color_scheme : scheme_dict) (key : string) :
  NoDup (map fst color_scheme) ->
  scheme_get key (ensure_time_mapping_keys color_scheme)
  = let merged :=
      match scheme_get key color_scheme with
      | Some v => Some v
      | None => scheme_get key DEFAULT_TIME_MAPPING_SCHEME
      end in
    if in_dec string_dec key required_keys then Some (filled key merged) else merged.
Proof.
  intro Hnd. unfold ensure_time_mapping_keys.
  rewrite (required_lookup key required_keys _ required_defaults_filled).
  rewrite (merged_lookup key color_scheme _ Hnd). reflexivity.
Qed.

(** X11.  Whatever dictionary it is given, [ensure_time_mapping_keys]
    returns one in which each of the five band keys has a value that is
    not the empty string, so [scheme[key]] never raises for them. *)
Theorem ensured_scheme_has_the_five_colors :
  forall (color_scheme : scheme_dict) (key : string),
    In key required_keys ->
    exists value,
      scheme_item (ensure_time_mapping_keys color_scheme) key = Ok value
      /\ value <> "".
Proof.
  intros color_scheme key Hkey. unfold ensure_time_mapping_keys, scheme_item.
  rewrite (required_lookup key required_keys _ required_defaults_filled).
  destruct (in_dec string_dec key required_keys) as [_|Hout]; [|contradiction].
  eexists. split; [reflexivity|].
  pose proof (required_defaults_filled key Hkey) as Hd.
  unfold filled. destruct (scheme_get key _) as [v|]; [|exact Hd].
  destruct (String.eqb_spec v ""); assumption.
Qed.

Lemma ensured_scheme_has_the_five_colors_witness :
  exists value,
    scheme_item (ensure_time_mapping_keys [("0_15", ""); ("theme", "dark")]) "0_15"
    = Ok value
    /\ value <> "".
Proof.
  apply (ensured_scheme_has_the_five_colors [("0_15", ""); ("theme", "dark")] "0_15").
  simpl. tauto.
Defined.

(** X12.  [ensure_time_mapping_keys] keeps what the caller's dictionary
    says: an entry of it is found again under its key with its value,
    except that an empty string under one of the five band keys is
    replaced by that key's default colour; a key that is neither given
    nor one of the defaults stays absent. *)
Theorem ensured_scheme_keeps_given_colors :
  forall (color_scheme : scheme_dict),
    NoDup (map fst color_scheme) ->
    (forall key value,
        In (key, value) color_scheme ->
        scheme_get key (ensure_time_mapping_keys color_scheme)
        = Some (if (String.eqb value "" && existsb (String.eqb key) required_keys)%bool
                then default_color key else value))
    /\ (forall key,
           ~ In key (map fst color_scheme) -> ~ In key required_keys ->
           scheme_get key (ensure_time_mapping_keys color_scheme) = None).
Proof.
  intros color_scheme Hnd. split.
  - intros key value Hin. rewrite (ensured_lookup _ _ Hnd).
    rewrite (scheme_get_in key value color_scheme Hnd Hin). cbv zeta.
    destruct (in_dec string_dec key required_keys) as [Hreq|Hout].
    + assert (E : existsb (String.eqb key) required_keys = true).
      { apply existsb_exists. exists key. split; [exact Hreq | apply String.eqb_refl]. }
      rewrite E, andb_true_r. unfold filled. reflexivity.
    + assert (E : existsb (String.eqb key) required_keys = false).
      { apply not_true_is_false. intro H. apply existsb_exists in H.
        destruct H as [x [Hx Ex]]. apply String.eqb_eq in Ex. subst. contradiction. }
      rewrite E, andb_false_r. reflexivity.
  - intros key Hout Hreq. rewrite (ensured_lookup _ _ Hnd).
    rewrite (scheme_get_not_in key color_scheme Hout). cbv zeta.
    destruct (in_dec string_dec key required_keys) as [H|_]; [contradiction|].
    apply scheme_get_not_in. simpl. simpl in Hreq. tauto.
Qed.

Lemma ensured_scheme_keeps_given_colors_witness :
  (forall key value,
      In (key, value) [("0_15", "#00ff00"); ("45_60", ""); ("theme", "")] ->
      scheme_get key
        (ensure_time_mapping_keys [("0_15", "#00ff00"); ("45_60", ""); ("theme", "")])
      = Some (if (String.eqb value "" && existsb (String.eqb key) required_keys)%bool
              then default_color key else value))
  /\ (forall key,
         ~ In key (map fst [("0_15", "#00ff00"); ("45_60", ""); ("theme", "")]) ->
         ~ In key required_keys ->
         scheme_get key
           (ensure_time_mapping_keys [("0_15", "#00ff00"); ("45_60", ""); ("theme", "")])
         = None).
Proof.
  apply (ensured_scheme_keeps_given_colors
           [("0_15", "#00ff00"); ("45_60", ""); ("theme", "")]).
  simpl. solve_NoDup.
Defined.

(** ** get_color_scale *)

Lemma range_In (n i : Z) : In i (range n) <-> (0 <= i < n)%Z.
Proof.
  unfold range. rewrite in_map_iff. split.
  - intros [k [<- Hk]]. apply in_seq in Hk. lia.
  - intro H. exists (Z.to_nat i). split; [lia|]. apply in_seq. lia.
Qed.

Lemma one_to_nine (k : Z) : (1 <= k <= 9)%Z -> In k [1; 2; 3; 4; 5; 6; 7; 8; 9]%Z.
Proof. intro H. simpl. lia. Qed.

Lemma palettes_length (k : Z) : (1 <= k <= 9)%Z -> List.length (palettes k) = Z.to_nat k.
Proof.
  intro H. pose proof (one_to_nine k H) as E. simpl in E.
  repeat (destruct E as [<-|E]; [reflexivity|]). contradiction.
Qed.

Lemma palettes_within_nine (k : Z) (c : string) :
  In c (palettes k) -> In c (palettes 9).
Proof.
  destruct k as [|p|p]; [intros []| |intros []].
  do 4 (try match goal with q : positive |- _ => destruct q end);
    cbn [palettes]; intro H; try contradiction;
    repeat (destruct H as [<-|H]; [simpl; tauto|]); contradiction.
Qed.

Lemma get_color_scale_large (n : Z) :
  (9 <= n)%Z ->
  get_color_scale n
  = map (fun i => nth (Z.to_nat (py_round (inject_Z (i * (9 - 1)) / inject_Z (n - 1))))
                      (palettes 9) "")
        (range n).
Proof.
  intro H. unfold get_color_scale. cbn [find].
  destruct (Z.leb_spec 9 n) as [_|]; [|lia].
  destruct (Z.ltb_spec 1 n) as [_|]; [|lia]. rewrite map_map. reflexivity.
Qed.

(** X13.  [get_color_scale(n)] returns exactly n colours, none for an n
    of 0 or less; for n from 1 to 9 they are the built-in palette of that
    size, and for every n each colour is one of the nine of the largest
    palette, so no index into a palette is ever out of range. *)
Theorem color_scale_has_n_palette_colors :
  forall n : Z,
    List.length (get_color_scale n) = Z.to_nat n
    /\ ((1 <= n <= 9)%Z -> get_color_scale n = palettes n)
    /\ drawn_from (palettes 9) (get_color_scale n).
Proof.
  intro n. destruct (Z.le_gt_cases n 0) as [Hn|Hn].
  - assert (E : get_color_scale n = []).
    { unfold get_color_scale. cbn [find].
      repeat (match goal with
              | |- context [(?k <=? n)%Z] => destruct (Z.leb_spec k n); [lia|]
              end).
      replace (Z.to_nat n) with 0%nat by lia. reflexivity. }
    rewrite E. split; [simpl; lia|]. split; [lia | constructor].
  - destruct (Z.le_gt_cases n 9) as [H9|H9].
    + assert (Hp : get_color_scale n = palettes n).
      { pose proof (one_to_nine n ltac:(lia)) as E. simpl in E.
        repeat (destruct E as [<-|E]; [reflexivity|]). contradiction. }
      rewrite Hp. split; [apply palettes_length; lia|]. split; [reflexivity|].
      apply Forall_forall. intros c. apply palettes_within_nine.
    + rewrite get_color_scale_large by lia. split; [|split; [lia|]].
      * rewrite length_map, range_length. reflexivity.
      * apply Forall_forall. intros c Hc. apply in_map_iff in Hc.
        destruct Hc as [i [<- Hi]]. apply range_In in Hi.
        apply nth_In. change (List.length (palettes 9)) with 9%nat.
        assert (Hpos : 0 < inject_Z (n - 1)).
        { change 0 with (inject_Z 0). rewrite <- Zlt_Qlt. lia. }
        assert (Hb : (0 <= py_round (inject_Z (i * (9 - 1)) / inject_Z (n - 1)) <= 8)%Z).
        { apply py_round_between.
          - apply Qle_shift_div_l; [exact Hpos|]. rewrite <- inject_Z_mult, <- Zle_Qle. lia.
          - apply Qle_shift_div_r; [exact Hpos|]. rewrite <- inject_Z_mult, <- Zle_Qle. lia. }
        lia.
Qed.

Lemma color_scale_has_n_palette_colors_witness :
  get_color_scale 4 = palettes 4.
Proof.
  apply (proj1 (proj2 (color_scale_has_n_palette_colors 4%Z))). lia.
Defined.

(** ** get_time_color *)

Lemma Qle_bool_false (a b : Q) : b < a -> Qle_bool a b = false.
Proof.
  intro H. apply not_true_is_false. intro E. apply Qle_bool_iff in E. lra.
Qed.

(** X14.  [get_time_color] never raises: a null time is grey and any
    other time gets one of the five colours of the ensured scheme.  For a
    positive band width it agrees with the bands of
    [calculate_time_band_accessibility]: a travel time in band 1, 2, 3
    or 4 gets the colour under 60_plus, 45_60, 30_45 or 15_30, and one in
    band 5 the colour under 0_15. *)
Theorem time_color_follows_the_bands :
  forall (time_band : Z) (color_scheme : scheme_dict),
    get_time_color None time_band color_scheme = Ok "#808080"
    /\ (forall minutes : Q,
           exists key,
             In key required_keys
             /\ get_time_color (Some minutes) time_band color_scheme
                = scheme_item (ensure_time_mapping_keys color_scheme) key)
    /\ ((0 < time_band)%Z ->
        forall (i : Z) (r : DataProcessing.skim_row),
          In i [1; 2; 3; 4; 5]%Z ->
          DataProcessing.in_band (fst (DataProcessing.band_limits time_band i))
                                 (snd (DataProcessing.band_limits time_band i)) r = true ->
          get_time_color (Some (DataProcessing.travel_time r)) time_band color_scheme
          = scheme_item (ensure_time_mapping_keys color_scheme) (band_key i)).
Proof.
  intros w cs. split; [reflexivity|]. split.
  - intro t. unfold get_time_color.
    destruct (Qle_bool t (inject_Z w));
      [exists "60_plus"; simpl; tauto|].
    destruct (Qle_bool t (inject_Z (w * 2)));
      [exists "45_60"; simpl; tauto|].
    destruct (Qle_bool t (inject_Z (w * 3)));
      [exists "30_45"; simpl; tauto|].
    destruct (Qle_bool t (inject_Z (w * 4)));
      [exists "15_30"; simpl; tauto|].
    exists "0_15". simpl. tauto.
  - intros Hw i r Hi Hb. unfold DataProcessing.in_band, Qlt_bool in Hb.
    apply andb_true_iff in Hb. destruct Hb as [Hlo Hup].
    apply negb_true_iff in Hlo. apply Qle_bool_iff in Hup.
    assert (Hlo' : inject_Z (fst (DataProcessing.band_limits w i))
                   < DataProcessing.travel_time r).
    { apply Qnot_le_lt. intro H. apply Qle_bool_iff in H. congruence. }
    clear Hlo. set (t := DataProcessing.travel_time r) in *.
    assert (Hwq : 0 < inject_Z w).
    { change 0 with (inject_Z 0). rewrite <- Zlt_Qlt. exact Hw. }
    assert (E2 : inject_Z (w * 2) == 2 * inject_Z w) by (rewrite inject_Z_mult; ring).
    assert (E3 : inject_Z (w * 3) == 3 * inject_Z w) by (rewrite inject_Z_mult; ring).
    assert (E4 : inject_Z (w * 4) == 4 * inject_Z w) by (rewrite inject_Z_mult; ring).
    unfold get_time_color.
    simpl in Hi. destruct Hi as [<-|[<-|[<-|[<-|[<-|[]]]]]];
      cbn [DataProcessing.band_limits fst snd band_key] in *;
      cbv [Z.ltb Z.compare Pos.compare Pos.compare_cont] in *;
      try rewrite inject_Z_mult in Hlo'; try rewrite inject_Z_mult in Hup;
      repeat (change (inject_Z (2 - 1)) with 1 in Hlo';
              change (inject_Z (3 - 1)) with 2 in Hlo';
              change (inject_Z (4 - 1)) with 3 in Hlo';
              change (inject_Z (5 - 1)) with 4 in Hlo');
      repeat (change (inject_Z 1) with 1 in Hup; change (inject_Z 2) with 2 in Hup;
              change (inject_Z 3) with 3 in Hup; change (inject_Z 4) with 4 in Hup;
              change (inject_Z 5) with 5 in Hup; change (inject_Z 0) with 0 in Hlo').
    + assert (H : Qle_bool t (inject_Z w) = true) by (apply Qle_bool_iff; lra).
      rewrite H. reflexivity.
    + rewrite (Qle_bool_false t (inject_Z w)) by lra.
      assert (H : Qle_bool t (inject_Z (w * 2)) = true) by (apply Qle_bool_iff; lra).
      rewrite H. reflexivity.
    + rewrite (Qle_bool_false t (inject_Z w)) by lra.
      rewrite (Qle_bool_false t (inject_Z (w * 2))) by lra.
      assert (H : Qle_bool t (inject_Z (w * 3)) = true) by (apply Qle_bool_iff; lra).
      rewrite H. reflexivity.
    + rewrite (Qle_bool_false t (inject_Z w)) by lra.
      rewrite (Qle_bool_false t (inject_Z (w * 2))) by lra.
      rewrite (Qle_bool_false t (inject_Z (w * 3))) by lra.
      assert (H : Qle_bool t (inject_Z (w * 4)) = true) by (apply Qle_bool_iff; lra).
      rewrite H. reflexivity.
    + rewrite (Qle_bool_false t (inject_Z w)) by lra.
      rewrite (Qle_bool_false t (inject_Z (w * 2))) by lra.
      rewrite (Qle_bool_false t (inject_Z (w * 3))) by lra.
      rewrite (Qle_bool_false t (inject_Z (w * 4))) by lra.
      reflexivity.
Qed.

Lemma time_color_follows_the_bands_witness :
  get_time_color (Some (DataProcessing.travel_time (DataProcessing.mkSkimRow 5 3 16)))
                 15 []
  = scheme_item (ensure_time_mapping_keys []) (band_key 2).
Proof.
  apply (proj2 (proj2 (time_color_follows_the_bands 15%Z []))
               ltac:(lia) 2%Z (DataProcessing.mkSkimRow 5 3 16)).
  - simpl. tauto.
  - reflexivity.
Defined.

(** ** More on nice_number *)

Lemma py_round_near (x : Q) :
  - (1 # 2) <= inject_Z (py_round x) - x /\ inject_Z (py_round x) - x <= 1 # 2.
Proof.
  pose proof (Qfloor_le x) as H1. pose proof (Qlt_floor x) as H2.
  rewrite inject_Z_plus in H2. change (inject_Z 1) with 1 in H2.
  unfold py_round.
  destruct (Qcompare (x - inject_Z (Qfloor x)) (1 # 2)) eqn:E.
  - apply Qeq_alt in E. destruct (Z.even (Qfloor x)).
    + lra.
    + rewrite inject_Z_plus. change (inject_Z 1) with 1. lra.
  - apply Qlt_alt in E. lra.
  - apply Qgt_alt in E. rewrite inject_Z_plus. change (inject_Z 1) with 1. lra.
Qed.

Lemma magnitude_positive (x : Q) (round_to : Z) : 0 < inject_Z (magnitude x round_to).
Proof.
  destruct (magnitude_power x round_to) as [k [_ [_ H]]].
  change 0 with (inject_Z 0). rewrite <- Zlt_Qlt. lia.
Qed.

(** X15.  [nice_number] moves a number by at most half of its rounding
    magnitude. *)
Theorem nice_number_is_within_half_a_magnitude :
  forall (x : Q) (round_to : Z),
    x - inject_Z (magnitude x round_to) / 2 <= inject_Z (nice_number x round_to)
    /\ inject_Z (nice_number x round_to) <= x + inject_Z (magnitude x round_to) / 2.
Proof.
  intros x round_to. pose proof (magnitude_positive x round_to) as Hm.
  unfold nice_number. destruct (Qeq_bool x 0) eqn:E.
  - apply Qeq_bool_iff in E. change (inject_Z 0) with 0.
    assert (0 <= inject_Z (magnitude x round_to) / 2).
    { apply Qle_shift_div_l; lra. }
    lra.
  - set (M := inject_Z (magnitude x round_to)) in *.
    destruct (py_round_near (x / M)) as [Hlo Hhi].
    rewrite inject_Z_mult. fold M.
    set (R := inject_Z (py_round (x / M))) in *.
    assert (Hx : x == (x / M) * M) by (field; lra).
    set (y := x / M) in *.
    assert (H1 : (- (1 # 2)) * M <= (R - y) * M).
    { apply Qmult_le_compat_r; lra. }
    assert (H2 : (R - y) * M <= (1 # 2) * M).
    { apply Qmult_le_compat_r; lra. }
    assert (E1 : (R - y) * M == R * M - x) by (rewrite Hx; ring).
    assert (E2 : M / 2 == (1 # 2) * M) by field.
    rewrite E2. lra.
Qed.

Lemma ilog10_fuel_spec (fuel : nat) (n : Z) :
  (1 <= n)%Z -> (n < 2 ^ Z.of_nat fuel)%Z ->
  (10 ^ ilog10_fuel fuel n <= n < 10 ^ (ilog10_fuel fuel n + 1))%Z.
Proof.
  revert n. induction fuel as [|f IH]; intros n H1 H2.
  - simpl in H2. lia.
  - cbn [ilog10_fuel]. destruct (Z.ltb_spec n 10) as [Hlt|Hge].
    + simpl. lia.
    + rewrite Nat2Z.inj_succ, Z.pow_succ_r in H2 by lia.
      assert (Hq1 : (1 <= n / 10)%Z) by (apply Z.div_le_lower_bound; lia).
      assert (Hq2 : (n / 10 < 2 ^ Z.of_nat f)%Z) by (apply Z.div_lt_upper_bound; lia).
      specialize (IH (n / 10)%Z Hq1 Hq2).
      pose proof (ilog10_fuel_nonneg f (n / 10)) as Hk.
      set (k := ilog10_fuel f (n / 10)) in *.
      pose proof (Z.mul_div_le n 10 ltac:(lia)) as Hd1.
      pose proof (Z.mul_succ_div_gt n 10 ltac:(lia)) as Hd2.
      replace (1 + k)%Z with (Z.succ k) by lia.
      replace (Z.succ k + 1)%Z with (Z.succ (k + 1)) by lia.
      rewrite !Z.pow_succ_r by lia. lia.
Qed.

(** The integer logarithm counts the decimal digits. *)
Lemma ilog10_spec (n : Z) :
  (1 <= n)%Z -> (10 ^ ilog10 n <= n < 10 ^ (ilog10 n + 1))%Z.
Proof.
  intro H. unfold ilog10. apply ilog10_fuel_spec; [exact H|].
  rewrite Nat2Z.inj_succ, Z2Nat.id by apply Z.log2_nonneg.
  apply Z.log2_spec. lia.
Qed.

Lemma ilog10_unique (n d : Z) :
  (0 <= d)%Z -> (10 ^ d <= n < 10 ^ (d + 1))%Z -> ilog10 n = d.
Proof.
  intros Hd Hn.
  assert (H1 : (1 <= n)%Z).
  { pose proof (Z.pow_pos_nonneg 10 d ltac:(lia) Hd). lia. }
  pose proof (ilog10_spec n H1) as Hs.
  assert (Hk : (0 <= ilog10 n)%Z) by (unfold ilog10; apply ilog10_fuel_nonneg).
  destruct (Z.lt_trichotomy (ilog10 n) d) as [H|[H|H]]; [|exact H|]; exfalso.
  - assert ((10 ^ (ilog10 n + 1) <= 10 ^ d)%Z) by (apply Z.pow_le_mono_r; lia). lia.
  - assert ((10 ^ (d + 1) <= 10 ^ ilog10 n)%Z) by (apply Z.pow_le_mono_r; lia). lia.
Qed.

Lemma floor_of_digits (a : Q) (d : Z) :
  (0 <= d)%Z -> inject_Z (10 ^ d) <= a -> a < inject_Z (10 ^ (d + 1)) ->
  (10 ^ d <= Qfloor a < 10 ^ (d + 1))%Z.
Proof.
  intros Hd Hlo Hhi. pose proof (Qfloor_le a) as H1. pose proof (Qlt_floor a) as H2.
  assert (H3 : inject_Z (10 ^ d) < inject_Z (Qfloor a + 1)) by lra.
  assert (H4 : inject_Z (Qfloor a) < inject_Z (10 ^ (d + 1))) by lra.
  rewrite <- Zlt_Qlt in H3, H4. lia.
Qed.

Lemma pow10_three_digits (d : Z) :
  (0 <= d)%Z -> (10 ^ (d + 1) <= 1000 * 10 ^ Z.max 0 (d - 2))%Z.
Proof.
  intro Hd. destruct (Z.le_gt_cases d 2) as [H|H].
  - rewrite Z.max_l by lia. change (10 ^ 0)%Z with 1%Z.
    assert ((10 ^ (d + 1) <= 10 ^ 3)%Z) by (apply Z.pow_le_mono_r; lia).
    change (10 ^ 3)%Z with 1000%Z in *. lia.
  - rewrite Z.max_r by lia. replace (d + 1)%Z with (3 + (d - 2))%Z by lia.
    rewrite Z.pow_add_r by lia. change (10 ^ 3)%Z with 1000%Z. lia.
Qed.

Lemma Qabs_bounds (x b : Q) : Qabs x <= b -> - b <= x /\ x <= b.
Proof.
  intro H. apply Qabs_Qle_condition in H. exact H.
Qed.

(** X16.  [nice_number(x, 3)] keeps three significant digits: for a
    number of d + 1 integer digits its magnitude is 10 to the power
    max(0, d - 2), it is 1 below 1, and the result is a whole multiple of
    the magnitude by a factor between -1000 and 1000. *)
Theorem nice_number_keeps_three_digits :
  forall x : Q,
    (forall d : Z,
        (0 <= d)%Z -> inject_Z (10 ^ d) <= Qabs x -> Qabs x < inject_Z (10 ^ (d + 1)) ->
        magnitude x 3 = (10 ^ Z.max 0 (d - 2))%Z)
    /\ (Qabs x < 1 -> magnitude x 3 = 1%Z)
    /\ exists m : Z,
        nice_number x 3 = (m * magnitude x 3)%Z /\ (- 1000 <= m <= 1000)%Z.
Proof.
  intro x.
  assert (Hdigits : forall d : Z,
             (0 <= d)%Z -> inject_Z (10 ^ d) <= Qabs x ->
             Qabs x < inject_Z (10 ^ (d + 1)) ->
             magnitude x 3 = (10 ^ Z.max 0 (d - 2))%Z).
  { intros d Hd Hlo Hhi. unfold magnitude, int_log10.
    assert (H1 : Qle_bool 1 (Qabs x) = true).
    { apply Qle_bool_iff. eapply Qle_trans; [|exact Hlo].
      change 1 with (inject_Z 1). rewrite <- Zle_Qle.
      pose proof (Z.pow_pos_nonneg 10 d ltac:(lia) Hd). lia. }
    rewrite H1. rewrite (ilog10_unique (Qfloor (Qabs x)) d Hd);
      [reflexivity | apply floor_of_digits; assumption]. }
  split; [exact Hdigits|]. split.
  - intro H. apply magnitude_small. lra.
  - unfold nice_number. destruct (Qeq_bool x 0) eqn:E0.
    + exists 0%Z. split; [reflexivity | lia].
    + eexists. split; [reflexivity|].
      pose proof (magnitude_positive x 3) as Hm.
      assert (Hb : Qabs x <= 1000 * inject_Z (magnitude x 3)).
      { destruct (Qlt_le_dec (Qabs x) 1) as [Hs|Hl].
        - rewrite (magnitude_small x) by lra. change (inject_Z 1) with 1. lra.
        - assert (Hn : (1 <= Qfloor (Qabs x))%Z).
          { assert (H : inject_Z 1 < inject_Z (Qfloor (Qabs x) + 1)).
            { pose proof (Qlt_floor (Qabs x)). change (inject_Z 1) with 1. lra. }
            rewrite <- Zlt_Qlt in H. lia. }
          pose proof (ilog10_spec _ Hn) as Hs.
          assert (Hk : (0 <= ilog10 (Qfloor (Qabs x)))%Z)
            by (unfold ilog10; apply ilog10_fuel_nonneg).
          set (d := ilog10 (Qfloor (Qabs x))) in *.
          assert (Hhi : Qabs x < inject_Z (10 ^ (d + 1))).
          { pose proof (Qlt_floor (Qabs x)) as Hf.
            eapply Qlt_le_trans; [exact Hf|]. rewrite <- Zle_Qle. lia. }
          assert (Hlo : inject_Z (10 ^ d) <= Qabs x).
          { pose proof (Qfloor_le (Qabs x)) as Hf.
            eapply Qle_trans; [|exact Hf]. rewrite <- Zle_Qle. lia. }
          rewrite (Hdigits d Hk Hlo Hhi).
          pose proof (pow10_three_digits d Hk) as Hp.
          assert (Hq : inject_Z (10 ^ (d + 1))
                       <= inject_Z (1000 * 10 ^ Z.max 0 (d - 2))).
          { rewrite <- Zle_Qle. exact Hp. }
          rewrite inject_Z_mult in Hq. change (inject_Z 1000) with 1000 in Hq. lra. }
      destruct (Qabs_bounds _ _ Hb) as [Hx1 Hx2].
      apply py_round_between.
      * apply Qle_shift_div_l; [exact Hm|]. change (inject_Z (-1000)) with (-1000). lra.
      * apply Qle_shift_div_r; [exact Hm|]. change (inject_Z 1000) with 1000. lra.
Qed.

Lemma nice_number_keeps_three_digits_witness :
  magnitude 123456 3 = (10 ^ Z.max 0 (5 - 2))%Z.
Proof.
  apply (proj1 (nice_number_keeps_three_digits 123456) 5%Z).
  - lia.
  - discriminate.
  - reflexivity.
Defined.

(** ** generate_dynamic_color_palette *)

(** X17.  With at most five classes [generate_dynamic_color_palette]
    reads no colour as a number: it returns as many colours as classes,
    each one of the five of the scheme, the first being the darkest, and
    all five in order for five classes.  No class is a division by zero,
    and a negative number of classes gives no colour.  This holds whatever
    [hex_to_rgb] accepts. *)
Theorem small_palette_is_drawn_from_the_scheme :
  forall (hex_to_rgb : string -> result (Z * Z * Z)) (base_scheme : scheme_dict)
         (c0 c1 c2 c3 c4 : string),
    scheme_item base_scheme "60_plus" = Ok c0 ->
    scheme_item base_scheme "45_60" = Ok c1 ->
    scheme_item base_scheme "30_45" = Ok c2 ->
    scheme_item base_scheme "15_30" = Ok c3 ->
    scheme_item base_scheme "0_15" = Ok c4 ->
    forall num_classes : Z,
      ((num_classes < 0)%Z ->
       generate_dynamic_color_palette hex_to_rgb base_scheme num_classes = Ok [])
      /\ (num_classes = 0%Z ->
          generate_dynamic_color_palette hex_to_rgb base_scheme num_classes
          = Err ZeroDivisionError)
      /\ ((1 <= num_classes <= 5)%Z ->
          exists colors,
            generate_dynamic_color_palette hex_to_rgb base_scheme num_classes = Ok colors
            /\ List.length colors = Z.to_nat num_classes
            /\ hd_error colors = Some c0
            /\ drawn_from [c0; c1; c2; c3; c4] colors
            /\ (num_classes = 5%Z -> colors = [c0; c1; c2; c3; c4])).
Proof.
  intros h2r bs c0 c1 c2 c3 c4 H0 H1 H2 H3 H4 n.
  unfold generate_dynamic_color_palette. rewrite H0, H1, H2, H3, H4. cbn [bind].
  split; [|split].
  - intro Hn. destruct n as [|p|p]; try lia. reflexivity.
  - intros ->. reflexivity.
  - intro Hn.
    assert (E : In n [1; 2; 3; 4; 5]%Z) by (simpl; lia).
    simpl in E.
    repeat (destruct E as [<-|E];
            [eexists; split; [vm_compute; reflexivity|];
             split; [reflexivity|]; split; [reflexivity|];
             split; [unfold drawn_from; repeat constructor; simpl; tauto|];
             intro E5; first [reflexivity | discriminate E5]|]).
    contradiction.
Qed.

Lemma small_palette_is_drawn_from_the_scheme_witness :
  exists colors,
    generate_dynamic_color_palette (fun _ => Err ValueError)
                                   (ensure_time_mapping_keys []) 3 = Ok colors
    /\ List.length colors = Z.to_nat 3
    /\ hd_error colors = Some "#0d47a1"
    /\ drawn_from ["#0d47a1"; "#1976d2"; "#42a5f5"; "#90caf9"; "#e3f2fd"] colors
    /\ (3%Z = 5%Z -> colors = ["#0d47a1"; "#1976d2"; "#42a5f5"; "#90caf9"; "#e3f2fd"]).
Proof.
  apply (proj2 (proj2 (small_palette_is_drawn_from_the_scheme
                         (fun _ => Err ValueError) (ensure_time_mapping_keys [])
                         "#0d47a1" "#1976d2" "#42a5f5" "#90caf9" "#e3f2fd"
                         eq_refl eq_refl eq_refl eq_refl eq_refl 3%Z))).
  lia.
Defined.

(** ** The classes of the two classifiers *)

Lemma last_In {A : Type} (l : list A) (d : A) : l <> [] -> In (last l d) l.
Proof.
  induction l as [|a tl IH]; intro H; [contradiction|].
  destruct tl as [|b tl']; [left; reflexivity|].
  right. apply IH. discriminate.
Qed.

Lemma first_bin_spec (edges : list Q) (n : Z) (v : Q) (i : Z) :
  first_bin edges n v = Some i -> (0 <= i < n)%Z /\ bin_test edges n v i = true.
Proof.
  unfold first_bin. intro H. apply find_some in H. destruct H as [Hin Hb].
  apply range_In in Hin. split; assumption.
Qed.

Lemma first_bin_exists (edges : list Q) (n : Z) (v : Q) :
  (1 <= n)%Z -> nth 0 edges 0 <= v -> exists i, first_bin edges n v = Some i.
Proof.
  intros Hn H0. destruct (some_bin_from_first_edge edges n v Hn H0) as [i [Hi Hb]].
  unfold first_bin. destruct (find (bin_test edges n v) (range n)) as [k|] eqn:E.
  - exists k. reflexivity.
  - exfalso. pose proof (find_none _ _ E i) as Hnone.
    rewrite Hnone in Hb; [discriminate|]. apply range_In. exact Hi.
Qed.

Lemma first_bin_monotone (edges : list Q) (n : Z) (v v' : Q) (i j : Z) :
  StronglySorted Qlt edges ->
  List.length edges = S (Z.to_nat n) ->
  v <= v' ->
  first_bin edges n v = Some i -> first_bin edges n v' = Some j -> (i <= j)%Z.
Proof.
  intros Hs Hlen Hv Hi Hj.
  apply first_bin_spec in Hi. destruct Hi as [Hi Hbi].
  apply first_bin_spec in Hj. destruct Hj as [Hj Hbj].
  destruct (Z.le_gt_cases i j) as [H|H]; [exact H|]. exfalso.
  pose proof (bin_test_upper edges n v' j ltac:(lia) Hbj) as Hup.
  pose proof (bin_test_lower edges n v i Hbi) as Hlo.
  destruct (Z.eq_dec (j + 1) i) as [E|E].
  - rewrite E in Hup. lra.
  - assert (nth (Z.to_nat (j + 1)) edges 0 < nth (Z.to_nat i) edges 0).
    { apply sorted_nth; [exact Hs | lia]. }
    lra.
Qed.

Lemma assign_color_of_bin (bins : list Z) (n : Z) (color_list : list string)
    (v : Q) (i : Z) :
  ~ v == 0 -> first_bin (map inject_Z bins) n v = Some i ->
  assign_color bins n color_list (Some v) = nth (Z.to_nat i) color_list "".
Proof.
  intros Hv Hi. unfold assign_color.
  destruct (Qeq_bool v 0) eqn:E; [apply Qeq_bool_iff in E; contradiction|].
  rewrite Hi. reflexivity.
Qed.

Lemma assign_class_color_of_bin (bins : list Q) (colors : list string) (v : Q) (i : Z) :
  ~ v == 0 -> first_bin bins 5 v = Some i ->
  assign_class_color bins colors (Some v) = nth (Z.to_nat i) colors "".
Proof.
  intros Hv Hi. unfold assign_class_color.
  destruct (Qeq_bool v 0) eqn:E; [apply Qeq_bool_iff in E; contradiction|].
  rewrite Hi. reflexivity.
Qed.

Lemma color_scale_length_4_to_7 (n : Z) :
  (4 <= n <= 7)%Z -> List.length (get_color_scale n) = Z.to_nat n.
Proof.
  intro H. assert (E : In n [4; 5; 6; 7]%Z) by (simpl; lia). simpl in E.
  repeat (destruct E as [<-|E]; [reflexivity|]). contradiction.
Qed.

Lemma compute_bins_length_any (values : list Q) :
  List.length (compute_bins values (bin_count values))
  = S (Z.to_nat (bin_count values)).
Proof.
  destruct values as [|v vs]; [reflexivity|].
  pose proof (compute_bins_length (v :: vs) ltac:(discriminate)) as H.
  pose proof (bin_count_bounds (v :: vs)) as Hb. lia.
Qed.

(** X18.  The legend of [assign_colors_to_zones] covers the map: it
    returns between four and seven colours and one edge more than colours,
    keeps the zone ids and the numeric columns, and gives every zone
    either the neutral colour or one of the colours it returns. *)
Theorem legend_covers_every_assigned_color :
  forall (format_attribute_value : Z -> string -> string) (zones : GeoDataFrame)
         (col attribute_name : string) (cells : list (option Q)),
    get_column col (numeric_columns zones) = Some cells ->
    exists zones' bins color_list colors,
      assign_colors_to_zones format_attribute_value zones col attribute_name
      = Ok (zones', bins, color_list)
      /\ (4 <= List.length color_list <= 7)%nat
      /\ List.length bins = S (List.length color_list)
      /\ ZONE_ID zones' = ZONE_ID zones
      /\ numeric_columns zones' = numeric_columns zones
      /\ color zones' = Some colors
      /\ List.length colors = List.length cells
      /\ Forall (fun c => c = NO_ACCESS_COLOR \/ In c color_list) colors.
Proof.
  intros fmt zones col attr cells Hcol.
  unfold assign_colors_to_zones, column. rewrite Hcol. cbn [bind].
  set (values := sort_values Qle_bool (dropna cells)).
  pose proof (bin_count_bounds values) as Hb.
  pose proof (color_scale_length_4_to_7 _ Hb) as Hc.
  pose proof (compute_bins_length_any values) as Hl.
  set (n := bin_count values) in *.
  set (bins := compute_bins values n) in *.
  set (color_list := get_color_scale n) in *.
  do 4 eexists. split; [reflexivity|].
  split; [lia|]. split; [lia|]. split; [reflexivity|]. split; [reflexivity|].
  split; [reflexivity|]. split; [apply length_map|].
  apply Forall_forall. intros c Hin. apply in_map_iff in Hin.
  destruct Hin as [cell [<- _]]. unfold assign_color.
  destruct cell as [v|]; [|left; reflexivity].
  destruct (Qeq_bool v 0); [left; reflexivity|]. right.
  destruct (first_bin (map inject_Z bins) n v) as [i|] eqn:E.
  - apply first_bin_spec in E. apply nth_In. lia.
  - apply last_In. intro Hnil. rewrite Hnil in Hc. simpl in Hc. lia.
Qed.

Lemma legend_covers_every_assigned_color_witness :
  exists zones' bins color_list colors,
    assign_colors_to_zones Scenarios.plain_digits Scenarios.zones_1006
                           "access_A" "Emp 2024"
    = Ok (zones', bins, color_list)
    /\ (4 <= List.length color_list <= 7)%nat
    /\ List.length bins = S (List.length color_list)
    /\ ZONE_ID zones' = ZONE_ID Scenarios.zones_1006
    /\ numeric_columns zones' = numeric_columns Scenarios.zones_1006
    /\ color zones' = Some colors
    /\ List.length colors = List.length [Some 1006]
    /\ Forall (fun c => c = NO_ACCESS_COLOR \/ In c color_list) colors.
Proof.
  apply (legend_covers_every_assigned_color
           Scenarios.plain_digits Scenarios.zones_1006 "access_A" "Emp 2024"
           [Some 1006]).
  reflexivity.
Defined.

(** X19.  In both classifiers a larger value never gets an earlier
    class.  Of two non-zero values at or above the first edge, the larger
    one is given the colour of the same or of a later position of the
    colour list; in [assign_time_mapping_colors] this holds for any two
    non-zero values of the column. *)
Theorem larger_value_never_gets_an_earlier_class :
  forall (format_attribute_value : Z -> string -> string) (zones : GeoDataFrame)
         (col attribute_name : string) (color_scheme : scheme_dict)
         (cells : list (option Q)),
    get_column col (numeric_columns zones) = Some cells ->
    dropna cells <> [] ->
    (exists zones' bins color_list,
        assign_colors_to_zones format_attribute_value zones col attribute_name
        = Ok (zones', bins, color_list)
        /\ color zones'
           = Some (map (assign_color bins (Z.of_nat (List.length color_list)) color_list)
                       cells)
        /\ forall v v' : Q,
            inject_Z (hd 0%Z bins) <= v -> v <= v' -> ~ v == 0 -> ~ v' == 0 ->
            exists i j : nat,
              (i <= j < List.length color_list)%nat
              /\ assign_color bins (Z.of_nat (List.length color_list)) color_list (Some v)
                 = nth i color_list ""
              /\ assign_color bins (Z.of_nat (List.length color_list)) color_list (Some v')
                 = nth j color_list "")
    /\ (exists zones' bins colors,
           assign_time_mapping_colors zones col color_scheme = Ok (zones', bins, colors)
           /\ color zones' = Some (map (assign_class_color bins colors) cells)
           /\ forall v v' : Q,
               In (Some v) cells -> In (Some v') cells ->
               v <= v' -> ~ v == 0 -> ~ v' == 0 ->
               exists i j : nat,
                 (i <= j < List.length colors)%nat
                 /\ assign_class_color bins colors (Some v) = nth i colors ""
                 /\ assign_class_color bins colors (Some v') = nth j colors "").
Proof.
  intros fmt zones col attr cs cells Hcol Hne. split.
  - unfold assign_colors_to_zones, column. rewrite Hcol. cbn [bind].
    set (values := sort_values Qle_bool (dropna cells)).
    pose proof (sorted_nonempty cells Hne) as Hv. fold values in Hv.
    pose proof (bin_count_bounds values) as Hb.
    pose proof (color_scale_length_4_to_7 _ Hb) as Hc.
    pose proof (compute_bins_length_any values) as Hl.
    assert (Hs : StronglySorted Z.lt (compute_bins values (bin_count values))).
    { unfold compute_bins. destruct values; [contradiction|].
      apply force_increasing_sorted. }
    set (n := bin_count values) in *.
    set (bins := compute_bins values n) in *.
    set (color_list := get_color_scale n) in *.
    assert (En : Z.of_nat (List.length color_list) = n) by lia.
    do 3 eexists. split; [reflexivity|]. rewrite En.
    split; [reflexivity|].
    intros v v' H0 Hle Hnz Hnz'.
    assert (Hedges : List.length (map inject_Z bins) = S (Z.to_nat n))
      by (rewrite length_map; exact Hl).
    assert (H00 : nth 0 (map inject_Z bins) 0 <= v).
    { destruct bins; [simpl in Hl; lia | exact H0]. }
    destruct (first_bin_exists (map inject_Z bins) n v ltac:(lia) H00) as [i Hi].
    destruct (first_bin_exists (map inject_Z bins) n v' ltac:(lia) ltac:(lra)) as [j Hj].
    pose proof (first_bin_monotone _ _ _ _ _ _ (inject_Z_sorted _ Hs) Hedges Hle Hi Hj)
      as Hij.
    destruct (first_bin_spec _ _ _ _ Hi) as [Hi' _].
    destruct (first_bin_spec _ _ _ _ Hj) as [Hj' _].
    exists (Z.to_nat i), (Z.to_nat j). split; [lia|].
    split; apply assign_color_of_bin; assumption.
  - destruct (assign_time_mapping_colors_ok zones col cs cells Hcol Hne)
      as [colors Hok].
    cbv zeta in Hok.
    assert (Hfive : List.length colors = 5%nat).
    { revert Hok. unfold assign_time_mapping_colors, column. rewrite Hcol. cbn [bind].
      pose proof (sorted_nonempty cells Hne) as Hs.
      destruct (sort_values Qle_bool (dropna cells)) as [|x xs]; [contradiction|].
      destruct (scheme_item _ "60_plus"); cbn [bind]; [|discriminate].
      destruct (scheme_item _ "45_60"); cbn [bind]; [|discriminate].
      destruct (scheme_item _ "30_45"); cbn [bind]; [|discriminate].
      destruct (scheme_item _ "15_30"); cbn [bind]; [|discriminate].
      destruct (scheme_item _ "0_15"); cbn [bind]; [|discriminate].
      intro H. injection H as _ <-. reflexivity. }
    rewrite Hok. do 3 eexists. split; [reflexivity|]. split; [reflexivity|].
    set (bins := force_increasingQ _).
    assert (Hs : StronglySorted Qlt bins) by apply force_increasingQ_sorted.
    assert (Hlen : List.length bins = S (Z.to_nat 5)).
    { unfold bins. cbn [class_quantiles map force_increasingQ List.length].
      rewrite bump_fromQ_length. reflexivity. }
    assert (Hleast : forall x, In (Some x) cells -> nth 0 bins 0 <= x).
    { intros x Hx. unfold bins. cbn [class_quantiles map force_increasingQ nth].
      rewrite quantile_zero. apply sorted_first_is_least, In_dropna, Hx. }
    intros v v' Hin Hin' Hle Hnz Hnz'.
    destruct (first_bin_exists bins 5 v ltac:(lia) (Hleast v Hin)) as [i Hi].
    destruct (first_bin_exists bins 5 v' ltac:(lia) (Hleast v' Hin')) as [j Hj].
    pose proof (first_bin_monotone _ _ _ _ _ _ Hs Hlen Hle Hi Hj) as Hij.
    destruct (first_bin_spec _ _ _ _ Hi) as [Hi' _].
    destruct (first_bin_spec _ _ _ _ Hj) as [Hj' _].
    exists (Z.to_nat i), (Z.to_nat j). split; [lia|].
    split; apply assign_class_color_of_bin; assumption.
Qed.

Lemma larger_value_never_gets_an_earlier_class_witness :
  exists zones' bins colors,
    assign_time_mapping_colors Scenarios.zones_outlier "access_A" []
    = Ok (zones', bins, colors)
    /\ color zones'
       = Some (map (assign_class_color bins colors)
                   [Some 0; Some 0; Some 5; Some 10; Some 15; Some 1000000])
    /\ forall v v' : Q,
        In (Some v) [Some 0; Some 0; Some 5; Some 10; Some 15; Some 1000000] ->
        In (Some v') [Some 0; Some 0; Some 5; Some 10; Some 15; Some 1000000] ->
        v <= v' -> ~ v == 0 -> ~ v' == 0 ->
        exists i j : nat,
          (i <= j < List.length colors)%nat
          /\ assign_class_color bins colors (Some v) = nth i colors ""
          /\ assign_class_color bins colors (Some v') = nth j colors "".
Proof.
  apply (proj2 (larger_value_never_gets_an_earlier_class
                  Scenarios.plain_digits Scenarios.zones_outlier "access_A" "Emp 2024" []
                  [Some 0; Some 0; Some 5; Some 10; Some 15; Some 1000000]
                  eq_refl ltac:(simpl; discriminate))).
Defined.

Lemma Forall2_map_same {A B C : Type} (P : B -> C -> Prop) (f : A -> B) (g : A -> C)
    (l : list A) :
  (forall x, In x l -> P (f x) (g x)) -> Forall2 P (map f l) (map g l).
Proof.
  induction l as [|a tl IH]; intro H; simpl; constructor.
  - apply H. left. reflexivity.
  - apply IH. intros x Hx. apply H. right. exact Hx.
Qed.

(** X20.  [assign_time_mapping_colors] leaves a table whose column has
    no value as it is, with no edge and no colour.  Otherwise it returns
    six edges and the five colours of the ensured scheme from 60_plus to
    0_15, keeps the zone ids and numeric columns, and gives every zone a
    colour and a label that belong together: the neutral colour with
    "No Access", or the colour at position i with "Class i+1". *)
Theorem time_mapping_color_and_label_agree :
  forall (zones_df : GeoDataFrame) (total_col : string) (color_scheme : scheme_dict)
         (cells : list (option Q)),
    get_column total_col (numeric_columns zones_df) = Some cells ->
    (dropna cells = [] ->
     assign_time_mapping_colors zones_df total_col color_scheme = Ok (zones_df, [], []))
    /\ (dropna cells <> [] ->
        exists zones' bins colors zone_colors zone_labels,
          assign_time_mapping_colors zones_df total_col color_scheme
          = Ok (zones', bins, colors)
          /\ List.length bins = 6%nat
          /\ mapM (scheme_item (ensure_time_mapping_keys color_scheme))
                  ["60_plus"; "45_60"; "30_45"; "15_30"; "0_15"] = Ok colors
          /\ ZONE_ID zones' = ZONE_ID zones_df
          /\ numeric_columns zones' = numeric_columns zones_df
          /\ color zones' = Some zone_colors
          /\ label zones' = Some zone_labels
          /\ List.length zone_colors = List.length cells
          /\ Forall2 (fun c l =>
                        (c = NO_ACCESS_COLOR /\ l = NO_ACCESS_LABEL)
                        \/ exists i : Z,
                            (0 <= i < 5)%Z
                            /\ c = nth (Z.to_nat i) colors ""
                            /\ l = class_label i)
                     zone_colors zone_labels).
Proof.
  intros zones col cs cells Hcol. split.
  - intro Hnil. unfold assign_time_mapping_colors, column. rewrite Hcol. cbn [bind].
    rewrite Hnil. reflexivity.
  - intro Hne. unfold assign_time_mapping_colors, column. rewrite Hcol. cbn [bind].
    pose proof (sorted_nonempty cells Hne) as Hs.
    destruct (sort_values Qle_bool (dropna cells)) as [|x xs] eqn:Ev; [contradiction|].
    cbn [mapM].
    destruct (scheme_item_required cs "60_plus") as [c0 H0]; [simpl; tauto|].
    destruct (scheme_item_required cs "45_60") as [c1 H1]; [simpl; tauto|].
    destruct (scheme_item_required cs "30_45") as [c2 H2]; [simpl; tauto|].
    destruct (scheme_item_required cs "15_30") as [c3 H3]; [simpl; tauto|].
    destruct (scheme_item_required cs "0_15") as [c4 H4]; [simpl; tauto|].
    rewrite H0, H1, H2, H3, H4. cbn [bind].
    do 5 eexists. split; [reflexivity|].
    split.
    { cbn [class_quantiles map force_increasingQ List.length].
      rewrite bump_fromQ_length. reflexivity. }
    split; [reflexivity|]. split; [reflexivity|]. split; [reflexivity|].
    split; [reflexivity|]. split; [reflexivity|]. split; [apply length_map|].
    apply Forall2_map_same. intros cell _.
    unfold assign_class_color, assign_class_label.
    destruct cell as [v|]; [|left; split; reflexivity].
    destruct (Qeq_bool v 0); [left; split; reflexivity|]. right.
    destruct (first_bin _ 5 v) as [i|] eqn:E.
    + apply first_bin_spec in E. exists i. repeat split; lia.
    + exists 0%Z. repeat split; lia.
Qed.

Lemma time_mapping_color_and_label_agree_witness :
  assign_time_mapping_colors Scenarios.zones_all_null "total_zones_15" []
  = Ok (Scenarios.zones_all_null, [], []).
Proof.
  apply (proj1 (time_mapping_color_and_label_agree
                  Scenarios.zones_all_null "total_zones_15" [] [None] eq_refl)).
  reflexivity.
Defined.

(** ** color_zones_by_origin_travel_time *)

Lemma dropna_In {A : Type} (cells : list (option A)) (a : A) :
  In a (dropna cells) -> In (Some a) cells.
Proof.
  induction cells as [|[b|] tl IH]; simpl; [tauto| |].
  - intros [H|H]; [left; congruence | right; auto].
  - intro H. right. auto.
Qed.

Lemma get_column_app (name : string) (c1 c2 : list (string * list (option Q))) :
  get_column name c1 = None -> get_column name (c1 ++ c2) = get_column name c2.
Proof.
  induction c1 as [|[n c] tl IH]; simpl; [reflexivity|].
  destruct (String.eqb n name); [discriminate | exact IH].
Qed.

Lemma get_column_map_none (name : string) (g : list (option Q) -> list (option Q))
    (cols : list (string * list (option Q))) :
  get_column name cols = None ->
  get_column name (map (fun c => (fst c, g (snd c))) cols) = None.
Proof.
  induction cols as [|[n c] tl IH]; simpl; [reflexivity|].
  destruct (String.eqb n name); [discriminate | exact IH].
Qed.

(** The left merge succeeds on a zone table without a [travel_time]
    column, and its [travel_time] column is [joined_times]. *)
Lemma merged_travel_time (zones_df : GeoDataFrame) (times : list (Z * Q)) :
  has_column zones_df "travel_time" = false ->
  exists merged,
    merge_times zones_df times = Ok merged
    /\ column merged "travel_time" = Ok (joined_times (ZONE_ID zones_df) times).
Proof.
  intro Hcol. unfold merge_times. rewrite Hcol. eexists. split; [reflexivity|].
  unfold has_column in Hcol. apply negb_false_iff in Hcol.
  destruct (get_column "travel_time" (numeric_columns zones_df)) eqn:E; [discriminate|].
  unfold column. cbn [numeric_columns].
  rewrite get_column_app by (apply get_column_map_none; exact E).
  reflexivity.
Qed.

Lemma Qmax_list_ge (l : list Q) :
  forall a, a <= Qmax_list a l /\ forall x, In x l -> x <= Qmax_list a l.
Proof.
  unfold Qmax_list. induction l as [|y tl IH]; intro a; simpl.
  - split; [lra | tauto].
  - destruct (IH (if Qle_bool y a then a else y)) as [H1 H2].
    destruct (Qle_bool y a) eqn:E.
    + apply Qle_bool_iff in E. split; [exact H1|].
      intros x [<-|Hx]; [lra | auto].
    + assert (a < y).
      { apply Qnot_le_lt. intro H. apply Qle_bool_iff in H. congruence. }
      split; [lra|]. intros x [<-|Hx]; [exact H1 | auto].
Qed.

Lemma Qmax_list_In (l : list Q) : forall a, In (Qmax_list a l) (a :: l).
Proof.
  unfold Qmax_list. induction l as [|y tl IH]; intro a; simpl; [tauto|].
  destruct (IH (if Qle_bool y a then a else y)) as [H|H].
  - destruct (Qle_bool y a); [left; exact H | right; left; exact H].
  - right. right. exact H.
Qed.

Lemma Qmin_list_le (l : list Q) :
  forall a, Qmin_list a l <= a /\ forall x, In x l -> Qmin_list a l <= x.
Proof.
  unfold Qmin_list. induction l as [|y tl IH]; intro a; simpl.
  - split; [lra | tauto].
  - destruct (IH (if Qle_bool a y then a else y)) as [H1 H2].
    destruct (Qle_bool a y) eqn:E.
    + apply Qle_bool_iff in E. split; [exact H1|].
      intros x [<-|Hx]; [lra | auto].
    + assert (y < a).
      { apply Qnot_le_lt. intro H. apply Qle_bool_iff in H. congruence. }
      split; [lra|]. intros x [<-|Hx]; [exact H1 | auto].
Qed.

Lemma Qmin_list_In (l : list Q) : forall a, In (Qmin_list a l) (a :: l).
Proof.
  unfold Qmin_list. induction l as [|y tl IH]; intro a; simpl; [tauto|].
  destruct (IH (if Qle_bool a y then a else y)) as [H|H].
  - destruct (Qle_bool a y); [left; exact H | right; left; exact H].
  - right. right. exact H.
Qed.

(** A time is at or below the boundary [j * time_band] exactly when its
    quotient by the band, rounded up, is at most [j]. *)
Lemma boundary_reached (w j : Z) (t : Q) :
  (0 < w)%Z ->
  (t <= inject_Z (j * w) <-> (Qceiling (t / inject_Z w) <= j)%Z).
Proof.
  intro Hw.
  assert (Hwq : 0 < inject_Z w).
  { change 0 with (inject_Z 0). rewrite <- Zlt_Qlt. exact Hw. }
  rewrite inject_Z_mult. split.
  - intro H. rewrite <- (Qceiling_Z j). apply Qceiling_resp_le.
    apply Qle_shift_div_r; assumption.
  - intro H. pose proof (Qle_ceiling (t / inject_Z w)) as Hc.
    rewrite Zle_Qle in H.
    assert (Hd : t / inject_Z w <= inject_Z j) by lra.
    assert (Ht : t == (t / inject_Z w) * inject_Z w) by (field; lra).
    rewrite Ht. apply Qmult_le_compat_r; lra.
Qed.

Lemma boundaries_from_shape (w : Z) (max_time : Q) :
  (0 < w)%Z ->
  forall (fuel : nat) (i : Z),
    (i <= Qceiling (max_time / inject_Z w))%Z ->
    (Qceiling (max_time / inject_Z w) - i < Z.of_nat fuel)%Z ->
    boundaries_from fuel i w max_time
    = map (fun n => ((i + Z.of_nat n) * w)%Z)
          (seq 0 (Z.to_nat (Qceiling (max_time / inject_Z w) - i + 1))).
Proof.
  intro Hw. set (K := Qceiling (max_time / inject_Z w)).
  induction fuel as [|f IH]; intros i Hi Hf; [lia|].
  cbn [boundaries_from].
  destruct (Qle_bool max_time (inject_Z (i * w))) eqn:E.
  - apply Qle_bool_iff in E. apply (boundary_reached w i max_time Hw) in E.
    fold K in E. assert (Ei : i = K) by lia. subst i.
    replace (K - K + 1)%Z with 1%Z by lia. simpl.
    replace (K + 0)%Z with K by lia. reflexivity.
  - assert (Hlt : (i < K)%Z).
    { destruct (Z.lt_ge_cases i K) as [H|H]; [exact H|]. exfalso.
      assert (Hr : max_time <= inject_Z (i * w))
        by (apply (boundary_reached w i max_time Hw); fold K; lia).
      apply Qle_bool_iff in Hr. congruence. }
    rewrite IH by lia.
    replace (Z.to_nat (K - i + 1)) with (S (Z.to_nat (K - (i + 1) + 1))) by lia.
    cbn [seq map]. rewrite <- seq_shift, map_map.
    f_equal; [f_equal; lia|]. apply map_ext. intro n. f_equal. lia.
Qed.

Lemma boundaries_from_zero (w : Z) (max_time : Q) (fuel : nat) :
  (0 < w)%Z ->
  (0 <= Qceiling (max_time / inject_Z w))%Z ->
  (Qceiling (max_time / inject_Z w) < Z.of_nat fuel)%Z ->
  boundaries_from fuel 0 w max_time
  = map (fun j => (j * w)%Z) (range (Qceiling (max_time / inject_Z w) + 1)).
Proof.
  intros Hw H0 Hf. rewrite (boundaries_from_shape w max_time Hw) by lia.
  unfold range. rewrite map_map. rewrite Z.sub_0_r. apply map_ext.
  intro n. reflexivity.
Qed.

Lemma range_nth (n j d : Z) : (0 <= j < n)%Z -> nth (Z.to_nat j) (range n) d = j.
Proof.
  intro H. unfold range.
  rewrite (nth_indep _ d (Z.of_nat 0)) by (rewrite length_map, length_seq; lia).
  rewrite map_nth, seq_nth by lia. lia.
Qed.

Lemma scaled_range_nth (w n j : Z) :
  (0 <= j < n)%Z -> nth (Z.to_nat j) (map (fun i => (i * w)%Z) (range n)) 0%Z = (j * w)%Z.
Proof.
  intro H. change 0%Z with ((fun i => (i * w)%Z) 0%Z) at 1.
  rewrite map_nth, range_nth by exact H. reflexivity.
Qed.

Lemma py_index_nth {A : Type} (l : list A) (i : Z) (d : A) :
  (0 <= i < Z.of_nat (List.length l))%Z -> py_index l i = Ok (nth (Z.to_nat i) l d).
Proof.
  intro H. unfold py_index.
  destruct (Z.ltb_spec i 0) as [Hneg|_]; [lia|].
  destruct (Z.leb_spec 0 i) as [_|Hneg]; [|lia].
  destruct (Z.ltb_spec i (Z.of_nat (List.length l))) as [_|Hbig]; [|lia].
  cbn [andb]. destruct (nth_error l (Z.to_nat i)) as [a|] eqn:E.
  - rewrite (nth_error_nth _ _ d E). reflexivity.
  - apply nth_error_None in E. lia.
Qed.

Lemma py_index_last {A : Type} (l : list A) (d : A) :
  l <> [] -> py_index l (-1) = Ok (nth (List.length l - 1) l d).
Proof.
  intro Hne. assert (Hlen : (0 < List.length l)%nat).
  { destruct l; [contradiction | simpl; lia]. }
  unfold py_index. cbn [Z.ltb Z.compare].
  destruct (Z.leb_spec 0 (-1 + Z.of_nat (List.length l))) as [_|H]; [|lia].
  destruct (Z.ltb_spec (-1 + Z.of_nat (List.length l)) (Z.of_nat (List.length l)))
    as [_|H]; [|lia].
  cbn [andb].
  replace (Z.to_nat (-1 + Z.of_nat (List.length l))) with (List.length l - 1)%nat by lia.
  destruct (nth_error l (List.length l - 1)) as [a|] eqn:E.
  - rewrite (nth_error_nth _ _ d E). reflexivity.
  - apply nth_error_None in E. lia.
Qed.

Lemma find_first_seq (p : Z -> bool) (c : Z) :
  p c = true ->
  forall (m s : nat),
    (Z.of_nat s <= c < Z.of_nat s + Z.of_nat m)%Z ->
    (forall i, (Z.of_nat s <= i < c)%Z -> p i = false) ->
    find p (map Z.of_nat (seq s m)) = Some c.
Proof.
  intro Hc. induction m as [|m IH]; intros s Hs Hbefore; [lia|].
  cbn [seq map find]. destruct (Z.eq_dec (Z.of_nat s) c) as [E|E].
  - rewrite E, Hc. reflexivity.
  - rewrite (Hbefore (Z.of_nat s)) by lia. apply IH; [lia|].
    intros i Hi. apply Hbefore. lia.
Qed.

Lemma find_first_range (p : Z -> bool) (n c : Z) :
  (0 <= c < n)%Z -> p c = true ->
  (forall i, (0 <= i < c)%Z -> p i = false) ->
  find p (range n) = Some c.
Proof.
  intros Hc Hp Hbefore. unfold range. apply find_first_seq; [exact Hp | lia|].
  intros i Hi. apply Hbefore. lia.
Qed.

Lemma mapM_all_ok {A B : Type} (f : A -> result B) (g : A -> B) (l : list A) :
  (forall x, In x l -> f x = Ok (g x)) -> mapM f l = Ok (map g l).
Proof.
  induction l as [|a tl IH]; intro H; [reflexivity|].
  cbn [mapM map]. rewrite (H a) by (left; reflexivity). cbn [bind].
  rewrite IH by (intros x Hx; apply H; right; exact Hx). reflexivity.
Qed.

Lemma ceiling_le_floor_succ (x : Q) : (Qceiling x <= Qfloor x + 1)%Z.
Proof.
  pose proof (Qceiling_lt x) as H1. pose proof (Qlt_floor x) as H2.
  assert (H : inject_Z (Qceiling x - 1) < inject_Z (Qfloor x + 1)) by lra.
  rewrite <- Zlt_Qlt in H. lia.
Qed.

(** The loop over the boundaries stops at the class of the time. *)
Lemma class_found (w K : Z) (t : Q) :
  (0 < w)%Z -> (1 <= K)%Z -> (Qceiling (t / inject_Z w) <= K)%Z ->
  find (fun i => Qle_bool t (inject_Z (nth (Z.to_nat (i + 1))
                                           (map (fun j => (j * w)%Z) (range (K + 1))) 0%Z)))
       (range K)
  = Some (time_class w t)
  /\ (0 <= time_class w t < K)%Z.
Proof.
  intros Hw HK Ht. unfold time_class. set (c := Qceiling (t / inject_Z w)) in *.
  split; [|lia]. apply find_first_range; [lia| |].
  - rewrite scaled_range_nth by lia. apply Qle_bool_iff.
    apply boundary_reached; [exact Hw|]. fold c. lia.
  - intros i Hi. rewrite scaled_range_nth by lia. apply not_true_is_false.
    intro H. apply Qle_bool_iff in H. apply boundary_reached in H; [|exact Hw].
    fold c in H. lia.
Qed.

Lemma band_color_and_label (format_0f : Q -> string) (w K : Z) (colors : list string)
    (t : Q) :
  (0 < w)%Z -> (1 <= K)%Z -> (Qceiling (t / inject_Z w) <= K)%Z ->
  (Z.to_nat K <= List.length colors)%nat ->
  get_time_band_color_and_label format_0f (map (fun j => (j * w)%Z) (range (K + 1)))
                                colors (Some t)
  = Ok (nth (Z.to_nat (time_class w t)) colors "",
        if (time_class w t =? K - 1)%Z
        then format_0f (inject_Z (time_class w t * w)) ++ "+ min"
        else format_0f (inject_Z (time_class w t * w)) ++ "-"
             ++ format_0f (inject_Z ((time_class w t + 1) * w)) ++ " min").
Proof.
  intros Hw HK Ht Hcolors. unfold get_time_band_color_and_label.
  assert (En : Z.of_nat (List.length (map (fun j => (j * w)%Z) (range (K + 1))))
               = (K + 1)%Z).
  { rewrite length_map, range_length. lia. }
  rewrite En. replace (K + 1 - 1)%Z with K by lia.
  replace (K + 1 - 2)%Z with (K - 1)%Z by lia.
  destruct (class_found w K t Hw HK Ht) as [Hfind Hc]. rewrite Hfind.
  set (c := time_class w t) in *.
  rewrite (py_index_nth _ c 0%Z) by lia. cbn [bind].
  rewrite (py_index_nth _ (c + 1)%Z 0%Z) by lia. cbn [bind].
  rewrite (py_index_nth colors c "") by lia. cbn [bind].
  rewrite !scaled_range_nth by lia. reflexivity.
Qed.

(** X21.  On its main path [color_zones_by_origin_travel_time] colours
    by the bands of the band width.  For a positive width, travel times
    from the origin that are not all equal and a longest one above 0, the
    number of classes is the longest time divided by the width, rounded
    up; the boundary added after the loop is never needed; a zone without
    a time is grey with "No data"; and a zone at [t] minutes gets the
    colour of its class, the one from above [c * time_band] up to
    [(c + 1) * time_band], with that range as its label. *)
Theorem travel_time_classes_follow_the_bands :
  forall (format_0f : Q -> string)
         (palette : scheme_dict -> Z -> result (list string))
         (zones_df : GeoDataFrame) (skim_df : list DataProcessing.skim_row)
         (origin_zone time_band : Z) (color_scheme : scheme_dict)
         (longest : Q) (colors : list string),
    let joined := joined_times (ZONE_ID zones_df) (origin_times skim_df origin_zone) in
    let num_classes := Qceiling (longest / inject_Z time_band) in
    let painted :=
      color_zones_by_origin_travel_time format_0f palette zones_df skim_df
                                        origin_zone time_band color_scheme in
    has_column zones_df "travel_time" = false ->
    (0 < time_band)%Z ->
    In (Some longest) joined ->
    (forall t, In (Some t) joined -> t <= longest) ->
    (exists t, In (Some t) joined /\ t < longest) ->
    0 < longest ->
    palette (ensure_time_mapping_keys color_scheme) num_classes = Ok colors ->
    (Z.to_nat num_classes <= List.length colors)%nat ->
    color painted
    = Some (map (fun cell =>
                   match cell with
                   | None => NO_DATA_COLOR
                   | Some t => nth (Z.to_nat (time_class time_band t)) colors ""
                   end) joined)
    /\ label painted
       = Some (map (fun cell =>
                      match cell with
                      | None => NO_DATA_LABEL
                      | Some t =>
                          let c := time_class time_band t in
                          if (c =? num_classes - 1)%Z
                          then format_0f (inject_Z (c * time_band)) ++ "+ min"
                          else format_0f (inject_Z (c * time_band)) ++ "-"
                               ++ format_0f (inject_Z ((c + 1) * time_band)) ++ " min"
                      end) joined).
Proof.
  intros f0 pal zones skim o w cs longest colors joined K painted
         Hcol Hw Hin Hall [t1 [Hin1 Hlt1]] Hpos Hpal Hlen.
  assert (Hwq : 0 < inject_Z w).
  { change 0 with (inject_Z 0). rewrite <- Zlt_Qlt. exact Hw. }
  destruct (merged_travel_time zones (origin_times skim o) Hcol) as [merged_of [Hm Hc]].
  fold joined in Hc.
  destruct (dropna joined) as [|t0 ts] eqn:Ed.
  { apply In_dropna in Hin. rewrite Ed in Hin. contradiction. }
  pose proof (Qmax_list_ge ts t0) as [Hmx1 Hmx2].
  pose proof (Qmax_list_In ts t0) as Hmx3.
  pose proof (Qmin_list_le ts t0) as [Hmn1 Hmn2].
  set (mx := Qmax_list t0 ts) in *. set (mn := Qmin_list t0 ts) in *.
  assert (Hvalid : forall t, In (Some t) joined -> t <= mx /\ mn <= t).
  { intros t Ht. apply In_dropna in Ht. rewrite Ed in Ht.
    destruct Ht as [<-|Ht]; [split; assumption | split; auto]. }
  assert (Emx : mx == longest).
  { apply Qle_antisym.
    - apply Hall, dropna_In. rewrite Ed. exact Hmx3.
    - apply Hvalid, Hin. }
  assert (Hrange : Qle_bool (mx - mn) 0 = false).
  { apply Qle_bool_false. destruct (Hvalid t1 Hin1) as [_ H]. lra. }
  assert (Hq : 0 <= mx / inject_Z w).
  { apply Qle_shift_div_l; [exact Hwq | lra]. }
  assert (Eint : py_int (mx / inject_Z w) = Qfloor (mx / inject_Z w)).
  { unfold py_int. apply Qle_bool_iff in Hq. rewrite Hq. reflexivity. }
  assert (EK : Qceiling (mx / inject_Z w) = K).
  { unfold K. rewrite Emx. reflexivity. }
  assert (HK : (1 <= K)%Z).
  { pose proof (Qle_ceiling (longest / inject_Z w)) as Hce. fold K in Hce.
    assert (Hd : 0 < longest / inject_Z w).
    { apply Qlt_shift_div_l; [exact Hwq | lra]. }
    assert (Hz : inject_Z 0 < inject_Z K) by (change (inject_Z 0) with 0; lra).
    rewrite <- Zlt_Qlt in Hz. lia. }
  pose proof (ceiling_le_floor_succ (mx / inject_Z w)) as Hcf. rewrite EK in Hcf.
  set (bs := map (fun j => (j * w)%Z) (range (K + 1))).
  assert (Elen : List.length bs = Z.to_nat (K + 1)).
  { unfold bs. rewrite length_map, range_length. reflexivity. }
  assert (Hbs : bs <> []).
  { intro Hnil. rewrite Hnil in Elen. simpl in Elen. lia. }
  assert (Enth : nth (Z.to_nat K) bs 0%Z = (K * w)%Z).
  { unfold bs. apply scaled_range_nth. lia. }
  assert (Hreach : Qle_bool mx (inject_Z (K * w)) = true).
  { apply Qle_bool_iff. apply boundary_reached; [exact Hw | lia]. }
  set (expected :=
         fun cell : option Q =>
           match cell with
           | None => (NO_DATA_COLOR, NO_DATA_LABEL)
           | Some t =>
               (nth (Z.to_nat (time_class w t)) colors "",
                if (time_class w t =? K - 1)%Z
                then f0 (inject_Z (time_class w t * w)) ++ "+ min"
                else f0 (inject_Z (time_class w t * w)) ++ "-"
                     ++ f0 (inject_Z ((time_class w t + 1) * w)) ++ " min")
           end).
  assert (Htry :
            color_zones_try f0 pal zones skim o w cs
            = Ok (mkFrame
                    (ZONE_ID merged_of) (numeric_columns merged_of)
                    (Some (map fst (map expected joined)))
                    (Some (map snd (map expected joined))))).
  { unfold color_zones_try. fold (origin_times skim o).
    rewrite Hm. cbn [bind]. rewrite Hc. cbn [bind]. fold joined.
    rewrite Ed. fold mx mn.
    rewrite Hrange. unfold int_quotient.
    destruct (Z.eqb_spec w 0) as [E0|_]; [lia|]. cbn [bind].
    rewrite Eint.
    rewrite (boundaries_from_zero w mx _ Hw) by (rewrite EK; lia).
    rewrite EK. fold bs.
    rewrite (py_index_last bs 0%Z Hbs). cbn [bind].
    replace (List.length bs - 1)%nat with (Z.to_nat K) by lia.
    rewrite Enth. unfold Qlt_bool. rewrite Hreach. cbn [negb].
    replace (Z.of_nat (List.length bs) - 1)%Z with K by lia.
    rewrite Hpal. cbn [bind].
    rewrite (mapM_all_ok _ expected); [reflexivity|].
    intros [t|] Ht; [|reflexivity].
    apply band_color_and_label; [exact Hw | exact HK | | exact Hlen].
    unfold K. apply Qceiling_resp_le.
    apply Qmult_le_compat_r; [apply Hall, Ht|].
    apply Qlt_le_weak, Qinv_lt_0_compat, Hwq. }
  subst painted. unfold color_zones_by_origin_travel_time. rewrite Htry.
  cbn [color label]. rewrite !map_map.
  split; f_equal; apply map_ext; intros [t|]; reflexivity.
Qed.

Lemma travel_time_classes_follow_the_bands_witness :
  color (color_zones_by_origin_travel_time
           Scenarios.plain_0f (generate_dynamic_color_palette (fun _ => Err ValueError))
           Scenarios.zones3 Scenarios.skim3 1 15 [])
  = Some (map (fun cell =>
                 match cell with
                 | None => NO_DATA_COLOR
                 | Some t => nth (Z.to_nat (time_class 15 t)) ["#0d47a1"; "#42a5f5"] ""
                 end)
              (joined_times (ZONE_ID Scenarios.zones3)
                            (origin_times Scenarios.skim3 1))).
Proof.
  apply (travel_time_classes_follow_the_bands
           Scenarios.plain_0f (generate_dynamic_color_palette (fun _ => Err ValueError))
           Scenarios.zones3 Scenarios.skim3 1%Z 15%Z [] 20 ["#0d47a1"; "#42a5f5"]).
  - reflexivity.
  - lia.
  - simpl. tauto.
  - intros t H. simpl in H.
    destruct H as [H|[H|[H|[]]]]; [discriminate H | | ];
      injection H as <-; discriminate.
  - exists 10. split; [simpl; tauto | reflexivity].
  - reflexivity.
  - reflexivity.
  - simpl. lia.
Defined.

Lemma merged_zone_ids (zones_df : GeoDataFrame) (times : list (Z * Q)) (merged : GeoDataFrame) :
  merge_times zones_df times = Ok merged ->
  ZONE_ID merged
  = repeat_rows (map (fun z => Nat.max 1 (List.length
                                            (filter (fun t => (fst t =? z)%Z) times)))
                     (ZONE_ID zones_df))
                (ZONE_ID zones_df).
Proof.
  unfold merge_times. destruct (has_column zones_df "travel_time"); [discriminate|].
  intro H. injection H as <-. reflexivity.
Qed.

(** The merge gives as many rows as its [travel_time] column has cells. *)
Lemma merged_rows_length (zone_ids : list Z) (times : list (Z * Q)) :
  List.length
    (repeat_rows (map (fun z => Nat.max 1 (List.length
                                             (filter (fun t => (fst t =? z)%Z) times)))
                      zone_ids)
                 zone_ids)
  = List.length (joined_times zone_ids times).
Proof.
  unfold repeat_rows, joined_times.
  induction zone_ids as [|z tl IH]; [reflexivity|].
  cbn [map combine flat_map fst snd]. rewrite !length_app, IH, repeat_length.
  f_equal. destruct (filter (fun t => (fst t =? z)%Z) times) as [|m ms];
    [reflexivity|].
  cbv beta iota. cbn [List.length]. rewrite length_map. lia.
Qed.

Lemma unmatched_zones (zone_ids : list Z) (times : list (Z * Q)) :
  (forall z, In z zone_ids -> filter (fun t => (fst t =? z)%Z) times = []) ->
  joined_times zone_ids times = map (fun _ => None) zone_ids
  /\ repeat_rows (map (fun z => Nat.max 1 (List.length
                                             (filter (fun t => (fst t =? z)%Z) times)))
                      zone_ids)
                 zone_ids
     = zone_ids.
Proof.
  unfold repeat_rows, joined_times.
  induction zone_ids as [|z tl IH]; intro H; [split; reflexivity|].
  destruct IH as [IH1 IH2]; [intros x Hx; apply H; right; exact Hx|].
  cbn [map combine flat_map fst snd].
  rewrite (H z) by (left; reflexivity).
  split; [cbn [app]; f_equal; exact IH1 | simpl; f_equal; exact IH2].
Qed.

Lemma dropna_all_null {A B : Type} (l : list B) :
  dropna (map (fun _ => @None A) l) = [].
Proof. induction l; [reflexivity | exact IHl]. Qed.

Lemma repeat_as_map {A B : Type} (c : A) (l : list B) :
  repeat c (List.length l) = map (fun _ => c) l.
Proof. induction l; simpl; [reflexivity | f_equal; assumption]. Qed.

(** X22.  An origin with no skim row to a zone of the table: the
    guarded block does not raise, the zone rows are kept one for one, and
    every zone is grey with the label "No data". *)
Theorem origin_without_times_is_painted_no_data :
  forall (format_0f : Q -> string)
         (palette : scheme_dict -> Z -> result (list string))
         (zones_df : GeoDataFrame) (skim_df : list DataProcessing.skim_row)
         (origin_zone time_band : Z) (color_scheme : scheme_dict),
    let painted :=
      color_zones_by_origin_travel_time format_0f palette zones_df skim_df
                                        origin_zone time_band color_scheme in
    has_column zones_df "travel_time" = false ->
    (forall r, In r skim_df -> DataProcessing.origin_zone r = origin_zone ->
               ~ In (DataProcessing.destination_zone r) (ZONE_ID zones_df)) ->
    ZONE_ID painted = ZONE_ID zones_df
    /\ color painted = Some (map (fun _ => NO_DATA_COLOR) (ZONE_ID zones_df))
    /\ label painted = Some (map (fun _ => NO_DATA_LABEL) (ZONE_ID zones_df)).
Proof.
  intros f0 pal zones skim o w cs painted Hcol Hnone.
  assert (Hfilter : forall z, In z (ZONE_ID zones) ->
                              filter (fun t => (fst t =? z)%Z) (origin_times skim o) = []).
  { intros z Hz. destruct (filter _ (origin_times skim o)) as [|m ms] eqn:E;
      [reflexivity|]. exfalso.
    assert (Hm : In m (filter (fun t => (fst t =? z)%Z) (origin_times skim o)))
      by (rewrite E; left; reflexivity).
    apply filter_In in Hm. destruct Hm as [Hm Hz'].
    unfold origin_times in Hm. apply in_map_iff in Hm.
    destruct Hm as [r [<- Hr]]. apply filter_In in Hr. destruct Hr as [Hr Ho].
    cbn [fst] in Hz'. apply Z.eqb_eq in Hz', Ho.
    apply (Hnone r Hr Ho). rewrite Hz'. exact Hz. }
  destruct (unmatched_zones _ _ Hfilter) as [Hj Hids].
  destruct (merged_travel_time zones (origin_times skim o) Hcol) as [merged [Hm Hc]].
  pose proof (merged_zone_ids _ _ _ Hm) as Hz. rewrite Hids in Hz.
  assert (Htry : color_zones_try f0 pal zones skim o w cs
                 = Ok (paint_all merged NO_DATA_COLOR NO_DATA_LABEL)).
  { unfold color_zones_try. fold (origin_times skim o).
    rewrite Hm. cbn [bind]. rewrite Hc. cbn [bind].
    rewrite Hj, dropna_all_null. reflexivity. }
  subst painted. unfold color_zones_by_origin_travel_time. rewrite Htry.
  unfold paint_all. cbn [ZONE_ID color label]. rewrite Hz, !repeat_as_map.
  repeat split.
Qed.

Lemma origin_without_times_is_painted_no_data_witness :
  ZONE_ID (color_zones_by_origin_travel_time Scenarios.plain_0f Scenarios.flat_palette
             Scenarios.zones3 Scenarios.skim3 3 15 [])
  = ZONE_ID Scenarios.zones3
  /\ color (color_zones_by_origin_travel_time Scenarios.plain_0f Scenarios.flat_palette
              Scenarios.zones3 Scenarios.skim3 3 15 [])
     = Some (map (fun _ => NO_DATA_COLOR) (ZONE_ID Scenarios.zones3))
  /\ label (color_zones_by_origin_travel_time Scenarios.plain_0f Scenarios.flat_palette
              Scenarios.zones3 Scenarios.skim3 3 15 [])
     = Some (map (fun _ => NO_DATA_LABEL) (ZONE_ID Scenarios.zones3)).
Proof.
  apply (origin_without_times_is_painted_no_data
           Scenarios.plain_0f Scenarios.flat_palette
           Scenarios.zones3 Scenarios.skim3 3%Z 15%Z []).
  - reflexivity.
  - intros r Hr Ho. simpl in Hr.
    destruct Hr as [<-|[<-|[<-|[]]]]; discriminate Ho.
Defined.


(** X23.  When all the travel times from the origin are equal, as they
    are when it reaches a single zone, every row is painted with the
    colour under 60_plus and labelled with that time, the zones without a
    travel time included. *)
Theorem single_travel_time_paints_every_zone_darkest :
  forall (format_0f : Q -> string)
         (palette : scheme_dict -> Z -> result (list string))
         (zones_df : GeoDataFrame) (skim_df : list DataProcessing.skim_row)
         (origin_zone time_band : Z) (color_scheme : scheme_dict) (t : Q),
    let joined := joined_times (ZONE_ID zones_df) (origin_times skim_df origin_zone) in
    let painted :=
      color_zones_by_origin_travel_time format_0f palette zones_df skim_df
                                        origin_zone time_band color_scheme in
    has_column zones_df "travel_time" = false ->
    In (Some t) joined ->
    (forall t', In (Some t') joined -> t' == t) ->
    exists darkest shown,
      scheme_item (ensure_time_mapping_keys color_scheme) "60_plus" = Ok darkest
      /\ shown == t
      /\ color painted = Some (map (fun _ => darkest) joined)
      /\ label painted = Some (map (fun _ => format_0f shown ++ " min") joined).
Proof.
  intros f0 pal zones skim o w cs t joined painted Hcol Hin Hsame.
  destruct (scheme_item_required cs "60_plus") as [darkest Hd]; [simpl; tauto|].
  destruct (merged_travel_time zones (origin_times skim o) Hcol) as [merged [Hm Hc]].
  fold joined in Hc.
  pose proof (merged_zone_ids _ _ _ Hm) as Hz.
  pose proof (merged_rows_length (ZONE_ID zones) (origin_times skim o)) as Hl.
  rewrite <- Hz in Hl. fold joined in Hl.
  destruct (dropna joined) as [|t0 ts] eqn:Ed.
  { apply In_dropna in Hin. rewrite Ed in Hin. contradiction. }
  pose proof (Qmax_list_In ts t0) as Hmx.
  pose proof (Qmin_list_In ts t0) as Hmn.
  rewrite <- Ed in Hmx, Hmn. apply dropna_In, Hsame in Hmx. apply dropna_In, Hsame in Hmn.
  exists darkest, (Qmin_list t0 ts). split; [exact Hd|]. split; [exact Hmn|].
  assert (Htry : color_zones_try f0 pal zones skim o w cs
                 = Ok (paint_all merged darkest (f0 (Qmin_list t0 ts) ++ " min"))).
  { unfold color_zones_try. fold (origin_times skim o).
    rewrite Hm. cbn [bind]. rewrite Hc. cbn [bind]. rewrite Ed.
    assert (Hr : Qle_bool (Qmax_list t0 ts - Qmin_list t0 ts) 0 = true).
    { apply Qle_bool_iff. lra. }
    rewrite Hr, Hd. reflexivity. }
  subst painted. unfold color_zones_by_origin_travel_time. rewrite Htry.
  unfold paint_all. cbn [color label]. rewrite Hl, !repeat_as_map. split; reflexivity.
Qed.

Lemma single_travel_time_paints_every_zone_darkest_witness :
  exists darkest shown,
    scheme_item (ensure_time_mapping_keys []) "60_plus" = Ok darkest
    /\ shown == 10
    /\ color (color_zones_by_origin_travel_time Scenarios.plain_0f Scenarios.flat_palette
                Scenarios.zones3 Scenarios.skim3 2 15 [])
       = Some (map (fun _ => darkest)
                   (joined_times (ZONE_ID Scenarios.zones3)
                                 (origin_times Scenarios.skim3 2)))
    /\ label (color_zones_by_origin_travel_time Scenarios.plain_0f Scenarios.flat_palette
                Scenarios.zones3 Scenarios.skim3 2 15 [])
       = Some (map (fun _ => Scenarios.plain_0f shown ++ " min")
                   (joined_times (ZONE_ID Scenarios.zones3)
                                 (origin_times Scenarios.skim3 2))).
Proof.
  apply (single_travel_time_paints_every_zone_darkest
           Scenarios.plain_0f Scenarios.flat_palette
           Scenarios.zones3 Scenarios.skim3 2%Z 15%Z [] 10).
  - reflexivity.
  - simpl. tauto.
  - intros t' H. simpl in H.
    destruct H as [H|[H|[H|[]]]]; [injection H as <-; reflexivity | discriminate H ..].
Defined.

(** ** The gradient of generate_dynamic_color_palette *)

Lemma py_int_of_Z (x : Q) (z : Z) : x == inject_Z z -> py_int x = z.
Proof.
  intro E. unfold py_int. destruct (Qle_bool 0 x).
  - rewrite E. apply Qfloor_Z.
  - rewrite E. apply Qceiling_Z.
Qed.

Lemma py_int_floor (x : Q) : 0 <= x -> py_int x = Qfloor x.
Proof.
  intro H. unfold py_int. apply Qle_bool_iff in H. rewrite H. reflexivity.
Qed.

Lemma mapM_length {A B : Type} (f : A -> result B) (l : list A) :
  forall r, mapM f l = Ok r -> List.length r = List.length l.
Proof.
  induction l as [|a tl IH]; intros r H; simpl in H.
  - injection H as <-. reflexivity.
  - destruct (f a) as [b|e]; [|discriminate]. cbn [bind] in H.
    destruct (mapM f tl) as [bs|e]; [|discriminate]. cbn [bind] in H.
    injection H as <-. simpl. f_equal. apply IH. reflexivity.
Qed.

Lemma mapM_succeeds {A B : Type} (f : A -> result B) (l : list A) :
  (forall x, In x l -> exists y, f x = Ok y) -> exists r, mapM f l = Ok r.
Proof.
  induction l as [|a tl IH]; intro H; [exists []; reflexivity|].
  destruct (H a) as [b Hb]; [left; reflexivity|].
  destruct IH as [bs Hbs]; [intros x Hx; apply H; right; exact Hx|].
  exists (b :: bs). cbn [mapM]. rewrite Hb. cbn [bind]. rewrite Hbs. reflexivity.
Qed.

Lemma mapM_nth_error {A B : Type} (f : A -> result B) (l : list A) :
  forall r, mapM f l = Ok r ->
  forall (k : nat) (a : A) (b : B),
    nth_error l k = Some a -> f a = Ok b -> nth_error r k = Some b.
Proof.
  induction l as [|x tl IH]; intros r H k a b Hk Hf; [destruct k; discriminate|].
  simpl in H. destruct (f x) as [y|e] eqn:Ex; [|discriminate]. cbn [bind] in H.
  destruct (mapM f tl) as [ys|e]; [|discriminate]. cbn [bind] in H.
  injection H as <-. destruct k as [|k]; simpl in *.
  - injection Hk as ->. congruence.
  - apply (IH ys eq_refl k a b Hk Hf).
Qed.

Lemma range_nth_error (n j : Z) :
  (0 <= j < n)%Z -> nth_error (range n) (Z.to_nat j) = Some j.
Proof.
  intro H. unfold range. rewrite nth_error_map, nth_error_seq.
  destruct (Nat.ltb_spec (Z.to_nat j) (Z.to_nat n)) as [_|Hge]; [|lia].
  simpl. f_equal. lia.
Qed.

Lemma gradient_color_succeeds (rgb_colors : list (Z * Z * Z)) (num_classes i : Z) :
  List.length rgb_colors = 5%nat -> (5 < num_classes)%Z -> (0 <= i < num_classes)%Z ->
  exists c, gradient_color rgb_colors num_classes i = Ok c.
Proof.
  intros Hlen Hn Hi. unfold gradient_color. rewrite Hlen.
  change (Z.of_nat 5 - 1)%Z with 4%Z.
  set (pos := inject_Z (i * 4) / inject_Z (num_classes - 1)).
  assert (Hd : 0 < inject_Z (num_classes - 1)).
  { change 0 with (inject_Z 0). rewrite <- Zlt_Qlt. lia. }
  assert (H0 : 0 <= pos).
  { apply Qle_shift_div_l; [exact Hd|]. rewrite Qmult_0_l.
    change 0 with (inject_Z 0). rewrite <- Zle_Qle. lia. }
  assert (H4 : pos <= 4).
  { apply Qle_shift_div_r; [exact Hd|]. change 4 with (inject_Z 4).
    rewrite <- inject_Z_mult, <- Zle_Qle. lia. }
  rewrite (py_int_floor pos H0).
  assert (Hf : (0 <= Qfloor pos <= 4)%Z).
  { split.
    - rewrite <- (Qfloor_Z 0). apply Qfloor_resp_le. exact H0.
    - rewrite <- (Qfloor_Z 4). apply Qfloor_resp_le. exact H4. }
  set (lower := Qfloor pos) in *.
  destruct (lower =? Z.min (lower + 1) 4)%Z.
  - rewrite (py_index_nth rgb_colors lower (0, 0, 0)%Z) by lia. cbn [bind].
    eexists. reflexivity.
  - rewrite (py_index_nth rgb_colors lower (0, 0, 0)%Z) by lia. cbn [bind].
    rewrite (py_index_nth rgb_colors (Z.min (lower + 1) 4) (0, 0, 0)%Z) by lia.
    cbn [bind]. eexists. reflexivity.
Qed.

Lemma gradient_color_first (rgb0 rgb1 rgb2 rgb3 rgb4 : Z * Z * Z) (num_classes : Z) :
  (5 < num_classes)%Z ->
  gradient_color [rgb0; rgb1; rgb2; rgb3; rgb4] num_classes 0 = Ok (rgb_to_hex rgb0).
Proof.
  intro Hn. unfold gradient_color. cbn [List.length].
  change (Z.of_nat 5 - 1)%Z with 4%Z. change (0 * 4)%Z with 0%Z.
  assert (Hd : 0 < inject_Z (num_classes - 1)).
  { change 0 with (inject_Z 0). rewrite <- Zlt_Qlt. lia. }
  set (pos := inject_Z 0 / inject_Z (num_classes - 1)).
  assert (Epos : pos == inject_Z 0).
  { unfold pos. change (inject_Z 0) with 0. field. lra. }
  rewrite (py_int_of_Z pos 0 Epos).
  change (0 + 1)%Z with 1%Z. change (Z.min 1 4) with 1%Z.
  change (0 =? 1)%Z with false. cbv iota.
  rewrite (py_index_nth _ 0 (0, 0, 0)%Z) by (simpl; lia). cbn [bind].
  rewrite (py_index_nth _ 1 (0, 0, 0)%Z) by (simpl; lia). cbn [bind].
  change (Z.to_nat 0) with 0%nat. change (Z.to_nat 1) with 1%nat. cbn [nth].
  destruct rgb0 as [[r0 g0] b0]. destruct rgb1 as [[r1 g1] b1]. cbn [fst snd].
  assert (Hmix : forall lo up : Z,
             py_int (inject_Z lo + (pos - inject_Z 0) * (inject_Z up - inject_Z lo)) = lo).
  { intros lo up. apply py_int_of_Z. rewrite Epos. ring. }
  rewrite !Hmix. reflexivity.
Qed.

Lemma gradient_color_last (rgb0 rgb1 rgb2 rgb3 rgb4 : Z * Z * Z) (num_classes : Z) :
  (5 < num_classes)%Z ->
  gradient_color [rgb0; rgb1; rgb2; rgb3; rgb4] num_classes (num_classes - 1)
  = Ok (rgb_to_hex rgb4).
Proof.
  intro Hn. unfold gradient_color. cbn [List.length].
  change (Z.of_nat 5 - 1)%Z with 4%Z.
  assert (Hd : 0 < inject_Z (num_classes - 1)).
  { change 0 with (inject_Z 0). rewrite <- Zlt_Qlt. lia. }
  set (pos := inject_Z ((num_classes - 1) * 4) / inject_Z (num_classes - 1)).
  assert (Epos : pos == inject_Z 4).
  { unfold pos. rewrite inject_Z_mult. change (inject_Z 4) with 4. field. lra. }
  rewrite (py_int_of_Z pos 4 Epos). reflexivity.
Qed.

(** X24.  With more than five classes and five scheme colours that
    [hex_to_rgb] reads, [generate_dynamic_color_palette] returns exactly
    [num_classes] colours without an index out of range; the first is the
    darkest colour of the scheme and the last its lightest, each as
    [rgb_to_hex] writes it back.  A colour [hex_to_rgb] refuses makes the
    call raise what [hex_to_rgb] raised. *)
Theorem large_palette_runs_from_darkest_to_lightest :
  forall (hex_to_rgb : string -> result (Z * Z * Z)) (base_scheme : scheme_dict)
         (c0 c1 c2 c3 c4 : string) (num_classes : Z),
    scheme_item base_scheme "60_plus" = Ok c0 ->
    scheme_item base_scheme "45_60" = Ok c1 ->
    scheme_item base_scheme "30_45" = Ok c2 ->
    scheme_item base_scheme "15_30" = Ok c3 ->
    scheme_item base_scheme "0_15" = Ok c4 ->
    (5 < num_classes)%Z ->
    (forall rgb_colors,
        mapM hex_to_rgb [c0; c1; c2; c3; c4] = Ok rgb_colors ->
        exists colors,
          generate_dynamic_color_palette hex_to_rgb base_scheme num_classes = Ok colors
          /\ List.length colors = Z.to_nat num_classes
          /\ hd_error colors = option_map rgb_to_hex (hd_error rgb_colors)
          /\ nth_error colors (Z.to_nat (num_classes - 1))
             = option_map rgb_to_hex (nth_error rgb_colors 4))
    /\ (forall e,
           mapM hex_to_rgb [c0; c1; c2; c3; c4] = Err e ->
           generate_dynamic_color_palette hex_to_rgb base_scheme num_classes = Err e).
Proof.
  intros h2r bs c0 c1 c2 c3 c4 n H0 H1 H2 H3 H4 Hn.
  unfold generate_dynamic_color_palette. rewrite H0, H1, H2, H3, H4. cbn [bind].
  cbn [List.length]. destruct (Z.leb_spec n (Z.of_nat 5)) as [Hle|_]; [lia|].
  split.
  - intros rgb_colors Hrgb. rewrite Hrgb. cbn [bind].
    pose proof (mapM_length _ _ _ Hrgb) as Hlen. cbn [List.length] in Hlen.
    destruct (mapM_succeeds (gradient_color rgb_colors n) (range n)) as [colors Hc].
    { intros i Hi. apply range_In in Hi.
      apply gradient_color_succeeds; [exact Hlen | exact Hn | exact Hi]. }
    exists colors. split; [exact Hc|]. split.
    { rewrite (mapM_length _ _ _ Hc). apply range_length. }
    destruct rgb_colors as [|rgb0 [|rgb1 [|rgb2 [|rgb3 [|rgb4 [|]]]]]]; try discriminate Hlen.
    cbn [hd_error nth_error option_map]. split.
    + change (hd_error colors) with (nth_error colors 0).
      apply (mapM_nth_error _ _ _ Hc 0%nat 0%Z).
      * apply (range_nth_error n 0). lia.
      * apply gradient_color_first. exact Hn.
    + apply (mapM_nth_error _ _ _ Hc _ (n - 1)%Z).
      * apply range_nth_error. lia.
      * apply gradient_color_last. exact Hn.
  - intros e He. rewrite He. reflexivity.
Qed.

Lemma large_palette_runs_from_darkest_to_lightest_witness :
  exists colors,
    generate_dynamic_color_palette (fun _ => Ok (13, 71, 161)%Z)
                                   (ensure_time_mapping_keys []) 7 = Ok colors
    /\ List.length colors = Z.to_nat 7
    /\ hd_error colors = Some (rgb_to_hex (13, 71, 161)%Z)
    /\ nth_error colors (Z.to_nat (7 - 1)) = Some (rgb_to_hex (13, 71, 161)%Z).
Proof.
  apply (proj1 (large_palette_runs_from_darkest_to_lightest
                  (fun _ => Ok (13, 71, 161)%Z) (ensure_time_mapping_keys [])
                  "#0d47a1" "#1976d2" "#42a5f5" "#90caf9" "#e3f2fd" 7%Z
                  eq_refl eq_refl eq_refl eq_refl eq_refl ltac:(lia))
               (repeat (13, 71, 161)%Z 5) eq_refl).
Defined.

End MapUtilsMore.

(** ** The band columns of the zone table *)

Module TimeMappingMore.
Import DataProcessing TimeMapping DataProcessingFacts.
Local Open Scope string_scope.


Lemma get_column_present (name : string) (cols : list (string * list (option Q))) :
  get_column name cols = None -> ~ In name (map fst cols).
Proof.
  induction cols as [|[n c] tl IH]; simpl; intros H Hin; [exact Hin|].
  destruct (String.eqb_spec n name) as [E|E]; [discriminate|].
  destruct Hin as [Hin|Hin]; [contradiction | exact (IH H Hin)].
Qed.







Lemma band_name_has_prefix (l u : Z) (s : string) :
  String.prefix "zones_" (band_name l u ++ s) = true.
Proof.
  unfold band_name. simpl.
  destruct ((py_str l ++ String "_" (py_str u)) ++ s); reflexivity.
Qed.














End TimeMappingMore.
